(** * A shallow embedding of the CUDA rasterizer (rasterize.cu, rasterizeTools.h)

    Conventions of the model.
    - A [float] is an exact rational ([Q]): rounding, NaN and the signed
      zeros are outside the model.  The only infinity the program stores is
      the cleared depth, modelled by the constructor [Infinity] of [depthv].
      Equality of scalars is [Qeq] (written [==]).  A division by zero,
      an infinity or a NaN in the source, is 0 in [Q]: the properties below
      that rest on a quotient assume its divisor is not zero.
    - [atomicCAS] compares and returns depth values; the reinterpretation
      of a float as its bit pattern is outside the model.
    - An [int] is an integer of [Z]; the flat pixel index is wrapped to 32
      bits where the source multiplies ([flat_index]).
    - A device buffer is a list; a read or write outside the list is a
      memory fault, the result [None] of the kernels that can commit one.
    - A kernel is the function of one thread, and a launch runs the threads
      of the grid one after the other, except for the depth test of
      [_rasterize], whose threads share pixels: there the steps of the
      threads are interleaved by an explicit schedule.
    - [glm::normalize] and [glm::pow] lie outside the rationals: they are
      parameters of the kernels that call them.
    - Of the host code that loads a scene, the kernels it launches are
      modelled, on the buffers they are given; a buffer view is a list of
      bytes. *)

From Stdlib Require Import ZArith QArith Qround Qminmax Qabs Qpower Lia Lqa Bool List.
From stdpp Require Import base list.
Import ListNotations.

#[local] Open Scope Z_scope.
#[local] Open Scope Q_scope.

(** ** Scalars *)

(** [a < b] and [a <= b] on floats, as the conditions of the source. *)
Definition Qltb (a b : Q) : bool := negb (Qle_bool b a).
Definition Qleb (a b : Q) : bool := Qle_bool a b.

(** [(int)f]: conversion of a float to an int truncates toward zero. *)
Definition float_to_int (f : Q) : Z := Z.quot (Qnum f) (Z.pos (Qden f)).

(** [(float)i] *)
Definition int_to_float (i : Z) : Q := inject_Z i.

(** [glm::clamp(x, lo, hi) = min(max(x, lo), hi)] *)
Definition clamp (x lo hi : Q) : Q := Qmin (Qmax x lo) hi.

(** [glm::floor] on a float, as an int. *)
Definition glm_floor (f : Q) : Z := Qfloor f.

(** Wrap-around of a 32-bit signed [int]. *)
Definition wrap32 (z : Z) : Z := ((z + 2 ^ 31) mod 2 ^ 32 - 2 ^ 31)%Z.

(** ** glm vectors and fixed-size arrays *)

Record vec2 : Type := mkvec2 { x2 : Q; y2 : Q }.
Record vec3 : Type := mkvec3 { x3 : Q; y3 : Q; z3 : Q }.
Record vec4 : Type := mkvec4 { x4 : Q; y4 : Q; z4 : Q; w4 : Q }.

(** [T a[3]] *)
Record arr3 (A : Type) : Type := mkarr3 { a0 : A; a1 : A; a2 : A }.
Arguments mkarr3 {A} _ _ _.
Arguments a0 {A} _.
Arguments a1 {A} _.
Arguments a2 {A} _.

(** A column-major 4x4 matrix: [m[i]] is column [i]. *)
Record mat4 : Type := mkmat4 { col0 : vec4; col1 : vec4; col2 : vec4; col3 : vec4 }.

Definition vec3_of_vec4 (v : vec4) : vec3 := mkvec3 (x4 v) (y4 v) (z4 v).
Definition vec4_of_vec3 (v : vec3) (w : Q) : vec4 := mkvec4 (x3 v) (y3 v) (z3 v) w.
Definition vec3_of_vec2 (v : vec2) (z : Q) : vec3 := mkvec3 (x2 v) (y2 v) z.

Definition vec2_add (a b : vec2) : vec2 := mkvec2 (x2 a + x2 b) (y2 a + y2 b).
Definition vec2_scale (s : Q) (a : vec2) : vec2 := mkvec2 (s * x2 a) (s * y2 a).
Definition vec2_div (a : vec2) (s : Q) : vec2 := mkvec2 (x2 a / s) (y2 a / s).

Definition vec3_add (a b : vec3) : vec3 := mkvec3 (x3 a + x3 b) (y3 a + y3 b) (z3 a + z3 b).
Definition vec3_neg (a : vec3) : vec3 := mkvec3 (- x3 a) (- y3 a) (- z3 a).
Definition vec3_scale (s : Q) (a : vec3) : vec3 := mkvec3 (s * x3 a) (s * y3 a) (s * z3 a).
Definition vec3_div (a : vec3) (s : Q) : vec3 := mkvec3 (x3 a / s) (y3 a / s) (z3 a / s).
Definition dot3 (a b : vec3) : Q := x3 a * x3 b + y3 a * y3 b + z3 a * z3 b.
Definition cross (a b : vec3) : vec3 :=
  mkvec3 (y3 a * z3 b - y3 b * z3 a)
         (z3 a * x3 b - z3 b * x3 a)
         (x3 a * y3 b - x3 b * y3 a).

Definition vec4_add (a b : vec4) : vec4 :=
  mkvec4 (x4 a + x4 b) (y4 a + y4 b) (z4 a + z4 b) (w4 a + w4 b).
Definition vec4_sub (a b : vec4) : vec4 :=
  mkvec4 (x4 a - x4 b) (y4 a - y4 b) (z4 a - z4 b) (w4 a - w4 b).
Definition vec4_scale (a : vec4) (s : Q) : vec4 :=
  mkvec4 (x4 a * s) (y4 a * s) (z4 a * s) (w4 a * s).
Definition vec4_div (a : vec4) (s : Q) : vec4 :=
  mkvec4 (x4 a / s) (y4 a / s) (z4 a / s) (w4 a / s).

(** [m * v] of glm: the columns scaled by the components of [v], summed as
    [(m[0]*v[0] + m[1]*v[1]) + (m[2]*v[2] + m[3]*v[3])]. *)
Definition mat4_mul_vec4 (m : mat4) (v : vec4) : vec4 :=
  vec4_add (vec4_add (vec4_scale (col0 m) (x4 v)) (vec4_scale (col1 m) (y4 v)))
           (vec4_add (vec4_scale (col2 m) (z4 v)) (vec4_scale (col3 m) (w4 v))).

(** [glm::mat4(1.0f)] *)
Definition mat4_identity : mat4 :=
  mkmat4 (mkvec4 1 0 0 0) (mkvec4 0 1 0 0) (mkvec4 0 0 1 0) (mkvec4 0 0 0 1).

(** ** rasterizeTools.h *)

Record AABB : Type := mkAABB { aabb_min : vec3; aabb_max : vec3 }.

Definition getAABBForTriangle (tri : arr3 vec3) (w h : Z) : AABB :=
  let mn := mkvec3 (Qmin (Qmin (x3 (a0 tri)) (x3 (a1 tri))) (x3 (a2 tri)))
                   (Qmin (Qmin (y3 (a0 tri)) (y3 (a1 tri))) (y3 (a2 tri)))
                   (Qmin (Qmin (z3 (a0 tri)) (z3 (a1 tri))) (z3 (a2 tri))) in
  let mn := mkvec3 (clamp (x3 mn) 0 (int_to_float w)) (y3 mn) (z3 mn) in
  let mn := mkvec3 (x3 mn) (clamp (y3 mn) 0 (int_to_float h)) (z3 mn) in
  let mx := mkvec3 (Qmax (Qmax (x3 (a0 tri)) (x3 (a1 tri))) (x3 (a2 tri)))
                   (Qmax (Qmax (y3 (a0 tri)) (y3 (a1 tri))) (y3 (a2 tri)))
                   (Qmax (Qmax (z3 (a0 tri)) (z3 (a1 tri))) (z3 (a2 tri))) in
  let mx := mkvec3 (clamp (x3 mx) 0 (int_to_float w)) (y3 mx) (z3 mx) in
  let mx := mkvec3 (x3 mx) (clamp (y3 mx) 0 (int_to_float h)) (z3 mx) in
  mkAABB mn mx.

Definition calculateSignedArea (tri : arr3 vec3) : Q :=
  (1 # 2) * ((x3 (a2 tri) - x3 (a0 tri)) * (y3 (a1 tri) - y3 (a0 tri))
             - (x3 (a1 tri) - x3 (a0 tri)) * (y3 (a2 tri) - y3 (a0 tri))).

Definition calculateBarycentricCoordinateValue (a b c : vec2) (tri : arr3 vec3) : Q :=
  let baryTri := mkarr3 (vec3_of_vec2 a 0) (vec3_of_vec2 b 0) (vec3_of_vec2 c 0) in
  calculateSignedArea baryTri / calculateSignedArea tri.

Definition calculateBarycentricCoordinate (tri : arr3 vec3) (point : vec2) : vec3 :=
  let beta := calculateBarycentricCoordinateValue
                (mkvec2 (x3 (a0 tri)) (y3 (a0 tri))) point
                (mkvec2 (x3 (a2 tri)) (y3 (a2 tri))) tri in
  let gamma := calculateBarycentricCoordinateValue
                 (mkvec2 (x3 (a0 tri)) (y3 (a0 tri)))
                 (mkvec2 (x3 (a1 tri)) (y3 (a1 tri))) point tri in
  let alpha := 1 - beta - gamma in
  mkvec3 alpha beta gamma.

Definition isBarycentricCoordInBounds (barycentricCoord : vec3) : bool :=
  Qleb 0 (x3 barycentricCoord) && Qleb (x3 barycentricCoord) 1 &&
  Qleb 0 (y3 barycentricCoord) && Qleb (y3 barycentricCoord) 1 &&
  Qleb 0 (z3 barycentricCoord) && Qleb (z3 barycentricCoord) 1.

Definition getZAtCoordinate (barycentricCoord : vec3) (tri : arr3 vec3) : Q :=
  - (x3 barycentricCoord * z3 (a0 tri)
     + y3 barycentricCoord * z3 (a1 tri)
     + z3 barycentricCoord * z3 (a2 tri)).

Definition getPerspectiveCorrectZAtCoordinate
    (screenSpaceBarycentric : vec3) (tri : arr3 vec3) : Q :=
  let inverseZ := x3 screenSpaceBarycentric / z3 (a0 tri)
                  + y3 screenSpaceBarycentric / z3 (a1 tri)
                  + z3 screenSpaceBarycentric / z3 (a2 tri) in
  1 / inverseZ.

Definition getPerspectiveCorrectTexcoordAtCoordinate
    (barycentricCoord : vec3) (tri : arr3 vec3) (triTexCoord : arr3 vec2) (depth : Q) : vec2 :=
  vec2_scale depth
    (vec2_add
       (vec2_add (vec2_div (vec2_scale (x3 barycentricCoord) (a0 triTexCoord)) (z3 (a0 tri)))
                 (vec2_div (vec2_scale (y3 barycentricCoord) (a1 triTexCoord)) (z3 (a1 tri))))
       (vec2_div (vec2_scale (z3 barycentricCoord) (a2 triTexCoord)) (z3 (a2 tri)))).

(** ** Device buffers *)

(** [buf[i]] as an rvalue: [None] is an access outside the buffer. *)
Definition rd {A : Type} (buf : list A) (i : Z) : option A :=
  if (i <? 0)%Z then None else buf !! Z.to_nat i.

(** [buf[i] = v] *)
Definition wr {A : Type} (buf : list A) (i : Z) (v : A) : option (list A) :=
  if (i <? 0)%Z then None
  else if (i <? Z.of_nat (length buf))%Z then Some (<[Z.to_nat i := v]> buf)
  else None.

(** [buf[i]] updated in place by [f] (assignment to fields of [buf[i]]). *)
Definition upd {A : Type} (buf : list A) (i : Z) (f : A -> A) : option (list A) :=
  match rd buf i with
  | Some a => wr buf i (f a)
  | None => None
  end.

(** ** rasterize.cu: data *)

Definition VertexIndex : Type := Z.
Definition TextureData : Type := Z.

Inductive PrimitiveType : Type := Point | Line | Triangle.

(** [(int)primitiveType] *)
Definition PrimitiveType_int (t : PrimitiveType) : Z :=
  match t with Point => 1 | Line => 2 | Triangle => 3 end.

Module VertexOut.
Record t : Type := mk {
    pos : vec4;
    eyePos : vec3;
    eyeNor : vec3;
    color : vec4;
    texcoord0 : vec2;
    dev_diffuseTex : option (list TextureData);   (* [None] is [NULL] *)
    texWidth : Z;
    texHeight : Z;
    materialId : Z
}.
End VertexOut.

Module Primitive.
Record t : Type := mk {
    primitiveType : PrimitiveType;
    v : arr3 VertexOut.t
}.
End Primitive.

Module Fragment.
Record t : Type := mk {
    color : vec4;
    eyePos : vec3;
    eyeNor : vec3;
    depth : Q;          (* present under RENDER_DEPTH_ONLY only *)
    materialId : Z
}.
End Fragment.

(** The primitive modes of glTF ([TINYGLTF_MODE_...] of tiny_gltf_loader.h);
    only their being distinct matters to the code. *)
Inductive gltf_mode : Type :=
| MODE_POINTS | MODE_LINE | MODE_LINE_LOOP
| MODE_TRIANGLES | MODE_TRIANGLE_STRIP | MODE_TRIANGLE_FAN
| MODE_OTHER (code : Z).

Definition gltf_mode_is_triangles (m : gltf_mode) : bool :=
  match m with MODE_TRIANGLES => true | _ => false end.

Module PrimitiveDevBufPointers.
Record t : Type := mk {
    primitiveMode : gltf_mode;
    primitiveType : PrimitiveType;
    numPrimitives : Z;
    numIndices : Z;
    numVertices : Z;
    dev_indices : list VertexIndex;
    dev_position : list vec3;
    dev_normal : list vec3;
    dev_texcoord0 : list vec2;                    (* [[]] when never allocated *)
    dev_diffuseTex : option (list TextureData);
    diffuseTexWidth : Z;
    diffuseTexHeight : Z;
    materialId : Z;
    dev_verticesOut : list VertexOut.t
}.
End PrimitiveDevBufPointers.

(** The compile-time switches of rasterize.cu. *)
Record Config : Type := mkConfig {
  RENDER_DEPTH_ONLY : bool;
  BILINEAR_FILTERING : bool;
  BACKFACE_CULLING : bool;
  USE_K_BUFFER : bool
}.

(** The file as committed: every switch commented out. *)
Definition default_config : Config := mkConfig false false false false.

(** A column-major 3x3 matrix. *)
Record mat3 : Type := mkmat3 { m3col0 : vec3; m3col1 : vec3; m3col2 : vec3 }.

Definition mat3_mul_vec3 (m : mat3) (v : vec3) : vec3 :=
  vec3_add (vec3_add (vec3_scale (x3 v) (m3col0 m)) (vec3_scale (y3 v) (m3col1 m)))
           (vec3_scale (z3 v) (m3col2 m)).

(** The threads [0 .. n-1] of a one-dimensional launch. *)
Definition thread_ids (n : nat) : list Z := map Z.of_nat (seq 0 n).

(** [(n + 127) / 128] blocks of 128 threads. *)
Definition launch_size_1d (n : Z) : nat := Z.to_nat (Z.quot (n + 127) 128 * 128).

(** Runs a body for each element of a list in turn (the threads of a launch
    one after the other, or the iterations of a loop), stopping at the first
    fault. *)
Fixpoint run_all {I S : Type} (body : I -> S -> option S) (ids : list I) (s : S)
  : option S :=
  match ids with
  | [] => Some s
  | i :: rest =>
      match body i s with
      | Some s' => run_all body rest s'
      | None => None
      end
  end.

(** ** rasterize.cu: vertex stage *)

Section Kernels.

(** [glm::normalize] needs a square root, which the rationals lack: it is a
    parameter of the kernels that call it. *)
Variable normalize : vec3 -> vec3.

Definition getPerspectiveCorrectNormalAtCoordinate
    (barycentricCoord : vec3) (tri : arr3 vec3) (triNormals : arr3 vec3) (depth : Q) : vec3 :=
  normalize
    (vec3_scale depth
       (vec3_add
          (vec3_add (vec3_div (vec3_scale (x3 barycentricCoord) (a0 triNormals)) (z3 (a0 tri)))
                    (vec3_div (vec3_scale (y3 barycentricCoord) (a1 triNormals)) (z3 (a1 tri))))
          (vec3_div (vec3_scale (z3 barycentricCoord) (a2 triNormals)) (z3 (a2 tri))))).

(** Lines 818-823 of [_vertexTransformAndAssembly]: clip space, division by
    [w], then the viewport map of [x] and [y]. *)
Definition viewport_position (MVP : mat4) (p : vec3) (width height : Z) : vec4 :=
  let position := vec4_of_vec3 p 1 in
  let transformedPosition := mat4_mul_vec4 MVP position in
  let transformedPosition := vec4_div transformedPosition (w4 transformedPosition) in
  let transformedPosition :=
    mkvec4 ((1 # 2) * int_to_float width * (x4 transformedPosition + 1))
           (y4 transformedPosition) (z4 transformedPosition) (w4 transformedPosition) in
  mkvec4 (x4 transformedPosition)
         ((1 # 2) * int_to_float height * (1 - y4 transformedPosition))
         (z4 transformedPosition) (w4 transformedPosition).

(** The thread [vid] of [_vertexTransformAndAssembly]; the result is the
    buffer [primitive.dev_verticesOut]. *)
Definition _vertexTransformAndAssembly
    (numVertices : Z) (primitive : PrimitiveDevBufPointers.t)
    (MVP MV : mat4) (MV_normal : mat3) (width height : Z) (vid : Z)
    (dev_verticesOut : list VertexOut.t) : option (list VertexOut.t) :=
  if (vid <? numVertices)%Z then
    p ← rd (PrimitiveDevBufPointers.dev_position primitive) vid;
    let transformedPosition := viewport_position MVP p width height in
    n ← rd (PrimitiveDevBufPointers.dev_normal primitive) vid;
    let eyeNor := normalize (mat3_mul_vec3 MV_normal n) in
    let eyeSpacePosition := mat4_mul_vec4 MV (vec4_of_vec3 p 1) in
    let eyeSpacePosition := vec4_div eyeSpacePosition (w4 eyeSpacePosition) in
    match PrimitiveDevBufPointers.dev_diffuseTex primitive with
    | Some tex =>
        uv ← rd (PrimitiveDevBufPointers.dev_texcoord0 primitive) vid;
        upd dev_verticesOut vid (fun _ =>
          VertexOut.mk transformedPosition (vec3_of_vec4 eyeSpacePosition) eyeNor
            (mkvec4 1 1 1 1) uv (Some tex)
            (PrimitiveDevBufPointers.diffuseTexWidth primitive)
            (PrimitiveDevBufPointers.diffuseTexHeight primitive)
            (PrimitiveDevBufPointers.materialId primitive))
    | None =>
        upd dev_verticesOut vid (fun o =>
          VertexOut.mk transformedPosition (vec3_of_vec4 eyeSpacePosition) eyeNor
            (mkvec4 1 1 1 1) (VertexOut.texcoord0 o) (VertexOut.dev_diffuseTex o)
            (VertexOut.texWidth o) (VertexOut.texHeight o)
            (PrimitiveDevBufPointers.materialId primitive))
    end
  else Some dev_verticesOut.

End Kernels.

(** ** rasterize.cu: primitive assembly *)

(** [a[i] = v] on a three-element array. *)
Definition arr3_set {A : Type} (a : arr3 A) (i : Z) (v : A) : option (arr3 A) :=
  match i with
  | 0%Z => Some (mkarr3 v (a1 a) (a2 a))
  | 1%Z => Some (mkarr3 (a0 a) v (a2 a))
  | 2%Z => Some (mkarr3 (a0 a) (a1 a) v)
  | _ => None
  end.

(** The thread [iid] of [_primitiveAssembly]; the result is [dev_primitives]. *)
Definition _primitiveAssembly
    (numIndices curPrimitiveBeginId : Z) (primitive : PrimitiveDevBufPointers.t)
    (iid : Z) (dev_primitives : list Primitive.t) : option (list Primitive.t) :=
  if (iid <? numIndices)%Z then
    if gltf_mode_is_triangles (PrimitiveDevBufPointers.primitiveMode primitive) then
      let ty := PrimitiveType_int (PrimitiveDevBufPointers.primitiveType primitive) in
      let pid := Z.quot iid ty in
      idx ← rd (PrimitiveDevBufPointers.dev_indices primitive) iid;
      vo ← rd (PrimitiveDevBufPointers.dev_verticesOut primitive) idx;
      slot ← rd dev_primitives (pid + curPrimitiveBeginId);
      v' ← arr3_set (Primitive.v slot) (Z.rem iid ty) vo;
      wr dev_primitives (pid + curPrimitiveBeginId)
         (Primitive.mk (Primitive.primitiveType slot) v')
    else Some dev_primitives
  else Some dev_primitives.

(** The launch [_primitiveAssembly<<<numBlocksForIndices, 128>>>]. *)
Definition launch_primitiveAssembly
    (curPrimitiveBeginId : Z) (p : PrimitiveDevBufPointers.t)
    (dev_primitives : list Primitive.t) : option (list Primitive.t) :=
  run_all
    (_primitiveAssembly (PrimitiveDevBufPointers.numIndices p) curPrimitiveBeginId p)
    (thread_ids (launch_size_1d (PrimitiveDevBufPointers.numIndices p)))
    dev_primitives.

(** The switch on [primitive.mode] of [rasterizeSetBuffers]: the primitive
    type and [numPrimitives] of a mesh part with [numIndices] indices.  The
    default case leaves both variables unset: [None]. *)
Definition primitive_info (mode : gltf_mode) (numIndices : Z)
  : option (PrimitiveType * Z) :=
  match mode with
  | MODE_TRIANGLES => Some (Triangle, Z.quot numIndices 3)
  | MODE_TRIANGLE_STRIP => Some (Triangle, (numIndices - 2)%Z)
  | MODE_TRIANGLE_FAN => Some (Triangle, (numIndices - 2)%Z)
  | MODE_LINE => Some (Line, Z.quot numIndices 2)
  | MODE_LINE_LOOP => Some (Line, (numIndices + 1)%Z)
  | MODE_POINTS => Some (Point, numIndices)
  | MODE_OTHER _ => None
  end.

(** [totalNumPrimitives] after the loop of [rasterizeSetBuffers] over the
    mesh parts: [totalNumPrimitives += numPrimitives] for each. *)
Definition totalNumPrimitives (parts : list PrimitiveDevBufPointers.t) : Z :=
  fold_left (fun total p => (total + PrimitiveDevBufPointers.numPrimitives p)%Z) parts 0%Z.

(** The primitive assembly loop of [rasterize] over the mesh parts, from
    [curPrimitiveBeginId]: the final offset and [dev_primitives]. *)
Fixpoint assemble_parts (parts : list PrimitiveDevBufPointers.t)
    (curPrimitiveBeginId : Z) (dev_primitives : list Primitive.t)
  : option (Z * list Primitive.t) :=
  match parts with
  | [] => Some (curPrimitiveBeginId, dev_primitives)
  | p :: rest =>
      match launch_primitiveAssembly curPrimitiveBeginId p dev_primitives with
      | Some dev_primitives' =>
          assemble_parts rest
            (curPrimitiveBeginId + PrimitiveDevBufPointers.numPrimitives p)%Z
            dev_primitives'
      | None => None
      end
  end.

(** ** rasterize.cu: texture lookup *)

(** [texels[i]] as a float. *)
Definition texel (texels : list TextureData) (i : Z) : option Q :=
  b ← rd texels i; Some (inject_Z b).

Definition getBilinearFilteredPixelColor
    (texels : list TextureData) (uv : vec2) (texWidth texHeight : Z) : option vec4 :=
  let u := x2 uv * int_to_float texWidth - (1 # 2) in
  let v := y2 uv * int_to_float texHeight - (1 # 2) in
  let x := glm_floor u in
  let y := glm_floor v in
  let uRatio := u - int_to_float x in
  let vRatio := v - int_to_float y in
  let uOpposite := 1 - uRatio in
  let vOpposite := 1 - vRatio in
  let i0 := (3 * (x + y * texWidth))%Z in
  let i1 := (3 * ((x + 1) + y * texWidth))%Z in
  let i2 := (3 * (x + (y + 1) * texWidth))%Z in
  let i3 := (3 * ((x + 1) + (y + 1) * texWidth))%Z in
  let channel (k : Z) : option Q :=
    t0 ← texel texels (i0 + k); t1 ← texel texels (i1 + k);
    t2 ← texel texels (i2 + k); t3 ← texel texels (i3 + k);
    Some ((t0 * uOpposite + t1 * uRatio) * vOpposite
          + (t2 * uOpposite + t3 * uRatio) * vRatio) in
  red ← channel 0%Z; green ← channel 1%Z; blue ← channel 2%Z;
  Some (vec4_div (mkvec4 red green blue 1) 255).

(** Lines 1009-1011 of [_rasterize]: the texel index of the nearest-neighbour
    lookup. *)
Definition nearest_texIndex (uv : vec2) (texWidth texHeight : Z) : Z :=
  (float_to_int (x2 uv * int_to_float texWidth)
   + float_to_int (y2 uv * int_to_float texWidth) * texHeight)%Z.

(** Lines 1009-1016 of [_rasterize]. *)
Definition nearest_color
    (texels : list TextureData) (uv : vec2) (texWidth texHeight : Z) : option vec4 :=
  let texIndex := nearest_texIndex uv texWidth texHeight in
  r ← texel texels (3 * texIndex);
  g ← texel texels (3 * texIndex + 1);
  b ← texel texels (3 * texIndex + 2);
  Some (mkvec4 (r / 255) (g / 255) (b / 255) 1).

(** ** rasterizeTools.h: the depth cell and [fatomicMin] *)

(** A value stored in the depth buffer: a float or the [INFINITY] written by
    [initDepth]. *)
Inductive depthv : Type := Finite (d : Q) | Infinity.

(** [depth < depths[index]] *)
Definition depth_lt (depth : Q) (stored : depthv) : bool :=
  match stored with Finite d => Qltb depth d | Infinity => true end.

(** [old <= value] *)
Definition depthv_le (old : depthv) (value : Q) : bool :=
  match old with Finite d => Qleb d value | Infinity => false end.

(** [old != assumed] is the negation of this; it is also the comparison of
    [atomicCAS], which the model makes on values rather than on bit patterns. *)
Definition depthv_eqb (a b : depthv) : bool :=
  match a, b with
  | Finite x, Finite y => Qeq_bool x y
  | Infinity, Infinity => true
  | _, _ => false
  end.

(** [atomicCAS(addr, compare, val)]: the new content of [*addr] and the old
    one, which is returned. *)
Definition atomicCAS (addr compare val : depthv) : depthv * depthv :=
  (if depthv_eqb addr compare then val else addr, addr).

(** The do-while loop of [fatomicMin], run by one thread alone. *)
Fixpoint fatomicMin_loop (fuel : nat) (addr old : depthv) (value : Q)
  : option (depthv * depthv) :=
  match fuel with
  | O => None
  | S fuel' =>
      let assumed := old in
      let '(addr', old') := atomicCAS addr assumed (Finite value) in
      if depthv_eqb old' assumed then Some (addr', old')
      else fatomicMin_loop fuel' addr' old' value
  end.

(** [fatomicMin(addr, value)] run by one thread alone: the new content of
    [*addr] and the returned value. *)
Definition fatomicMin (addr : depthv) (value : Q) : option (depthv * depthv) :=
  let old := addr in
  if depthv_le old value then Some (addr, old)
  else fatomicMin_loop 1 addr old value.

(** ** rasterize.cu: the rasterizer *)

Record RasterBuffers : Type := mkRasterBuffers {
  fragmentBuffer : list Fragment.t;
  depths : list depthv;
  depthAccum : list vec4;
  depthRevealage : list Q
}.

(** [int index = x + (y * width)] *)
Definition flat_index (x y width : Z) : Z := wrap32 (x + wrap32 (y * width)).

Definition set_eyeNor (n : vec3) (f : Fragment.t) : Fragment.t :=
  Fragment.mk (Fragment.color f) (Fragment.eyePos f) n (Fragment.depth f)
              (Fragment.materialId f).
Definition set_materialId (m : Z) (f : Fragment.t) : Fragment.t :=
  Fragment.mk (Fragment.color f) (Fragment.eyePos f) (Fragment.eyeNor f)
              (Fragment.depth f) m.
Definition set_color (c : vec4) (f : Fragment.t) : Fragment.t :=
  Fragment.mk c (Fragment.eyePos f) (Fragment.eyeNor f) (Fragment.depth f)
              (Fragment.materialId f).
Definition set_depth (d : Q) (f : Fragment.t) : Fragment.t :=
  Fragment.mk (Fragment.color f) (Fragment.eyePos f) (Fragment.eyeNor f) d
              (Fragment.materialId f).

(** Lines 1027-1028: the alpha of a fragment under USE_K_BUFFER. *)
Definition kbuffer_alpha (color : vec4) : Q :=
  (1 # 10) * (1 - clamp ((x4 color + y4 color + z4 color) * (1 / 3)) 0 1).

(** Lines 1030-1033: the weight of a fragment under USE_K_BUFFER. *)
Definition kbuffer_weight (alpha depth : Q) : Q :=
  let a := Qmin 1 alpha * 8 + (1 # 100) in
  let b := depth * (95 # 100) + 1 in
  clamp (a * a * a * 100000000 * b * b * b) (1 # 100) 300.

(** The three screen-space corners of a primitive. *)
Definition primitive_tri (primitive : Primitive.t) : arr3 vec3 :=
  mkarr3 (vec3_of_vec4 (VertexOut.pos (a0 (Primitive.v primitive))))
         (vec3_of_vec4 (VertexOut.pos (a1 (Primitive.v primitive))))
         (vec3_of_vec4 (VertexOut.pos (a2 (Primitive.v primitive)))).

(** Lines 979-1023: the colour of a fragment before the k-buffer alpha. *)
Definition fragment_color (cfg : Config) (primitive : Primitive.t) (tri : arr3 vec3)
    (bary : vec3) (depth : Q) : option vec4 :=
  let v0 := a0 (Primitive.v primitive) in
  match VertexOut.dev_diffuseTex v0 with
  | Some texels =>
      let texcoords := mkarr3 (VertexOut.texcoord0 (a0 (Primitive.v primitive)))
                              (VertexOut.texcoord0 (a1 (Primitive.v primitive)))
                              (VertexOut.texcoord0 (a2 (Primitive.v primitive))) in
      let uv := getPerspectiveCorrectTexcoordAtCoordinate bary tri texcoords depth in
      if BILINEAR_FILTERING cfg
      then getBilinearFilteredPixelColor texels uv (VertexOut.texWidth v0)
                                         (VertexOut.texHeight v0)
      else nearest_color texels uv (VertexOut.texWidth v0) (VertexOut.texHeight v0)
  | None => Some (VertexOut.color v0)
  end.

(** The scan range of [for (int i = lo; i <= hi; ++i)] with a float bound
    [hi], in the order of the loop. *)
Definition for_range (lo : Z) (hi : Q) : list Z :=
  map (fun k => (lo + Z.of_nat k)%Z) (seq 0 (Z.to_nat (Qfloor hi - lo + 1))).

(** The pixels the two nested loops of [_rasterize] visit, in order. *)
Definition scanned_pixels (bbox : AABB) : list (Z * Z) :=
  flat_map
    (fun x => map (fun y => (x, y))
                  (for_range (float_to_int (y3 (aabb_min bbox))) (y3 (aabb_max bbox))))
    (for_range (float_to_int (x3 (aabb_min bbox))) (x3 (aabb_max bbox))).

(** The rasterizer's point-in-triangle test of pixel [(x, y)], lines 947-950. *)
Definition pixel_accepted (tri : arr3 vec3) (x y : Z) : bool :=
  isBarycentricCoordInBounds
    (calculateBarycentricCoordinate tri (mkvec2 (int_to_float x) (int_to_float y))).

Section Rasterizer.

Variable normalize : vec3 -> vec3.
Variable cfg : Config.

(** Lines 965-1041: what a fragment that passed the depth test writes. *)
Definition fragment_section (primitive : Primitive.t) (tri : arr3 vec3) (bary : vec3)
    (index : Z) (depth : Q) (b : RasterBuffers) : option RasterBuffers :=
  let v0 := a0 (Primitive.v primitive) in
  let eyeSpaceNormals := mkarr3 (VertexOut.eyeNor (a0 (Primitive.v primitive)))
                                (VertexOut.eyeNor (a1 (Primitive.v primitive)))
                                (VertexOut.eyeNor (a2 (Primitive.v primitive))) in
  let perspectiveCorrectNormal :=
    getPerspectiveCorrectNormalAtCoordinate normalize bary tri eyeSpaceNormals depth in
  fb ← (if RENDER_DEPTH_ONLY cfg
        then upd (fragmentBuffer b) index (set_depth (Qabs depth))
        else Some (fragmentBuffer b));
  fb ← upd fb index (set_eyeNor perspectiveCorrectNormal);
  color ← fragment_color cfg primitive tri bary depth;
  fb ← upd fb index (set_materialId (VertexOut.materialId v0));
  if USE_K_BUFFER cfg then
    let alpha := kbuffer_alpha color in
    let color := mkvec4 (x4 color) (y4 color) (z4 color) alpha in
    let w := kbuffer_weight alpha depth in
    acc ← upd (depthAccum b) index (fun a => vec4_add a (vec4_scale color w));
    rev ← wr (depthRevealage b) index alpha;
    fb ← upd fb index (set_color color);
    Some (mkRasterBuffers fb (depths b) acc rev)
  else
    fb ← upd fb index (set_color color);
    Some (mkRasterBuffers fb (depths b) (depthAccum b) (depthRevealage b)).

(** Lines 947-1043: the body of the two loops at pixel [(x, y)]. *)
Definition pixel_body (primitive : Primitive.t) (tri : arr3 vec3) (width : Z)
    (xy : Z * Z) (b : RasterBuffers) : option RasterBuffers :=
  let '(x, y) := xy in
  let point := mkvec2 (int_to_float x) (int_to_float y) in
  let screenSpaceBarycentric := calculateBarycentricCoordinate tri point in
  if isBarycentricCoordInBounds screenSpaceBarycentric then
    let depth := getPerspectiveCorrectZAtCoordinate screenSpaceBarycentric tri in
    let index := flat_index x y width in
    if USE_K_BUFFER cfg then
      fragment_section primitive tri screenSpaceBarycentric index depth b
    else
      stored ← rd (depths b) index;
      if depth_lt depth stored then
        r ← fatomicMin stored depth;
        depths' ← wr (depths b) index (fst r);
        fragment_section primitive tri screenSpaceBarycentric index depth
          (mkRasterBuffers (fragmentBuffer b) depths' (depthAccum b) (depthRevealage b))
      else Some b
  else Some b.

(** The thread [pid] of [_rasterize]. *)
Definition _rasterize (numPrimitives : Z) (primitives : list Primitive.t)
    (width height : Z) (pid : Z) (b : RasterBuffers) : option RasterBuffers :=
  if (pid <? numPrimitives)%Z then
    primitive ← rd primitives pid;
    let v0 := a0 (Primitive.v primitive) in
    if BACKFACE_CULLING cfg
       && Qltb (dot3 (VertexOut.eyeNor v0) (vec3_neg (VertexOut.eyePos v0))) 0
    then Some b
    else
      let tri := primitive_tri primitive in
      let bbox := getAABBForTriangle tri width height in
      run_all (pixel_body primitive tri width) (scanned_pixels bbox) b
  else Some b.

End Rasterizer.

(** The launch [_rasterize<<<numBlocksForPrimitives, numThreadsPerBlock>>>] of
    [rasterize], its threads run one after the other. *)
Definition launch_rasterize (normalize : vec3 -> vec3) (cfg : Config)
    (culledNumPrimitives : Z) (dev_culledPrimitives : list Primitive.t)
    (width height : Z) (b : RasterBuffers) : option RasterBuffers :=
  let numThreadsPerBlock :=
    if (128 <? culledNumPrimitives)%Z then 128%Z else culledNumPrimitives in
  let numBlocksForPrimitives :=
    Z.quot (culledNumPrimitives + numThreadsPerBlock - 1) numThreadsPerBlock in
  run_all (_rasterize normalize cfg culledNumPrimitives dev_culledPrimitives width height)
          (thread_ids (Z.to_nat (numBlocksForPrimitives * numThreadsPerBlock))) b.

(** ** rasterize.cu: backface culling on the host *)

Definition shouldBackfaceCull (p : Primitive.t) : bool :=
  let edge1 := vec4_sub (VertexOut.pos (a0 (Primitive.v p)))
                        (VertexOut.pos (a1 (Primitive.v p))) in
  let edge2 := vec4_sub (VertexOut.pos (a1 (Primitive.v p)))
                        (VertexOut.pos (a2 (Primitive.v p))) in
  let faceNormal := cross (vec3_of_vec4 edge1) (vec3_of_vec4 edge2) in
  Qltb (dot3 faceNormal (vec3_neg (VertexOut.eyePos (a0 (Primitive.v p))))) 0.

(** The front-facing predicate: the primitives [shouldBackfaceCull] keeps. *)
Definition front_facing (p : Primitive.t) : bool := negb (shouldBackfaceCull p).

(** [thrust::remove_if(first, last, pred)]: the kept elements move to the
    front in their order; the result is the buffer and the number of kept
    elements (the offset of the returned iterator from [first]).  What lies
    behind the kept elements is unspecified by thrust and left as it was. *)
Definition remove_if {A : Type} (pred : A -> bool) (buf : list A) : list A * Z :=
  let kept := List.filter (fun a => negb (pred a)) buf in
  (kept ++ drop (length kept) buf, Z.of_nat (length kept)).

Section Culling.

(** [sizeof(Primitive)]; a pointer is a byte address. *)
Variable sizeof_Primitive : Z.

(** [p + n] and [p - q] on [Primitive*]. *)
Definition ptr_add (p n : Z) : Z := (p + n * sizeof_Primitive)%Z.
Definition ptr_diff (p q : Z) : Z := Z.quot (p - q) sizeof_Primitive.

(** Lines 1107-1115 of [rasterize], with the addresses the two buffers were
    allocated at: [culledNumPrimitives] and the content of
    [dev_culledPrimitives]. *)
Definition cull (cfg : Config) (dev_primitives_addr dev_culledPrimitives_addr : Z)
    (dev_primitives : list Primitive.t) : Z * list Primitive.t :=
  let culledNumPrimitives := Z.of_nat (length dev_primitives) in
  let dev_culledPrimitives := dev_primitives in
  if BACKFACE_CULLING cfg then
    let '(dev_culledPrimitives, kept) := remove_if shouldBackfaceCull dev_culledPrimitives in
    let dev_primitives_end := ptr_add dev_culledPrimitives_addr kept in
    let culledNumPrimitives := ptr_diff dev_primitives_end dev_primitives_addr in
    (if (culledNumPrimitives <=? 0)%Z then 1%Z else culledNumPrimitives,
     dev_culledPrimitives)
  else (culledNumPrimitives, dev_culledPrimitives).

End Culling.

(** ** rasterize.cu: clearing the buffers of a frame *)

(** The finite float with the bit pattern [bits]; [None] for an infinity or
    a NaN. *)
Definition float_of_bits (bits : Z) : option Q :=
  let sign := Z.testbit bits 31 in
  let e := Z.land (Z.shiftr bits 23) 255 in
  let m := Z.land bits (2 ^ 23 - 1) in
  let mag :=
    if (e =? 0)%Z then Some (inject_Z m * 2 ^ (-149))
    else if (e =? 255)%Z then None
    else Some (inject_Z (2 ^ 23 + m) * 2 ^ (e - 150)) in
  match mag with
  | Some q => Some (if sign then - q else q)
  | None => None
  end.

(** A float all of whose four bytes are [byte], as [cudaMemset] leaves it. *)
Definition memset_float (byte : Z) : option Q :=
  float_of_bits (byte + byte * 2 ^ 8 + byte * 2 ^ 16 + byte * 2 ^ 24).

(** [cudaMemset(buf, byte, n * sizeof(T))] on a buffer of [T], [v] being the
    [T] all of whose bytes are [byte]. *)
Definition memset_buf {A : Type} (v : A) (n : Z) (buf : list A) : list A :=
  replicate (Nat.min (Z.to_nat n) (length buf)) v ++ drop (Z.to_nat n) buf.

Definition zero_vec3 : vec3 := mkvec3 0 0 0.
Definition zero_vec4 : vec4 := mkvec4 0 0 0 0.
Definition zero_fragment : Fragment.t := Fragment.mk zero_vec4 zero_vec3 zero_vec3 0 0%Z.

(** The float [cudaMemset(dev_depthRevealage, 1, ...)] stores: 0x01010101. *)
Definition revealage_cleared : Q := default 0 (memset_float 1).

(** The threads of a launch with [blockCount2d] blocks of 8x8 threads. *)
Definition grid_2d (w h : Z) : list (Z * Z) :=
  let nx := Z.to_nat ((Z.quot (w - 1) 8 + 1) * 8) in
  let ny := Z.to_nat ((Z.quot (h - 1) 8 + 1) * 8) in
  flat_map (fun y => map (fun x => (x, y)) (thread_ids nx)) (thread_ids ny).

(** The thread [(x, y)] of [initDepth]. *)
Definition initDepth (w h : Z) (xy : Z * Z) (depth : list depthv) : option (list depthv) :=
  let '(x, y) := xy in
  if (x <? w)%Z && (y <? h)%Z then
    let index := flat_index x y w in
    wr depth index Infinity
  else Some depth.

(** Lines 1118-1121 of [rasterize]: the three [cudaMemset] and [initDepth]. *)
Definition clear_frame (width height : Z) (b : RasterBuffers) : option RasterBuffers :=
  let fb := memset_buf zero_fragment (width * height) (fragmentBuffer b) in
  let acc := memset_buf zero_vec4 (width * height) (depthAccum b) in
  let rev := memset_buf revealage_cleared (width * height) (depthRevealage b) in
  d ← run_all (initDepth width height) (grid_2d width height) (depths b);
  Some (mkRasterBuffers fb d acc rev).

(** ** rasterize.cu: presenting the image *)

Record uchar4 : Type := mkuchar4 { ux : Z; uy : Z; uz : Z; uw : Z }.

(** A float stored into an [unsigned char]. *)
Definition float_to_uchar (f : Q) : Z := float_to_int f.

(** The thread [(x, y)] of [sendImageToPBO]; the result is [pbo]. *)
Definition sendImageToPBO (w h : Z) (image : list vec4) (xy : Z * Z)
    (pbo : list uchar4) : option (list uchar4) :=
  let '(x, y) := xy in
  let index := flat_index x y w in
  if (x <? w)%Z && (y <? h)%Z then
    px ← rd image index;
    let color := mkvec4 (clamp (x4 px) 0 1 * 255)
                        (clamp (y4 px) 0 1 * 255)
                        (clamp (z4 px) 0 1 * 255)
                        (clamp (z4 px) 0 1 * 255) in
    upd pbo index (fun _ =>
      mkuchar4 (float_to_uchar (x4 color)) (float_to_uchar (y4 color))
               (float_to_uchar (z4 color)) (float_to_uchar (w4 color)))
  else Some pbo.

(** The launch [sendImageToPBO<<<blockCount2d, blockSize2d>>>]. *)
Definition launch_sendImageToPBO (w h : Z) (image : list vec4) (pbo : list uchar4)
  : option (list uchar4) :=
  run_all (sendImageToPBO w h image) (grid_2d w h) pbo.

(** ** The depth test of [_rasterize] with its threads interleaved

    Standard mode (no USE_K_BUFFER, no RENDER_DEPTH_ONLY).  The threads of
    [_rasterize] whose primitives cover one pixel share [depths[index]] and
    [fragmentBuffer[index]]; each step below is one access of a thread to
    these two cells. *)

Inductive frag_pc : Type :=
| PcTest                   (* line 961: [if (depth < depths[index])] *)
| PcMinLoad                (* [float old = *addr; if (old <= value) return old;] *)
| PcMinCAS (old : depthv)  (* [assumed = old; old = atomicCAS(..); while (old != assumed)] *)
| PcWriteNor               (* line 998: [fragmentBuffer[index].eyeNor = ..] *)
| PcWriteMat               (* line 1024: [fragmentBuffer[index].materialId = ..] *)
| PcWriteColor             (* line 1041: [fragmentBuffer[index].color = color] *)
| PcDone.

(** A thread at a pixel: its program point and the values it computed from
    its own primitive. *)
Record frag_thread : Type := mkfrag_thread {
  th_pc : frag_pc;
  th_depth : Q;
  th_nor : vec3;
  th_mat : Z;
  th_color : vec4
}.

(** [depths[index]] and [fragmentBuffer[index]]. *)
Record pixel_cell : Type := mkpixel_cell { px_depth : depthv; px_frag : Fragment.t }.

Definition goto (pc : frag_pc) (t : frag_thread) : frag_thread :=
  mkfrag_thread pc (th_depth t) (th_nor t) (th_mat t) (th_color t).

Definition frag_step (t : frag_thread) (c : pixel_cell) : frag_thread * pixel_cell :=
  match th_pc t with
  | PcTest =>
      if depth_lt (th_depth t) (px_depth c) then (goto PcMinLoad t, c)
      else (goto PcDone t, c)
  | PcMinLoad =>
      let old := px_depth c in
      if depthv_le old (th_depth t) then (goto PcWriteNor t, c)
      else (goto (PcMinCAS old) t, c)
  | PcMinCAS old =>
      let assumed := old in
      let '(addr', old') := atomicCAS (px_depth c) assumed (Finite (th_depth t)) in
      if depthv_eqb old' assumed
      then (goto PcWriteNor t, mkpixel_cell addr' (px_frag c))
      else (goto (PcMinCAS old') t, mkpixel_cell addr' (px_frag c))
  | PcWriteNor =>
      (goto PcWriteMat t, mkpixel_cell (px_depth c) (set_eyeNor (th_nor t) (px_frag c)))
  | PcWriteMat =>
      (goto PcWriteColor t,
       mkpixel_cell (px_depth c) (set_materialId (th_mat t) (px_frag c)))
  | PcWriteColor =>
      (goto PcDone t, mkpixel_cell (px_depth c) (set_color (th_color t) (px_frag c)))
  | PcDone => (t, c)
  end.

(** One thread run alone for [n] steps. *)
Fixpoint frag_run (n : nat) (t : frag_thread) (c : pixel_cell) : frag_thread * pixel_cell :=
  match n with
  | O => (t, c)
  | S n' => let '(t', c') := frag_step t c in frag_run n' t' c'
  end.

(** The threads of a launch at one pixel, stepped in the order of a
    schedule: each entry of the schedule names the thread that moves. *)
Fixpoint run_schedule (sched : list nat) (ths : list frag_thread) (c : pixel_cell)
  : list frag_thread * pixel_cell :=
  match sched with
  | [] => (ths, c)
  | i :: rest =>
      match ths !! i with
      | Some t =>
          let '(t', c') := frag_step t c in
          run_schedule rest (<[i := t']> ths) c'
      | None => run_schedule rest ths c
      end
  end.

Definition is_done (t : frag_thread) : bool :=
  match th_pc t with PcDone => true | _ => false end.

(** The schedule that runs thread [i] from its start to its end without
    interruption: at most six steps. *)
Definition alone (i : nat) : list nat := replicate 6 i.

(** What one thread does to the pixel when no other thread interferes. *)
Definition written_alone (t : frag_thread) (c : pixel_cell) : pixel_cell :=
  if depth_lt (th_depth t) (px_depth c)
  then mkpixel_cell (Finite (th_depth t))
         (set_color (th_color t) (set_materialId (th_mat t) (set_eyeNor (th_nor t) (px_frag c))))
  else c.

(** The thread of [_rasterize] for [primitive] at an accepted pixel [(x, y)],
    about to make the depth test. *)
Definition frag_thread_of (normalize : vec3 -> vec3) (cfg : Config)
    (primitive : Primitive.t) (x y : Z) : option frag_thread :=
  let tri := primitive_tri primitive in
  let bary := calculateBarycentricCoordinate tri (mkvec2 (int_to_float x) (int_to_float y)) in
  if isBarycentricCoordInBounds bary then
    let depth := getPerspectiveCorrectZAtCoordinate bary tri in
    let eyeSpaceNormals := mkarr3 (VertexOut.eyeNor (a0 (Primitive.v primitive)))
                                  (VertexOut.eyeNor (a1 (Primitive.v primitive)))
                                  (VertexOut.eyeNor (a2 (Primitive.v primitive))) in
    color ← fragment_color cfg primitive tri bary depth;
    Some (mkfrag_thread PcTest depth
            (getPerspectiveCorrectNormalAtCoordinate normalize bary tri eyeSpaceNormals depth)
            (VertexOut.materialId (a0 (Primitive.v primitive)))
            color)
  else None.

(** ** rasterize.cu: one mesh part of [rasterizeSetBuffers] *)

(** The record [rasterizeSetBuffers] pushes for a mesh part of mode [mode]
    (lines 551-581 and 737-755): [numIndices] is the count of the index
    accessor, [dev_verticesOut] the freshly allocated output buffer. *)
Definition rasterizeSetBuffers_part
    (mode : gltf_mode) (dev_indices : list VertexIndex)
    (dev_position dev_normal : list vec3) (dev_texcoord0 : list vec2)
    (dev_diffuseTex : option (list TextureData)) (diffuseTexWidth diffuseTexHeight : Z)
    (materialId : Z) (dev_vertexOut : list VertexOut.t)
  : option PrimitiveDevBufPointers.t :=
  let numIndices := Z.of_nat (length dev_indices) in
  let numVertices := Z.of_nat (length dev_vertexOut) in
  info ← primitive_info mode numIndices;
  Some (PrimitiveDevBufPointers.mk mode (fst info) (snd info) numIndices numVertices
          dev_indices dev_position dev_normal dev_texcoord0
          dev_diffuseTex diffuseTexWidth diffuseTexHeight materialId dev_vertexOut).

(** ** Vocabulary of the specification *)

Definition INT_MAX : Z := (2 ^ 31 - 1)%Z.

Definition in01 (q : Q) : Prop := 0 <= q /\ q <= 1.

Definition tri_zmax (tri : arr3 vec3) : Q :=
  Qmax (Qmax (z3 (a0 tri)) (z3 (a1 tri))) (z3 (a2 tri)).



(** The viewport map of the specification, on normalized device coordinates. *)
Definition viewport_x (width : Z) (x_ndc : Q) : Q :=
  (1 # 2) * int_to_float width * (x_ndc + 1).
Definition viewport_y (height : Z) (y_ndc : Q) : Q :=
  (1 # 2) * int_to_float height * (1 - y_ndc).

(** The row-major texel index of the specification:
    [floor(u*W) + floor(v*H)*W]. *)
Definition row_major_texIndex (uv : vec2) (texWidth texHeight : Z) : Z :=
  (Qfloor (x2 uv * int_to_float texWidth)
   + Qfloor (y2 uv * int_to_float texHeight) * texWidth)%Z.

(** The colour of the specification's nearest-neighbour lookup. *)
Definition row_major_color
    (texels : list TextureData) (uv : vec2) (texWidth texHeight : Z) : option vec4 :=
  let texIndex := row_major_texIndex uv texWidth texHeight in
  r ← texel texels (3 * texIndex);
  g ← texel texels (3 * texIndex + 1);
  b ← texel texels (3 * texIndex + 2);
  Some (mkvec4 (r / 255) (g / 255) (b / 255) 1).

(** What the present step stores for a framebuffer pixel, and the cells of
    the surface that hold it. *)
Definition presented (px : vec4) : uchar4 :=
  mkuchar4 (float_to_uchar (clamp (x4 px) 0 1 * 255))
           (float_to_uchar (clamp (y4 px) 0 1 * 255))
           (float_to_uchar (clamp (z4 px) 0 1 * 255))
           (float_to_uchar (clamp (z4 px) 0 1 * 255)).

Definition presented_at (image : list vec4) (pbo : list uchar4) (j : Z) : Prop :=
  exists px, rd image j = Some px /\ rd pbo j = Some (presented px).

(** An update of a scalar cell that adds a contribution of the fragment to
    what the cell held. *)
Definition accumulates (update : Q -> Q) : Prop :=
  exists contribution : Q, forall old : Q, update old == old + contribution.

(** The number of primitives the front-facing predicate keeps. *)
Definition count_front_facing (prims : list Primitive.t) : Z :=
  Z.of_nat (length (List.filter front_facing prims)).

(** ** Concrete inputs *)

Definition vertex_at (x y z : Q) : VertexOut.t :=
  VertexOut.mk (mkvec4 x y z 1) (mkvec3 0 0 (-1)) (mkvec3 0 0 1) (mkvec4 1 1 1 1)
               (mkvec2 0 0) None 0 0 (-1).

(** A vertex of a textured primitive with texture coordinate [uv]. *)
Definition textured_vertex_at (x y z : Q) (uv : vec2) (texels : list TextureData)
    (texWidth texHeight : Z) : VertexOut.t :=
  VertexOut.mk (mkvec4 x y z 1) (mkvec3 0 0 (-1)) (mkvec3 0 0 1) (mkvec4 1 1 1 1)
               uv (Some texels) texWidth texHeight 0.


Definition corner_primitive (z : Q) : Primitive.t :=
  Primitive.mk Triangle (mkarr3 (vertex_at 0 0 z) (vertex_at 8 0 z) (vertex_at 0 8 z)).

(** The same triangle carrying a one-texel texture of colour [rgb]. *)
Definition texel_primitive (z : Q) (rgb : list TextureData) : Primitive.t :=
  Primitive.mk Triangle
    (mkarr3 (textured_vertex_at 0 0 z (mkvec2 0 0) rgb 1 1)
            (textured_vertex_at 8 0 z (mkvec2 0 0) rgb 1 1)
            (textured_vertex_at 0 8 z (mkvec2 0 0) rgb 1 1)).

(** Buffers of a [width] x [height] image as [rasterizeInit] allocates and
    [clear_frame] leaves them. *)
Definition cleared_buffers (width height : Z) : RasterBuffers :=
  let n := Z.to_nat (width * height) in
  mkRasterBuffers (replicate n zero_fragment) (replicate n Infinity)
                  (replicate n zero_vec4) (replicate n revealage_cleared).

(** Vertex depths of mixed sign, and a coordinate strictly inside. *)
Definition mixed_sign_tri : arr3 vec3 := mkarr3 (mkvec3 0 0 1) (mkvec3 8 0 (-1)) (mkvec3 0 8 1).
Definition inner_bary : vec3 := mkvec3 (1 # 2) (1 # 4) (1 # 4).

(** Vertex depths 1, 2 and 4. *)
Definition rising_tri : arr3 vec3 := mkarr3 (mkvec3 0 0 1) (mkvec3 8 0 2) (mkvec3 0 8 4).

(** A texture 2 texels wide and 4 texels high; texel [k] holds the bytes
    [(10k, 10k+1, 10k+2)]. *)
Definition tall_texels : list TextureData :=
  [0; 1; 2; 10; 11; 12; 20; 21; 22; 30; 31; 32;
   40; 41; 42; 50; 51; 52; 60; 61; 62; 70; 71; 72]%Z.
Definition quarter_uv : vec2 := mkvec2 0 (1 # 4).
Definition tall_primitive : Primitive.t :=
  Primitive.mk Triangle
    (mkarr3 (textured_vertex_at 0 0 1 quarter_uv tall_texels 2 4)
            (textured_vertex_at 8 0 1 quarter_uv tall_texels 2 4)
            (textured_vertex_at 0 8 1 quarter_uv tall_texels 2 4)).

(** A red triangle at depth 1/4 and a blue one at depth 1/2 over the same
    pixels.  In [race_schedule] both threads make the depth test (the blue
    one first) before either lowers the depth; the red thread then runs to
    its end, and the blue one after it. *)
Definition red_near : Primitive.t := texel_primitive (1 # 4) [255; 0; 0]%Z.
Definition blue_far : Primitive.t := texel_primitive (1 # 2) [0; 0; 255]%Z.
Definition cleared_cell : pixel_cell := mkpixel_cell Infinity zero_fragment.
Definition race_schedule : list nat := [1; 0; 0; 0; 0; 0; 0; 1; 1; 1; 1]%nat.

(** A black one-texel texture, whose fragments have alpha 1/10. *)
Definition black_primitive : Primitive.t := texel_primitive 1 [0; 0; 0]%Z.
Definition kbuffer_config : Config := mkConfig false false false true.
Definition culling_config : Config := mkConfig false false true false.

(** The revealage of pixel 0 after the fragment of [black_primitive] at pixel
    (0,0) of a one-pixel image whose revealage was [old]. *)
Definition revealage_after (old : Q) : Q :=
  match pixel_body (fun v => v) kbuffer_config black_primitive (primitive_tri black_primitive)
          1 (0%Z, 0%Z) (mkRasterBuffers [zero_fragment] [Infinity] [zero_vec4] [old]) with
  | Some b => default 0 (rd (depthRevealage b) 0)
  | None => 0
  end.

(** A framebuffer pixel with red 1/2, green 2, blue -1 and alpha 1/4. *)
Definition half_lit_pixel : vec4 := mkvec4 (1 # 2) 2 (-1) (1 # 4).

(** A mesh part with one vertex. *)
Definition one_vertex_part : PrimitiveDevBufPointers.t :=
  PrimitiveDevBufPointers.mk MODE_TRIANGLES Triangle 0 0 1
    [] [mkvec3 (1 # 2) (- (1 # 2)) (1 # 4)] [mkvec3 0 0 1] [] None 0 0 (-1)
    [vertex_at 0 0 0].

(** A triangle strip of four indices over four vertices. *)
Definition strip_indices : list VertexIndex := [0; 1; 2; 3]%Z.
Definition quad_vertices : list VertexOut.t :=
  [vertex_at 0 0 1; vertex_at 8 0 1; vertex_at 0 8 1; vertex_at 8 8 1].

(** ** Further vocabulary: geometry *)

(** The triangle with its second and third corner exchanged (the other
    winding). *)
Definition arr3_swap12 {A : Type} (a : arr3 A) : arr3 A := mkarr3 (a0 a) (a2 a) (a1 a).

Definition vec3_eq (a b : vec3) : Prop := x3 a == x3 b /\ y3 a == y3 b /\ z3 a == z3 b.
Definition vec4_eq (a b : vec4) : Prop :=
  x4 a == x4 b /\ y4 a == y4 b /\ z4 a == z4 b /\ w4 a == w4 b.

(** The screen position of a corner, as the point the rasterizer tests. *)
Definition corner_point (v : vec3) : vec2 := mkvec2 (x3 v) (y3 v).

(** A float lies between two bounds. *)
Definition within (lo hi q : Q) : Prop := lo <= q /\ q <= hi.


(** ** Further vocabulary: the rasterizer's buffers *)

(** A stored depth strictly below another. *)
Definition depthv_lt (a b : depthv) : Prop :=
  match a, b with
  | Finite x, Finite y => x < y
  | Finite _, Infinity => True
  | Infinity, _ => False
  end.

(** All four per-pixel buffers keep their length. *)
Definition same_lengths (b b' : RasterBuffers) : Prop :=
  length (fragmentBuffer b') = length (fragmentBuffer b)
  /\ length (depths b') = length (depths b)
  /\ length (depthAccum b') = length (depthAccum b)
  /\ length (depthRevealage b') = length (depthRevealage b).

(** What the depth test allows between two states of the buffers: a cell
    keeps its depth and its fragment, or its depth is strictly lowered. *)
Definition depth_tested (b b' : RasterBuffers) : Prop :=
  same_lengths b b'
  /\ depthAccum b' = depthAccum b
  /\ depthRevealage b' = depthRevealage b
  /\ forall j : nat,
       (depths b' !! j = depths b !! j /\ fragmentBuffer b' !! j = fragmentBuffer b !! j)
       \/ (exists d d', depths b !! j = Some d /\ depths b' !! j = Some d'
                        /\ depthv_lt d' d).

(** The eye-space positions held by a fragment buffer. *)
Definition eyePos_of (fb : list Fragment.t) : list vec3 := Fragment.eyePos <$> fb.

(** ** Further vocabulary: winding and culling *)

(** The primitive with its second and third vertex exchanged. *)
Definition primitive_swap12 (p : Primitive.t) : Primitive.t :=
  Primitive.mk (Primitive.primitiveType p) (arr3_swap12 (Primitive.v p)).

(** The number [shouldBackfaceCull] compares with 0: the face normal of the
    primitive against the direction from its first vertex to the eye. *)
Definition facing (p : Primitive.t) : Q :=
  let edge1 := vec4_sub (VertexOut.pos (a0 (Primitive.v p)))
                        (VertexOut.pos (a1 (Primitive.v p))) in
  let edge2 := vec4_sub (VertexOut.pos (a1 (Primitive.v p)))
                        (VertexOut.pos (a2 (Primitive.v p))) in
  dot3 (cross (vec3_of_vec4 edge1) (vec3_of_vec4 edge2))
       (vec3_neg (VertexOut.eyePos (a0 (Primitive.v p)))).

(** A vertex at a screen position seen from eye-space position [eye]. *)
Definition eye_vertex_at (x y z : Q) (eye : vec3) : VertexOut.t :=
  VertexOut.mk (mkvec4 x y z 1) eye zero_vec3 (mkvec4 1 1 1 1) (mkvec2 0 0) None 0 0 0.

(** A triangle in front of the eye, all three vertices at eye depth -1. *)
Definition facing_primitive : Primitive.t :=
  Primitive.mk Triangle
    (mkarr3 (eye_vertex_at 0 0 1 (mkvec3 0 0 (-1)))
            (eye_vertex_at 8 0 1 (mkvec3 1 0 (-1)))
            (eye_vertex_at 0 8 1 (mkvec3 0 1 (-1)))).

(** ** Further vocabulary: the vertex stage and primitive assembly *)

(** [a[i]] as an rvalue on a three-element array. *)
Definition arr3_get {A : Type} (a : arr3 A) (i : Z) : option A :=
  match i with
  | 0%Z => Some (a0 a)
  | 1%Z => Some (a1 a)
  | 2%Z => Some (a2 a)
  | _ => None
  end.

(** [primitive.dev_verticesOut[primitive.dev_indices[iid]]] *)
Definition gathered (p : PrimitiveDevBufPointers.t) (iid : Z) : option VertexOut.t :=
  idx ← rd (PrimitiveDevBufPointers.dev_indices p) iid;
  rd (PrimitiveDevBufPointers.dev_verticesOut p) idx.

(** Index [iid] of a mesh part is assembled in [prims]: the slot and the
    component [_primitiveAssembly] computes for it hold the vertex the index
    refers to. *)
Definition assembled_at (begin : Z) (p : PrimitiveDevBufPointers.t)
    (prims : list Primitive.t) (iid : Z) : Prop :=
  let ty := PrimitiveType_int (PrimitiveDevBufPointers.primitiveType p) in
  exists slot vo,
    rd prims (Z.quot iid ty + begin) = Some slot
    /\ gathered p iid = Some vo
    /\ arr3_get (Primitive.v slot) (Z.rem iid ty) = Some vo.

(** What the launch of primitive assembly for a part leaves alone: the
    length of [dev_primitives], the type tag of every slot, and every slot
    that no index of the part is assigned to. *)
Definition assembly_frame (begin : Z) (p : PrimitiveDevBufPointers.t)
    (prims prims' : list Primitive.t) : Prop :=
  let ty := PrimitiveType_int (PrimitiveDevBufPointers.primitiveType p) in
  length prims' = length prims
  /\ forall j : Z,
       (Primitive.primitiveType <$> rd prims' j) = (Primitive.primitiveType <$> rd prims j)
       /\ ((forall iid, (0 <= iid < PrimitiveDevBufPointers.numIndices p)%Z ->
                        j <> (Z.quot iid ty + begin)%Z) ->
           rd prims' j = rd prims j).

(** The launch [_vertexTransformAndAssembly<<<numBlocksForVertices, 128>>>]
    of [rasterize], its threads run one after the other; the result is the
    buffer [p->dev_verticesOut]. *)
Definition launch_vertexTransformAndAssembly (normalize : vec3 -> vec3)
    (p : PrimitiveDevBufPointers.t) (MVP MV : mat4) (MV_normal : mat3)
    (width height : Z) : option (list VertexOut.t) :=
  run_all
    (_vertexTransformAndAssembly normalize (PrimitiveDevBufPointers.numVertices p) p
       MVP MV MV_normal width height)
    (thread_ids (launch_size_1d (PrimitiveDevBufPointers.numVertices p)))
    (PrimitiveDevBufPointers.dev_verticesOut p).

(** The texture fields of an output vertex. *)
Definition texture_fields (v : VertexOut.t)
  : vec2 * option (list TextureData) * Z * Z :=
  (VertexOut.texcoord0 v, VertexOut.dev_diffuseTex v,
   VertexOut.texWidth v, VertexOut.texHeight v).

(** What thread [vid] of [_vertexTransformAndAssembly] makes of the output
    vertex [o]: the vertex [v]. *)
Definition vertex_written (normalize : vec3 -> vec3) (p : PrimitiveDevBufPointers.t)
    (MVP MV : mat4) (MV_normal : mat3) (width height : Z) (vid : Z)
    (o v : VertexOut.t) : Prop :=
  exists position normal,
    rd (PrimitiveDevBufPointers.dev_position p) vid = Some position
    /\ rd (PrimitiveDevBufPointers.dev_normal p) vid = Some normal
    /\ VertexOut.pos v = viewport_position MVP position width height
    /\ VertexOut.eyePos v
       = vec3_of_vec4 (vec4_div (mat4_mul_vec4 MV (vec4_of_vec3 position 1))
                                (w4 (mat4_mul_vec4 MV (vec4_of_vec3 position 1))))
    /\ VertexOut.eyeNor v = normalize (mat3_mul_vec3 MV_normal normal)
    /\ VertexOut.color v = mkvec4 1 1 1 1
    /\ VertexOut.materialId v = PrimitiveDevBufPointers.materialId p
    /\ match PrimitiveDevBufPointers.dev_diffuseTex p with
       | Some tex =>
           exists uv, rd (PrimitiveDevBufPointers.dev_texcoord0 p) vid = Some uv
             /\ texture_fields v
                = (uv, Some tex, PrimitiveDevBufPointers.diffuseTexWidth p,
                   PrimitiveDevBufPointers.diffuseTexHeight p)
       | None => texture_fields v = texture_fields o
       end.

(** A mesh part of mode TRIANGLES with three indices over the vertices of a
    quad. *)
Definition triangle_part : PrimitiveDevBufPointers.t :=
  PrimitiveDevBufPointers.mk MODE_TRIANGLES Triangle 1 3 4
    [0; 1; 2]%Z [] [] [] None 0 0 (-1) quad_vertices.

(** A mesh part of mode TRIANGLES with four indices over the four vertices
    of a quad: one whole triangle and one index left over. *)
Definition four_index_part : PrimitiveDevBufPointers.t :=
  PrimitiveDevBufPointers.mk MODE_TRIANGLES Triangle 1 4 4
    strip_indices [] [] [] None 0 0 (-1) quad_vertices.

(** A mesh part of two vertices without texture, its output buffer holding
    what an earlier textured part left there. *)
Definition untextured_part : PrimitiveDevBufPointers.t :=
  PrimitiveDevBufPointers.mk MODE_TRIANGLES Triangle 0 0 2
    [] [mkvec3 (1 # 2) (- (1 # 2)) (1 # 4); mkvec3 0 0 (1 # 2)]
    [mkvec3 0 0 1; mkvec3 0 1 0] [] None 0 0 7
    [textured_vertex_at 0 0 0 (mkvec2 1 1) [255; 0; 0]%Z 1 1; vertex_at 0 0 0].

(** ** Further vocabulary: textures *)

(** Every texel channel is an [unsigned char]. *)
Definition texture_bytes (texels : list TextureData) : Prop :=
  Forall (fun t => (0 <= t <= 255)%Z) texels.

(** The three colour channels lie in [0,1]. *)
Definition rgb_in_unit (c : vec4) : Prop :=
  within 0 1 (x4 c) /\ within 0 1 (y4 c) /\ within 0 1 (z4 c).

(** A texture of 2 x 2 texels. *)
Definition checker_texels : list TextureData :=
  [0; 0; 0; 255; 255; 255; 255; 255; 255; 0; 0; 0]%Z.

(** ** rasterize.cu: [_deviceBufferCopy] *)

Definition BufferByte : Type := Z.

(** The body of the loop over [j] in thread [i], with the thread's [count]
    and [offset]: one byte copied. *)
Definition copy_byte (dev_src : list BufferByte)
    (n byteStride byteOffset componentTypeByteSize count offset : Z)
    (j : Z) (dev_dst : list BufferByte) : option (list BufferByte) :=
  b ← rd dev_src
         (byteOffset
          + count * (if (byteStride =? 0)%Z then componentTypeByteSize * n else byteStride)
          + offset * componentTypeByteSize + j)%Z;
  wr dev_dst (count * componentTypeByteSize * n + offset * componentTypeByteSize + j)%Z b.

(** The thread [i] of [_deviceBufferCopy]; the result is [dev_dst].  The
    loop runs for [j = 0 .. componentTypeByteSize - 1]. *)
Definition _deviceBufferCopy (N : Z) (dev_src : list BufferByte)
    (n byteStride byteOffset componentTypeByteSize : Z)
    (i : Z) (dev_dst : list BufferByte) : option (list BufferByte) :=
  if (i <? N)%Z then
    let count := Z.quot i n in
    let offset := (i - count * n)%Z in
    run_all (copy_byte dev_src n byteStride byteOffset componentTypeByteSize count offset)
            (thread_ids (Z.to_nat componentTypeByteSize)) dev_dst
  else Some dev_dst.

(** The launch [_deviceBufferCopy<<<numBlocks, 128>>>] of
    [rasterizeSetBuffers] for [N] components. *)
Definition launch_deviceBufferCopy (N : Z) (dev_src : list BufferByte)
    (n byteStride byteOffset componentTypeByteSize : Z)
    (dev_dst : list BufferByte) : option (list BufferByte) :=
  run_all (_deviceBufferCopy N dev_src n byteStride byteOffset componentTypeByteSize)
          (thread_ids (launch_size_1d N)) dev_dst.

(** The byte of the buffer view that belongs to byte [j] of component [i]:
    attribute [i / n] starts [byteStride] bytes after the one before it, or
    directly behind it when [byteStride] is 0. *)
Definition copy_source (n byteStride byteOffset componentTypeByteSize i j : Z) : Z :=
  (byteOffset
   + Z.quot i n * (if (byteStride =? 0)%Z then componentTypeByteSize * n else byteStride)
   + (i - Z.quot i n * n) * componentTypeByteSize + j)%Z.

(** An interleaved buffer view: two-byte components every four bytes, from
    byte 1 on. *)
Definition interleaved_view : list BufferByte := [10; 11; 12; 13; 14; 15; 16; 17]%Z.

(** ** rasterize.cu: the fragment shader [render] *)

Module Material.
Record t : Type := mk {
    diffuse : vec4;
    ambient : vec4;
    emission : vec4;
    specular : vec4;
    shininess : Q;
    transparency : Q
}.
End Material.

(** The switches of [render] that [Config] does not hold.  The kernel is
    modelled with SHARED_MEMORY_MATERIALS undefined, as committed: materials
    are read from the table in global memory. *)
Record RenderConfig : Type := mkRenderConfig {
  RENDER_NORMAL_ONLY : bool;
  NOT_USE_TEXTURE : bool
}.

Definition vec4_mul (a b : vec4) : vec4 :=
  mkvec4 (x4 a * x4 b) (y4 a * y4 b) (z4 a * z4 b) (w4 a * w4 b).
Definition vec3_sub (a b : vec3) : vec3 :=
  mkvec3 (x3 a - x3 b) (y3 a - y3 b) (z3 a - z3 b).
Definition vec3_abs (a : vec3) : vec3 := mkvec3 (Qabs (x3 a)) (Qabs (y3 a)) (Qabs (z3 a)).
Definition vec4_eqb (a b : vec4) : bool :=
  Qeq_bool (x4 a) (x4 b) && Qeq_bool (y4 a) (y4 b)
  && Qeq_bool (z4 a) (z4 b) && Qeq_bool (w4 a) (w4 b).

(** Lines 260-261: what the k-buffer stores in the framebuffer, from the
    accumulator and the revealage of the pixel. *)
Definition kbuffer_composite (accum : vec4) (revealage : Q) : vec4 :=
  vec4_div
    (vec4_of_vec3 (vec3_div (vec3_of_vec4 accum) (Qmax (w4 accum) (1 # 10000)))
                  (1 - revealage))
    50.

Section Render.

(** [glm::normalize] and [glm::pow] lie outside the rationals: parameters. *)
Variable normalize : vec3 -> vec3.
Variable pow : Q -> Q -> Q.
Variable cfg : Config.
Variable rcfg : RenderConfig.

(** Lines 206-255: the Blinn-Phong colour of a fragment with a material. *)
Definition shade (f : Fragment.t) (materials : list Material.t) : option vec4 :=
  let materialId := Fragment.materialId f in
  let lightDirection :=
    normalize (vec3_sub (mkvec3 (-3) 5 5) (Fragment.eyePos f)) in
  let lambertian := clamp (dot3 (Fragment.eyeNor f) lightDirection) 0 1 in
  specular ← (if Qltb 0 lambertian then
                let viewDirection := normalize (vec3_neg (Fragment.eyePos f)) in
                let halfDir := normalize (vec3_add lightDirection viewDirection) in
                let specAngle := clamp (dot3 halfDir (Fragment.eyeNor f)) 0 1 in
                m ← rd materials materialId;
                Some (pow specAngle (Material.shininess m))
              else Some 0);
  diffuse ← (if NOT_USE_TEXTURE rcfg then
               m ← rd materials materialId;
               Some (if vec4_eqb (Material.diffuse m) (mkvec4 0 0 0 1)
                     then mkvec4 1 1 1 1 else Material.diffuse m)
             else Some (Fragment.color f));
  ma ← rd materials materialId;
  ms ← rd materials materialId;
  Some (vec4_add (vec4_add (vec4_mul (Material.ambient ma) diffuse)
                           (vec4_scale diffuse lambertian))
                 (vec4_scale (Material.specular ms) specular)).

(** The thread [(x, y)] of [render]; the result is [framebuffer]. *)
Definition render (w h : Z) (fragmentBuffer : list Fragment.t)
    (depthAccum : list vec4) (depthRevealage : list Q) (materials : list Material.t)
    (xy : Z * Z) (framebuffer : list vec4) : option (list vec4) :=
  let '(x, y) := xy in
  let index := flat_index x y w in
  if (x <? w)%Z && (y <? h)%Z then
    if RENDER_DEPTH_ONLY cfg then
      f ← rd fragmentBuffer index;
      wr framebuffer index
         (mkvec4 (Fragment.depth f) (Fragment.depth f) (Fragment.depth f) 1)
    else if RENDER_NORMAL_ONLY rcfg then
      f ← rd fragmentBuffer index;
      wr framebuffer index (vec4_of_vec3 (vec3_abs (Fragment.eyeNor f)) 1)
    else
      f ← rd fragmentBuffer index;
      framebuffer ← (if negb (Fragment.materialId f =? -1)%Z then
                       c ← shade f materials; wr framebuffer index c
                     else wr framebuffer index (Fragment.color f));
      if USE_K_BUFFER cfg then
        a ← rd depthAccum index;
        r ← rd depthRevealage index;
        wr framebuffer index (kbuffer_composite a r)
      else Some framebuffer
  else Some framebuffer.

(** The launch [render<<<blockCount2d, blockSize2d>>>] of [rasterize]. *)
Definition launch_render (w h : Z) (fragmentBuffer : list Fragment.t)
    (depthAccum : list vec4) (depthRevealage : list Q) (materials : list Material.t)
    (framebuffer : list vec4) : option (list vec4) :=
  run_all (render w h fragmentBuffer depthAccum depthRevealage materials)
          (grid_2d w h) framebuffer.

(** The colour the thread of pixel [index] leaves in the framebuffer. *)
Definition render_value (fragmentBuffer : list Fragment.t)
    (depthAccum : list vec4) (depthRevealage : list Q) (materials : list Material.t)
    (index : Z) : option vec4 :=
  f ← rd fragmentBuffer index;
  if RENDER_DEPTH_ONLY cfg then
    Some (mkvec4 (Fragment.depth f) (Fragment.depth f) (Fragment.depth f) 1)
  else if RENDER_NORMAL_ONLY rcfg then
    Some (vec4_of_vec3 (vec3_abs (Fragment.eyeNor f)) 1)
  else
    c ← (if negb (Fragment.materialId f =? -1)%Z then shade f materials
         else Some (Fragment.color f));
    if USE_K_BUFFER cfg then
      a ← rd depthAccum index;
      r ← rd depthRevealage index;
      Some (kbuffer_composite a r)
    else Some c.

End Render.

(** The switches of [render] as committed. *)
Definition default_render_config : RenderConfig := mkRenderConfig false false.

(** A material table with one grey material. *)
Definition grey_material : Material.t :=
  Material.mk (mkvec4 (1 # 2) (1 # 2) (1 # 2) 1) (mkvec4 (1 # 10) (1 # 10) (1 # 10) 1)
             zero_vec4 (mkvec4 1 1 1 1) 8 1.

(** A fragment of a primitive without material. *)
Definition unlit_fragment : Fragment.t :=
  Fragment.mk (mkvec4 1 0 0 1) zero_vec3 (mkvec3 0 0 1) 0 (-1).

(** ** Further vocabulary: the presented surface and the frame *)

(** The four channels of a texel of the surface are bytes. *)
Definition uchar4_bytes (u : uchar4) : Prop :=
  (0 <= ux u <= 255)%Z /\ (0 <= uy u <= 255)%Z
  /\ (0 <= uz u <= 255)%Z /\ (0 <= uw u <= 255)%Z.

(** ** rasterize.cu: [_nodeMatrixTransform] *)

(** The thread [vid] of [_nodeMatrixTransform]; the result is the pair of the
    buffers [position] and [normal], both updated in place. *)
Definition _nodeMatrixTransform (normalize : vec3 -> vec3) (numVertices : Z)
    (MV : mat4) (MV_normal : mat3) (vid : Z) (buffers : list vec3 * list vec3)
  : option (list vec3 * list vec3) :=
  let '(position, normal) := buffers in
  if (vid <? numVertices)%Z then
    position ← upd position vid
                 (fun p => vec3_of_vec4 (mat4_mul_vec4 MV (vec4_of_vec3 p 1)));
    normal ← upd normal vid (fun n => normalize (mat3_mul_vec3 MV_normal n));
    Some (position, normal)
  else Some buffers.

(** The launch [_nodeMatrixTransform<<<numBlocksNodeTransform, 128>>>] of
    [rasterizeSetBuffers]. *)
Definition launch_nodeMatrixTransform (normalize : vec3 -> vec3) (numVertices : Z)
    (MV : mat4) (MV_normal : mat3) (position normal : list vec3)
  : option (list vec3 * list vec3) :=
  run_all (_nodeMatrixTransform normalize numVertices MV MV_normal)
          (thread_ids (launch_size_1d numVertices)) (position, normal).

(** ** rasterize.cu: the vertex stage and the assembly of one mesh part *)

(** The mesh part with the content of its output buffer replaced: the
    buffer [p->dev_verticesOut] after a kernel has written it. *)
Definition with_verticesOut (p : PrimitiveDevBufPointers.t) (out : list VertexOut.t)
  : PrimitiveDevBufPointers.t :=
  PrimitiveDevBufPointers.mk
    (PrimitiveDevBufPointers.primitiveMode p) (PrimitiveDevBufPointers.primitiveType p)
    (PrimitiveDevBufPointers.numPrimitives p) (PrimitiveDevBufPointers.numIndices p)
    (PrimitiveDevBufPointers.numVertices p) (PrimitiveDevBufPointers.dev_indices p)
    (PrimitiveDevBufPointers.dev_position p) (PrimitiveDevBufPointers.dev_normal p)
    (PrimitiveDevBufPointers.dev_texcoord0 p) (PrimitiveDevBufPointers.dev_diffuseTex p)
    (PrimitiveDevBufPointers.diffuseTexWidth p) (PrimitiveDevBufPointers.diffuseTexHeight p)
    (PrimitiveDevBufPointers.materialId p) out.

(** Lines 1087-1098 of [rasterize]: the two launches for one mesh part; the
    result is the part's output buffer and [dev_primitives]. *)
Definition vertex_and_assembly (normalize : vec3 -> vec3) (MVP MV : mat4)
    (MV_normal : mat3) (width height curPrimitiveBeginId : Z)
    (p : PrimitiveDevBufPointers.t) (dev_primitives : list Primitive.t)
  : option (list VertexOut.t * list Primitive.t) :=
  out ← launch_vertexTransformAndAssembly normalize p MVP MV MV_normal width height;
  dev_primitives ← launch_primitiveAssembly curPrimitiveBeginId (with_verticesOut p out)
                     dev_primitives;
  Some (out, dev_primitives).

(** A mesh part of whole triangles, as [rasterizeSetBuffers] records it for
    mode TRIANGLES when the number of indices is a multiple of 3, every index
    referring to a vertex of the part's output buffer. *)
Definition whole_triangles (p : PrimitiveDevBufPointers.t) : Prop :=
  PrimitiveDevBufPointers.primitiveMode p = MODE_TRIANGLES
  /\ PrimitiveDevBufPointers.primitiveType p = Triangle
  /\ (0 <= PrimitiveDevBufPointers.numPrimitives p)%Z
  /\ PrimitiveDevBufPointers.numIndices p = (3 * PrimitiveDevBufPointers.numPrimitives p)%Z
  /\ forall iid, (0 <= iid < PrimitiveDevBufPointers.numIndices p)%Z ->
                 is_Some (gathered p iid).

(** A mesh part of one triangle with its three input vertices. *)
Definition input_triangle_part : PrimitiveDevBufPointers.t :=
  PrimitiveDevBufPointers.mk MODE_TRIANGLES Triangle 1 3 3
    [2; 0; 1]%Z
    [mkvec3 (-1) (-1) (1 # 2); mkvec3 1 (-1) (1 # 2); mkvec3 (-1) 1 (1 # 2)]
    [mkvec3 0 0 1; mkvec3 0 0 1; mkvec3 0 0 1] [] None 0 0 3
    [vertex_at 0 0 0; vertex_at 0 0 0; vertex_at 0 0 0].

(** A translation by (1, 2, 3). *)
Definition translation_matrix : mat4 :=
  mkmat4 (mkvec4 1 0 0 0) (mkvec4 0 1 0 0) (mkvec4 0 0 1 0) (mkvec4 1 2 3 1).
Definition mat3_identity : mat3 := mkmat3 (mkvec3 1 0 0) (mkvec3 0 1 0) (mkvec3 0 0 1).

(** * Properties *)

(** ** Comparisons and buffers *)

Lemma Qleb_iff a b : Qleb a b = true <-> a <= b.
Proof. apply Qle_bool_iff. Qed.

Lemma Qltb_iff a b : Qltb a b = true <-> a < b.
Proof.
  unfold Qltb. rewrite negb_true_iff, <- not_true_iff_false, Qle_bool_iff.
  split; [apply Qnot_le_lt | apply Qlt_not_le].
Qed.

Lemma isBarycentricCoordInBounds_iff (b : vec3) :
  isBarycentricCoordInBounds b = true <-> in01 (x3 b) /\ in01 (y3 b) /\ in01 (z3 b).
Proof.
  unfold isBarycentricCoordInBounds, in01.
  rewrite !andb_true_iff, !Qleb_iff. tauto.
Qed.

Section RD.
Context {A : Type}.
Implicit Types (buf : list A) (i : Z).

Lemma rd_Some_bounds buf i a : rd buf i = Some a -> (0 <= i < Z.of_nat (length buf))%Z.
Proof.
  unfold rd. destruct (Z.ltb_spec i 0) as [Hlt0|Hge0]; [discriminate|].
  intros H%lookup_lt_Some. lia.
Qed.

Lemma rd_in_bounds buf i : (0 <= i < Z.of_nat (length buf))%Z -> exists a, rd buf i = Some a.
Proof.
  intros [H0 H1]. unfold rd. destruct (Z.ltb_spec i 0) as [Hlt0|Hge0]; [lia|].
  destruct (lookup_lt_is_Some_2 buf (Z.to_nat i)) as [a Ha]; [lia|]. eauto.
Qed.

Lemma rd_None_out buf i : (i < 0 \/ Z.of_nat (length buf) <= i)%Z -> rd buf i = None.
Proof.
  intros H. unfold rd. destruct (Z.ltb_spec i 0) as [Hlt0|Hge0]; [reflexivity|].
  apply lookup_ge_None. lia.
Qed.

Lemma wr_Some buf i v : (0 <= i < Z.of_nat (length buf))%Z ->
  wr buf i v = Some (<[Z.to_nat i := v]> buf).
Proof.
  intros [H0 H1]. unfold wr. destruct (Z.ltb_spec i 0) as [Hlt0|Hge0]; [lia|].
  destruct (Z.ltb_spec i (Z.of_nat (length buf))) as [Hlen|Hlen]; [reflexivity|lia].
Qed.

Lemma wr_inv buf i v buf' : wr buf i v = Some buf' ->
  (0 <= i < Z.of_nat (length buf))%Z /\ buf' = <[Z.to_nat i := v]> buf.
Proof.
  unfold wr. destruct (Z.ltb_spec i 0) as [Hlt0|Hge0]; [discriminate|].
  destruct (Z.ltb_spec i (Z.of_nat (length buf))) as [Hlen|Hlen]; [|discriminate].
  intros [= <-]. split; [lia|reflexivity].
Qed.

Lemma upd_inv buf i f buf' : upd buf i f = Some buf' ->
  exists a, rd buf i = Some a /\ buf' = <[Z.to_nat i := f a]> buf.
Proof.
  unfold upd. destruct (rd buf i) as [a|] eqn:E; [|discriminate].
  intros H%wr_inv. exists a. tauto.
Qed.

Lemma upd_Some buf i f a : rd buf i = Some a ->
  upd buf i f = Some (<[Z.to_nat i := f a]> buf).
Proof.
  intros H. unfold upd. rewrite H. apply wr_Some. eapply rd_Some_bounds; eauto.
Qed.

Lemma rd_insert_eq buf i v : (0 <= i < Z.of_nat (length buf))%Z ->
  rd (<[Z.to_nat i := v]> buf) i = Some v.
Proof.
  intros [H0 H1]. unfold rd. destruct (Z.ltb_spec i 0) as [Hlt0|Hge0]; [lia|].
  apply list_lookup_insert_eq. lia.
Qed.

Lemma rd_insert_ne buf i j v : (0 <= i)%Z -> (0 <= j)%Z -> i <> j ->
  rd (<[Z.to_nat i := v]> buf) j = rd buf j.
Proof.
  intros H0 H1 H2. unfold rd. destruct (Z.ltb_spec j 0) as [Hlt0|Hge0]; [reflexivity|].
  apply list_lookup_insert_ne. lia.
Qed.
End RD.

(** ** The point-in-triangle test (C6) *)



(** ** Perspective-correct depth (C2) *)

Lemma Qmin3_le a b c m : m <= a -> m <= b -> m <= c -> m <= Qmin (Qmin a b) c.
Proof. intros. apply Q.min_glb; [apply Q.min_glb|]; assumption. Qed.

Lemma Qmin3_l a b c : Qmin (Qmin a b) c <= a /\ Qmin (Qmin a b) c <= b /\ Qmin (Qmin a b) c <= c.
Proof.
  pose proof (Q.le_min_l (Qmin a b) c). pose proof (Q.le_min_r (Qmin a b) c).
  pose proof (Q.le_min_l a b). pose proof (Q.le_min_r a b).
  repeat split; lra.
Qed.

Lemma Qmax3_u a b c : a <= Qmax (Qmax a b) c /\ b <= Qmax (Qmax a b) c /\ c <= Qmax (Qmax a b) c.
Proof.
  pose proof (Q.le_max_l (Qmax a b) c). pose proof (Q.le_max_r (Qmax a b) c).
  pose proof (Q.le_max_l a b). pose proof (Q.le_max_r a b).
  repeat split; lra.
Qed.






Example mixed_sign_depth :
  getPerspectiveCorrectZAtCoordinate inner_bary mixed_sign_tri == 2
  /\ tri_zmax mixed_sign_tri == 1.
Proof. split; vm_compute; reflexivity. Qed.


(** ** The vertex stage (C5) *)

Lemma viewport_position_spec (MVP : mat4) (p : vec3) (width height : Z) :
  let clip := mat4_mul_vec4 MVP (vec4_of_vec3 p 1) in
  x4 (viewport_position MVP p width height) = viewport_x width (x4 clip / w4 clip)
  /\ y4 (viewport_position MVP p width height) = viewport_y height (y4 clip / w4 clip).
Proof. split; reflexivity. Qed.

Lemma viewport_position_identity (p : vec3) (width height : Z) :
  x4 (viewport_position mat4_identity p width height) == viewport_x width (x3 p)
  /\ y4 (viewport_position mat4_identity p width height) == viewport_y height (y3 p).
Proof.
  unfold viewport_position, viewport_x, viewport_y; simpl. split; field.
Qed.

Lemma vertex_thread_pos (normalize : vec3 -> vec3)
    (numVertices : Z) (primitive : PrimitiveDevBufPointers.t)
    (MVP MV : mat4) (MV_normal : mat3) (width height vid : Z)
    (buf out : list VertexOut.t) :
  (vid < numVertices)%Z ->
  _vertexTransformAndAssembly normalize numVertices primitive MVP MV MV_normal
    width height vid buf = Some out ->
  exists p v, rd (PrimitiveDevBufPointers.dev_position primitive) vid = Some p
    /\ rd out vid = Some v
    /\ VertexOut.pos v = viewport_position MVP p width height.
Proof.
  intros Hlt. unfold _vertexTransformAndAssembly.
  destruct (Z.ltb_spec vid numVertices) as [_|?]; [|lia].
  destruct (rd (PrimitiveDevBufPointers.dev_position primitive) vid) as [p|] eqn:Ep;
    [|discriminate].
  destruct (rd (PrimitiveDevBufPointers.dev_normal primitive) vid) as [n|] eqn:En;
    [|discriminate].
  cbn [mbind option_bind].
  destruct (PrimitiveDevBufPointers.dev_diffuseTex primitive) as [tex|].
  - destruct (rd (PrimitiveDevBufPointers.dev_texcoord0 primitive) vid) as [uv|];
      [|discriminate].
    cbn [mbind option_bind]. intros (o & Ho & ->)%upd_inv.
    eexists p, _. split; [reflexivity|]. split.
    + apply rd_insert_eq. eapply rd_Some_bounds; eauto.
    + reflexivity.
  - intros (o & Ho & ->)%upd_inv.
    eexists p, _. split; [reflexivity|]. split.
    + apply rd_insert_eq. eapply rd_Some_bounds; eauto.
    + reflexivity.
Qed.

Lemma vertex_thread_runs (normalize : vec3 -> vec3)
    (numVertices : Z) (primitive : PrimitiveDevBufPointers.t)
    (MVP MV : mat4) (MV_normal : mat3) (width height vid : Z)
    (buf : list VertexOut.t) p n o :
  rd (PrimitiveDevBufPointers.dev_position primitive) vid = Some p ->
  rd (PrimitiveDevBufPointers.dev_normal primitive) vid = Some n ->
  rd buf vid = Some o ->
  (PrimitiveDevBufPointers.dev_diffuseTex primitive = None
   \/ exists uv, rd (PrimitiveDevBufPointers.dev_texcoord0 primitive) vid = Some uv) ->
  exists out, _vertexTransformAndAssembly normalize numVertices primitive MVP MV MV_normal
    width height vid buf = Some out.
Proof.
  intros Hp Hn Ho Ht. unfold _vertexTransformAndAssembly.
  destruct (vid <? numVertices)%Z; [|eauto].
  rewrite Hp, Hn. cbn [mbind option_bind].
  destruct (PrimitiveDevBufPointers.dev_diffuseTex primitive) as [tex|].
  - destruct Ht as [?|[uv Huv]]; [discriminate|]. rewrite Huv. cbn [mbind option_bind].
    erewrite upd_Some by eauto. eauto.
  - erewrite upd_Some by eauto. eauto.
Qed.

Lemma viewport_range (size : Z) (c : Q) :
  (0 <= size)%Z -> -1 <= c -> c <= 1 ->
  (0 <= viewport_x size c /\ viewport_x size c <= int_to_float size)
  /\ (0 <= viewport_y size c /\ viewport_y size c <= int_to_float size).
Proof.
  intros Hs Hl Hu. unfold viewport_x, viewport_y, int_to_float.
  assert (Qs : 0 <= inject_Z size) by (rewrite <- (Zle_Qle 0); exact Hs).
  assert (P1 : 0 <= inject_Z size * (c + 1)) by (apply Qmult_le_0_compat; lra).
  assert (P2 : 0 <= inject_Z size * (1 - c)) by (apply Qmult_le_0_compat; lra).
  repeat split; lra.
Qed.

(** C5.  For every vertex and every MVP matrix, the vertex stage stores the
    viewport position x = 0.5 * width * (x_ndc + 1) and
    y = 0.5 * height * (1 - y_ndc), where (x_ndc, y_ndc) is the clip-space
    position MVP * (position, 1) divided by its w component (w not zero).
    With the identity MVP the stored x and y are exactly this affine map of
    the vertex's own x and y, which sends [-1,1] x [-1,1] into
    [0,width] x [0,height]. *)
Theorem C5_viewport_position (normalize : vec3 -> vec3)
    (numVertices : Z) (primitive : PrimitiveDevBufPointers.t)
    (MVP MV : mat4) (MV_normal : mat3) (width height vid : Z)
    (buf : list VertexOut.t) (p n : vec3) (o : VertexOut.t) :
  (vid < numVertices)%Z ->
  rd (PrimitiveDevBufPointers.dev_position primitive) vid = Some p ->
  rd (PrimitiveDevBufPointers.dev_normal primitive) vid = Some n ->
  rd buf vid = Some o ->
  (PrimitiveDevBufPointers.dev_diffuseTex primitive = None
   \/ exists uv, rd (PrimitiveDevBufPointers.dev_texcoord0 primitive) vid = Some uv) ->
  exists out v,
    _vertexTransformAndAssembly normalize numVertices primitive MVP MV MV_normal
      width height vid buf = Some out
    /\ rd out vid = Some v
    /\ (let clip := mat4_mul_vec4 MVP (vec4_of_vec3 p 1) in
        ~ w4 clip == 0 ->
        x4 (VertexOut.pos v) == viewport_x width (x4 clip / w4 clip)
        /\ y4 (VertexOut.pos v) == viewport_y height (y4 clip / w4 clip))
    /\ (MVP = mat4_identity ->
        (x4 (VertexOut.pos v) == viewport_x width (x3 p)
         /\ y4 (VertexOut.pos v) == viewport_y height (y3 p))
        /\ ((0 <= width)%Z -> (0 <= height)%Z ->
            -1 <= x3 p -> x3 p <= 1 -> -1 <= y3 p -> y3 p <= 1 ->
            (0 <= x4 (VertexOut.pos v) /\ x4 (VertexOut.pos v) <= int_to_float width)
            /\ (0 <= y4 (VertexOut.pos v) /\ y4 (VertexOut.pos v) <= int_to_float height))).
Proof.
  intros Hlt Hp Hn Ho Ht.
  destruct (vertex_thread_runs normalize numVertices primitive MVP MV MV_normal
              width height vid buf p n o Hp Hn Ho Ht) as [out Hout].
  destruct (vertex_thread_pos _ _ _ _ _ _ _ _ _ _ _ Hlt Hout) as (p' & v & Hp' & Hv & Hpos).
  rewrite Hp in Hp'. injection Hp' as <-.
  exists out, v. split; [exact Hout|]. split; [exact Hv|].
  rewrite Hpos. split.
  - intros clip _. destruct (viewport_position_spec MVP p width height) as [-> ->].
    split; reflexivity.
  - intros ->. destruct (viewport_position_identity p width height) as [Ex Ey].
    split; [split; assumption|].
    intros Hw Hh Hx0 Hx1 Hy0 Hy1. rewrite Ex, Ey.
    split; [apply (viewport_range width (x3 p)) | apply (viewport_range height (y3 p))];
      assumption.
Qed.

Lemma C5_viewport_position_witness :
  ((0 < 1)%Z
   /\ rd (PrimitiveDevBufPointers.dev_position one_vertex_part) 0
      = Some (mkvec3 (1 # 2) (- (1 # 2)) (1 # 4))
   /\ rd (PrimitiveDevBufPointers.dev_normal one_vertex_part) 0 = Some (mkvec3 0 0 1)
   /\ rd [vertex_at 0 0 0] 0 = Some (vertex_at 0 0 0)
   /\ (PrimitiveDevBufPointers.dev_diffuseTex one_vertex_part = None
       \/ exists uv, rd (PrimitiveDevBufPointers.dev_texcoord0 one_vertex_part) 0 = Some uv))
  /\ exists out v,
       _vertexTransformAndAssembly (fun n => n) 1 one_vertex_part mat4_identity mat4_identity
         (mkmat3 (mkvec3 1 0 0) (mkvec3 0 1 0) (mkvec3 0 0 1)) 640 480 0 [vertex_at 0 0 0]
       = Some out
       /\ rd out 0 = Some v
       /\ x4 (VertexOut.pos v) == 480 /\ y4 (VertexOut.pos v) == 360.
Proof.
  assert (H : (0 < 1)%Z
   /\ rd (PrimitiveDevBufPointers.dev_position one_vertex_part) 0
      = Some (mkvec3 (1 # 2) (- (1 # 2)) (1 # 4))
   /\ rd (PrimitiveDevBufPointers.dev_normal one_vertex_part) 0 = Some (mkvec3 0 0 1)
   /\ rd [vertex_at 0 0 0] 0 = Some (vertex_at 0 0 0)
   /\ (PrimitiveDevBufPointers.dev_diffuseTex one_vertex_part = None
       \/ exists uv, rd (PrimitiveDevBufPointers.dev_texcoord0 one_vertex_part) 0 = Some uv)).
  { repeat split. left. reflexivity. }
  split; [exact H|]. destruct H as (H1 & H2 & H3 & H4 & H5).
  destruct (C5_viewport_position (fun n => n) 1 one_vertex_part mat4_identity mat4_identity
              (mkmat3 (mkvec3 1 0 0) (mkvec3 0 1 0) (mkvec3 0 0 1)) 640 480 0
              [vertex_at 0 0 0] _ _ _ H1 H2 H3 H4 H5)
    as (out & v & Hout & Hv & _ & Hid).
  exists out, v. split; [exact Hout|]. split; [exact Hv|].
  destruct (Hid eq_refl) as [[Ex Ey] _]. rewrite Ex, Ey.
  split; vm_compute; reflexivity.
Defined.

(** ** The present step (C9) *)

Lemma wrap32_small z : (- 2 ^ 31 <= z < 2 ^ 31)%Z -> wrap32 z = z.
Proof.
  intros H. unfold wrap32. change (2 ^ 31)%Z with 2147483648%Z in *.
  change (2 ^ 32)%Z with 4294967296%Z. rewrite Z.mod_small; lia.
Qed.

Lemma flat_index_in_image (x y w h : Z) :
  (0 <= x < w)%Z -> (0 <= y < h)%Z -> (w * h <= INT_MAX)%Z ->
  flat_index x y w = (x + y * w)%Z /\ (0 <= x + y * w < w * h)%Z.
Proof.
  unfold INT_MAX. change (2 ^ 31)%Z with 2147483648%Z. intros Hx Hy Hwh.
  assert (0 <= y * w)%Z by nia.
  assert (x + y * w < w * h)%Z by nia.
  unfold flat_index.
  rewrite (wrap32_small (y * w)) by (change (2 ^ 31)%Z with 2147483648%Z; lia).
  rewrite wrap32_small by (change (2 ^ 31)%Z with 2147483648%Z; lia). lia.
Qed.

Lemma thread_ids_In n i : In i (thread_ids n) <-> (0 <= i < Z.of_nat n)%Z.
Proof.
  unfold thread_ids. rewrite in_map_iff. split.
  - intros (k & <- & Hk%in_seq). lia.
  - intros H. exists (Z.to_nat i). rewrite in_seq. lia.
Qed.

Lemma grid_2d_In (w h x y : Z) :
  In (x, y) (grid_2d w h) <->
  (0 <= x < (Z.quot (w - 1) 8 + 1) * 8)%Z /\ (0 <= y < (Z.quot (h - 1) 8 + 1) * 8)%Z.
Proof.
  unfold grid_2d. rewrite in_flat_map. split.
  - intros (y' & Hy & (x' & E & Hx)%in_map_iff). injection E as <- <-.
    apply thread_ids_In in Hx, Hy. lia.
  - intros [Hx Hy]. exists y. split.
    + apply thread_ids_In. lia.
    + apply in_map_iff. exists x. split; [reflexivity|]. apply thread_ids_In. lia.
Qed.

Lemma grid_2d_covers (w h x y : Z) :
  (0 <= x < w)%Z -> (0 <= y < h)%Z -> In (x, y) (grid_2d w h).
Proof.
  intros Hx Hy. apply grid_2d_In.
  pose proof (Z.quot_rem' (w - 1) 8). pose proof (Z.rem_bound_pos (w - 1) 8).
  pose proof (Z.quot_rem' (h - 1) 8). pose proof (Z.rem_bound_pos (h - 1) 8).
  lia.
Qed.

Section Present.
Variables (w h : Z) (image : list vec4).

Lemma sendImageToPBO_thread (xy : Z * Z) (pbo : list uchar4) :
  length pbo = length image ->
  ((fst xy <? w)%Z && (snd xy <? h)%Z = true ->
     (0 <= flat_index (fst xy) (snd xy) w < Z.of_nat (length image))%Z) ->
  exists pbo', sendImageToPBO w h image xy pbo = Some pbo'
    /\ length pbo' = length image
    /\ (forall j, presented_at image pbo j -> presented_at image pbo' j)
    /\ ((fst xy <? w)%Z && (snd xy <? h)%Z = true ->
        presented_at image pbo' (flat_index (fst xy) (snd xy) w)).
Proof.
  destruct xy as [x y]; cbn [fst snd]. intros Hlen Hin. unfold sendImageToPBO.
  destruct ((x <? w)%Z && (y <? h)%Z).
  - specialize (Hin eq_refl). set (index := flat_index x y w) in *.
    destruct (rd_in_bounds image index Hin) as [px Hpx].
    destruct (rd_in_bounds pbo index ltac:(lia)) as [o Ho].
    rewrite Hpx. cbn [mbind option_bind]. erewrite upd_Some by eauto.
    eexists. split; [reflexivity|]. split; [rewrite length_insert; exact Hlen|].
    split.
    + intros j (pj & Hj & Hpj). exists pj. split; [exact Hj|].
      destruct (Z.eq_dec index j) as [<-|Hne].
      * rewrite rd_insert_eq by lia. rewrite Hpx in Hj. injection Hj as <-. reflexivity.
      * rewrite rd_insert_ne; [exact Hpj|lia| |exact Hne].
        apply rd_Some_bounds in Hj. lia.
    + intros _. exists px. split; [exact Hpx|]. apply rd_insert_eq. lia.
  - eexists. split; [reflexivity|]. split; [exact Hlen|]. split; [auto|discriminate].
Qed.

Lemma run_sendImageToPBO (ids : list (Z * Z)) : forall pbo : list uchar4,
  length pbo = length image ->
  (forall xy, In xy ids -> (fst xy <? w)%Z && (snd xy <? h)%Z = true ->
     (0 <= flat_index (fst xy) (snd xy) w < Z.of_nat (length image))%Z) ->
  exists pbo', run_all (sendImageToPBO w h image) ids pbo = Some pbo'
    /\ length pbo' = length image
    /\ (forall j, presented_at image pbo j -> presented_at image pbo' j)
    /\ (forall xy, In xy ids -> (fst xy <? w)%Z && (snd xy <? h)%Z = true ->
        presented_at image pbo' (flat_index (fst xy) (snd xy) w)).
Proof.
  induction ids as [|xy ids IH]; intros pbo Hlen Hin.
  - exists pbo. cbn. repeat split; auto. intros ? [].
  - destruct (sendImageToPBO_thread xy pbo Hlen (Hin xy (or_introl eq_refl)))
      as (pbo1 & E1 & L1 & K1 & A1).
    destruct (IH pbo1 L1 (fun xy' H' => Hin xy' (or_intror H'))) as (pbo2 & E2 & L2 & K2 & A2).
    exists pbo2. cbn. rewrite E1. split; [exact E2|]. split; [exact L2|]. split.
    + intros j Hj. apply K2, K1, Hj.
    + intros xy' [<-|H'] Hact; [apply K2, A1, Hact | apply A2; assumption].
Qed.
End Present.

(** C9.  For every pixel of the image, the present step stores in the red,
    green and blue channels of the surface clamp(c,0,1)*255 of the
    framebuffer's x, y and z channels (truncated to a byte), and stores in
    the alpha channel the value derived from the framebuffer's z (blue)
    channel, not from its w (alpha) channel. *)
Theorem C9_present_alpha_from_blue (w h : Z) (image : list vec4) (pbo : list uchar4) :
  (0 < w)%Z -> (0 < h)%Z -> (w * h <= INT_MAX)%Z ->
  Z.of_nat (length image) = (w * h)%Z -> length pbo = length image ->
  exists pbo', launch_sendImageToPBO w h image pbo = Some pbo'
    /\ forall x y, (0 <= x < w)%Z -> (0 <= y < h)%Z ->
       exists px, rd image (x + y * w) = Some px
         /\ rd pbo' (x + y * w)
            = Some (mkuchar4 (float_to_uchar (clamp (x4 px) 0 1 * 255))
                             (float_to_uchar (clamp (y4 px) 0 1 * 255))
                             (float_to_uchar (clamp (z4 px) 0 1 * 255))
                             (float_to_uchar (clamp (z4 px) 0 1 * 255))).
Proof.
  intros Hw Hh Hmax Himg Hpbo.
  destruct (run_sendImageToPBO w h image (grid_2d w h) pbo Hpbo) as (pbo' & E & _ & _ & A).
  - intros [x y] Hin Hact; cbn [fst snd] in *.
    apply grid_2d_In in Hin. apply andb_true_iff in Hact as [Hx%Z.ltb_lt Hy%Z.ltb_lt].
    destruct (flat_index_in_image x y w h) as [-> ?]; lia.
  - exists pbo'. split; [exact E|]. intros x y Hx Hy.
    destruct (flat_index_in_image x y w h Hx Hy Hmax) as [Ei _].
    specialize (A (x, y) (grid_2d_covers w h x y Hx Hy)). cbn [fst snd] in A.
    rewrite Ei in A. apply A. apply andb_true_iff. split; apply Z.ltb_lt; lia.
Qed.

Lemma C9_present_alpha_from_blue_witness :
  ((0 < 1)%Z /\ (0 < 1)%Z /\ (1 * 1 <= INT_MAX)%Z
   /\ Z.of_nat (length [half_lit_pixel]) = (1 * 1)%Z
   /\ length [mkuchar4 9 9 9 9] = length [half_lit_pixel])
  /\ exists pbo', launch_sendImageToPBO 1 1 [half_lit_pixel] [mkuchar4 9 9 9 9] = Some pbo'
       /\ rd pbo' 0 = Some (mkuchar4 127 255 0 0).
Proof.
  assert (H : (0 < 1)%Z /\ (0 < 1)%Z /\ (1 * 1 <= INT_MAX)%Z
   /\ Z.of_nat (length [half_lit_pixel]) = (1 * 1)%Z
   /\ length [mkuchar4 9 9 9 9] = length [half_lit_pixel]).
  { repeat split. vm_compute. discriminate. }
  split; [exact H|]. destruct H as (H1 & H2 & H3 & H4 & H5).
  destruct (C9_present_alpha_from_blue 1 1 [half_lit_pixel] [mkuchar4 9 9 9 9]
              H1 H2 H3 H4 H5) as (pbo' & E & Hpx).
  exists pbo'. split; [exact E|].
  destruct (Hpx 0%Z 0%Z ltac:(lia) ltac:(lia)) as (px & Hr & Hw).
  injection Hr as <-. exact Hw.
Defined.

(** ** Backface culling on the host (C3) *)

Lemma filter_front_facing (prims : list Primitive.t) :
  List.filter (fun p => negb (shouldBackfaceCull p)) prims = List.filter front_facing prims.
Proof. reflexivity. Qed.

Lemma cull_enabled (sz : Z) (cfg : Config) (pa ca : Z) (prims : list Primitive.t) :
  BACKFACE_CULLING cfg = true ->
  let kept := count_front_facing prims in
  let n := Z.quot (ca + kept * sz - pa) sz in
  cull sz cfg pa ca prims
  = (if (n <=? 0)%Z then 1%Z else n,
     List.filter front_facing prims ++ drop (Z.to_nat kept) prims).
Proof.
  intros H. unfold cull, remove_if, ptr_diff, ptr_add, count_front_facing. rewrite H.
  rewrite filter_front_facing, Nat2Z.id. reflexivity.
Qed.

Lemma cull_disabled (sz : Z) (cfg : Config) (pa ca : Z) (prims : list Primitive.t) :
  BACKFACE_CULLING cfg = false ->
  cull sz cfg pa ca prims = (Z.of_nat (length prims), prims).
Proof. intros H. unfold cull. rewrite H. reflexivity. Qed.

Lemma count_front_facing_le (prims : list Primitive.t) :
  (0 <= count_front_facing prims <= Z.of_nat (length prims))%Z.
Proof.
  unfold count_front_facing. pose proof (List.filter_length_le front_facing prims). lia.
Qed.

(** Had the end pointer been measured from [dev_culledPrimitives], the count
    would be the number of survivors. *)
Lemma cull_count_from_own_base (sz : Z) (cfg : Config) (a : Z) (prims : list Primitive.t) :
  BACKFACE_CULLING cfg = true -> (0 < sz)%Z ->
  fst (cull sz cfg a a prims)
  = if (count_front_facing prims <=? 0)%Z then 1%Z else count_front_facing prims.
Proof.
  intros H HS. rewrite cull_enabled by exact H. cbn [fst].
  replace (a + count_front_facing prims * sz - a)%Z with (count_front_facing prims * sz)%Z by lia.
  rewrite Z.quot_mul by lia. reflexivity.
Qed.

(** C3 fails on the code.  With backface culling enabled the survivors of
    the front-facing predicate do come first in [dev_culledPrimitives], in
    their original order, but the count handed to the rasterizer is the
    distance of their end from [dev_primitives], the other buffer: whenever
    the two buffers are distinct allocations and at least two primitives
    survive, the count differs from the number of survivors (it is 1, or at
    least the number of survivors plus the size of the whole array). *)
Theorem C3_culled_count_from_wrong_base
    (sz : Z) (cfg : Config) (dev_primitives_addr dev_culledPrimitives_addr : Z)
    (dev_primitives : list Primitive.t) :
  BACKFACE_CULLING cfg = true ->
  (0 < sz)%Z ->
  let total := Z.of_nat (length dev_primitives) in
  (dev_primitives_addr + total * sz <= dev_culledPrimitives_addr
   \/ dev_culledPrimitives_addr + total * sz <= dev_primitives_addr)%Z ->
  (2 <= count_front_facing dev_primitives)%Z ->
  let r := cull sz cfg dev_primitives_addr dev_culledPrimitives_addr dev_primitives in
  take (Z.to_nat (count_front_facing dev_primitives)) (snd r)
    = List.filter front_facing dev_primitives
  /\ fst r <> count_front_facing dev_primitives
  /\ (fst r = 1%Z \/ (total + count_front_facing dev_primitives <= fst r)%Z).
Proof.
  intros Hcfg HS total Hdisj Hkept r. subst r. rewrite cull_enabled by exact Hcfg.
  cbn [fst snd]. pose proof (count_front_facing_le dev_primitives) as Hle.
  set (kept := count_front_facing dev_primitives) in *.
  split.
  - unfold kept, count_front_facing. rewrite Nat2Z.id. apply take_app_length.
  - set (n := Z.quot (dev_culledPrimitives_addr + kept * sz - dev_primitives_addr) sz).
    destruct Hdisj as [Hafter|Hbefore].
    + assert (total + kept <= n)%Z.
      { unfold n. rewrite <- (Z.quot_mul (total + kept) sz) by lia.
        apply Z.quot_le_mono; lia. }
      destruct (Z.leb_spec n 0); split; lia.
    + assert (n <= 0)%Z.
      { unfold n. rewrite <- (Z.quot_mul 0 sz) by lia.
        apply Z.quot_le_mono; [lia|]. nia. }
      destruct (Z.leb_spec n 0); split; lia.
Qed.

Lemma C3_culled_count_from_wrong_base_witness :
  let prims := [corner_primitive 1; corner_primitive 2] in
  (BACKFACE_CULLING culling_config = true
   /\ (0 < 272)%Z
   /\ (4096 + Z.of_nat (length prims) * 272 <= 4864
       \/ 4864 + Z.of_nat (length prims) * 272 <= 4096)%Z
   /\ (2 <= count_front_facing prims)%Z)
  /\ fst (cull 272 culling_config 4096 4864 prims) <> count_front_facing prims.
Proof.
  intros prims.
  assert (H : BACKFACE_CULLING culling_config = true
   /\ (0 < 272)%Z
   /\ (4096 + Z.of_nat (length prims) * 272 <= 4864
       \/ 4864 + Z.of_nat (length prims) * 272 <= 4096)%Z
   /\ (2 <= count_front_facing prims)%Z).
  { split; [reflexivity|]. split; [reflexivity|]. split; [left|]; vm_compute; discriminate. }
  split; [exact H|].
  destruct H as (H1 & H2 & H3 & H4).
  exact (proj1 (proj2 (C3_culled_count_from_wrong_base
                         272 culling_config 4096 4864 prims H1 H2 H3 H4))).
Defined.

Example two_front_facing_counted_as_four :
  count_front_facing [corner_primitive 1; corner_primitive 2] = 2%Z
  /\ fst (cull 272 culling_config 4096 4864 [corner_primitive 1; corner_primitive 2]) = 4%Z
  /\ fst (cull 272 culling_config 4864 4096 [corner_primitive 1; corner_primitive 2]) = 1%Z.
Proof. repeat split; vm_compute; reflexivity. Qed.


(** ** Primitive assembly (C10) *)

Lemma primitiveAssembly_not_triangles numIndices begin p iid prims :
  gltf_mode_is_triangles (PrimitiveDevBufPointers.primitiveMode p) = false ->
  _primitiveAssembly numIndices begin p iid prims = Some prims.
Proof.
  intros H. unfold _primitiveAssembly. rewrite H. destruct (iid <? numIndices)%Z; reflexivity.
Qed.

Lemma run_all_id {I S : Type} (body : I -> S -> option S) (ids : list I) (s : S) :
  (forall i, In i ids -> body i s = Some s) -> run_all body ids s = Some s.
Proof.
  induction ids as [|i ids IH]; intros H; [reflexivity|].
  cbn. rewrite (H i (or_introl eq_refl)). apply IH. intros j Hj. apply H. right. exact Hj.
Qed.

Lemma launch_primitiveAssembly_not_triangles begin p prims :
  gltf_mode_is_triangles (PrimitiveDevBufPointers.primitiveMode p) = false ->
  launch_primitiveAssembly begin p prims = Some prims.
Proof.
  intros H. unfold launch_primitiveAssembly. apply run_all_id.
  intros i _. apply primitiveAssembly_not_triangles, H.
Qed.

Lemma totalNumPrimitives_from parts : forall acc,
  fold_left (fun total p => (total + PrimitiveDevBufPointers.numPrimitives p)%Z) parts acc
  = (acc + totalNumPrimitives parts)%Z.
Proof.
  unfold totalNumPrimitives.
  induction parts as [|p parts IH]; intros acc; cbn [fold_left]; [lia|].
  rewrite (IH (acc + _)%Z), (IH (0 + _)%Z). lia.
Qed.

Lemma totalNumPrimitives_app before p after :
  totalNumPrimitives (before ++ p :: after)
  = (totalNumPrimitives before + PrimitiveDevBufPointers.numPrimitives p
     + totalNumPrimitives after)%Z.
Proof.
  unfold totalNumPrimitives at 1. rewrite fold_left_app. cbn.
  rewrite totalNumPrimitives_from. fold (totalNumPrimitives before). lia.
Qed.

(** C10.  For a mesh part whose glTF mode is TRIANGLE_STRIP or TRIANGLE_FAN,
    buffer setup records numIndices - 2 primitives of type Triangle, and
    that number is added to the global primitive total; the primitive
    assembly kernel launched for the part writes nothing (no thread of it
    does, for no content of the primitive array), and the assembly loop goes
    on numIndices - 2 slots further; without culling every slot of the
    array is handed to the rasterizer. *)
Theorem C10_strip_fan_slots_unassembled
    (mode : gltf_mode) (dev_indices : list VertexIndex)
    (dev_position dev_normal : list vec3) (dev_texcoord0 : list vec2)
    (dev_diffuseTex : option (list TextureData)) (texW texH materialId : Z)
    (dev_vertexOut : list VertexOut.t) :
  mode = MODE_TRIANGLE_STRIP \/ mode = MODE_TRIANGLE_FAN ->
  let n := Z.of_nat (length dev_indices) in
  exists p,
    rasterizeSetBuffers_part mode dev_indices dev_position dev_normal dev_texcoord0
      dev_diffuseTex texW texH materialId dev_vertexOut = Some p
    /\ PrimitiveDevBufPointers.primitiveType p = Triangle
    /\ PrimitiveDevBufPointers.numPrimitives p = (n - 2)%Z
    /\ (forall before after,
          totalNumPrimitives (before ++ p :: after)
          = (totalNumPrimitives before + (n - 2) + totalNumPrimitives after)%Z)
    /\ (forall begin iid dev_primitives,
          _primitiveAssembly n begin p iid dev_primitives = Some dev_primitives)
    /\ (forall begin dev_primitives,
          launch_primitiveAssembly begin p dev_primitives = Some dev_primitives)
    /\ (forall rest begin dev_primitives,
          assemble_parts (p :: rest) begin dev_primitives
          = assemble_parts rest (begin + (n - 2))%Z dev_primitives)
    /\ (forall sz a a' dev_primitives,
          cull sz default_config a a' dev_primitives
          = (Z.of_nat (length dev_primitives), dev_primitives)).
Proof.
  intros Hmode n. unfold rasterizeSetBuffers_part.
  assert (Hinfo : primitive_info mode (Z.of_nat (length dev_indices))
                  = Some (Triangle, (n - 2)%Z)) by (destruct Hmode as [-> | ->]; reflexivity).
  rewrite Hinfo. cbn [mbind option_bind fst snd].
  eexists. split; [reflexivity|].
  assert (Hnt : gltf_mode_is_triangles mode = false) by (destruct Hmode as [-> | ->]; reflexivity).
  cbn [PrimitiveDevBufPointers.primitiveType PrimitiveDevBufPointers.numPrimitives].
  split; [reflexivity|]. split; [reflexivity|]. split; [|split; [|split; [|split]]].
  - intros before after. rewrite totalNumPrimitives_app. reflexivity.
  - intros. apply primitiveAssembly_not_triangles. exact Hnt.
  - intros. apply launch_primitiveAssembly_not_triangles. exact Hnt.
  - intros. cbn [assemble_parts].
    rewrite launch_primitiveAssembly_not_triangles by exact Hnt. reflexivity.
  - intros. apply cull_disabled. reflexivity.
Qed.

Lemma C10_strip_fan_slots_unassembled_witness :
  (MODE_TRIANGLE_STRIP = MODE_TRIANGLE_STRIP \/ MODE_TRIANGLE_STRIP = MODE_TRIANGLE_FAN)
  /\ exists p,
    rasterizeSetBuffers_part MODE_TRIANGLE_STRIP strip_indices [] [] [] None 0 0 (-1)
      quad_vertices = Some p
    /\ PrimitiveDevBufPointers.numPrimitives p = 2%Z
    /\ launch_primitiveAssembly 0 p [corner_primitive 1; corner_primitive 1]
       = Some [corner_primitive 1; corner_primitive 1].
Proof.
  split; [left; reflexivity|].
  destruct (C10_strip_fan_slots_unassembled MODE_TRIANGLE_STRIP strip_indices [] [] [] None
              0 0 (-1) quad_vertices (or_introl eq_refl))
    as (p & Hp & _ & Hn & _ & _ & Hl & _).
  exists p. split; [exact Hp|]. split; [exact Hn|]. apply Hl.
Defined.

(** The kernel does write for a part of mode TRIANGLES. *)
Example primitiveAssembly_writes_triangles :
  exists p prims,
    rasterizeSetBuffers_part MODE_TRIANGLES [0; 1; 2]%Z [] [] [] None 0 0 (-1)
      quad_vertices = Some p
    /\ launch_primitiveAssembly 0 p [corner_primitive 5] = Some prims
    /\ prims <> [corner_primitive 5].
Proof.
  eexists _, _. split; [reflexivity|]. split; [vm_compute; reflexivity|]. discriminate.
Qed.


(** ** Nearest-neighbour texture lookup (C7) *)

Lemma float_to_int_nonneg (q : Q) : 0 <= q -> float_to_int q = Qfloor q.
Proof.
  destruct q as [n d]. unfold Qle, float_to_int, Qfloor; cbn. intros H.
  apply Z.quot_div_nonneg; lia.
Qed.

Lemma nearest_texIndex_square (uv : vec2) (side : Z) :
  0 <= x2 uv * int_to_float side -> 0 <= y2 uv * int_to_float side ->
  nearest_texIndex uv side side = row_major_texIndex uv side side.
Proof.
  intros Hu Hv. unfold nearest_texIndex, row_major_texIndex.
  rewrite !float_to_int_nonneg by assumption. reflexivity.
Qed.


(** C7 fails on the code.  The nearest-neighbour lookup scales v by the
    texture's width and uses its height as the row stride: in a texture 2
    texels wide and 4 high, the fragment with texture coordinate (0, 1/4)
    takes its colour from texel 0, whereas the row-major texel of the
    coordinate, floor(u*W) + floor(v*H)*W, is texel 2.  The three bytes of
    the texel it does read are divided by 255, and alpha is 1. *)
Theorem C7_texIndex_swaps_width_and_height :
  nearest_texIndex quarter_uv 2 4 = 0%Z
  /\ row_major_texIndex quarter_uv 2 4 = 2%Z
  /\ th_color <$> frag_thread_of (fun v => v) default_config tall_primitive 1 1
     = nearest_color tall_texels quarter_uv 2 4
  /\ nearest_color tall_texels quarter_uv 2 4
     = Some (mkvec4 (0 / 255) (1 / 255) (2 / 255) 1)
  /\ row_major_color tall_texels quarter_uv 2 4
     = Some (mkvec4 (20 / 255) (21 / 255) (22 / 255) 1).
Proof. repeat split; vm_compute; reflexivity. Qed.

(** The bilinear lookup, by contrast, addresses texel (x, y) row-major. *)
Example bilinear_is_row_major :
  exists c, getBilinearFilteredPixelColor tall_texels (mkvec2 (1 # 4) (3 # 8)) 2 4 = Some c
    /\ x4 c == 20 / 255 /\ y4 c == 21 / 255 /\ z4 c == 22 / 255.
Proof. eexists. split; [vm_compute; reflexivity|]. repeat split. Qed.

(** ** The scanned bounding box (C4) *)

Lemma for_range_In (lo : Z) (hi : Q) (i : Z) :
  In i (for_range lo hi) <-> (lo <= i)%Z /\ inject_Z i <= hi.
Proof.
  unfold for_range. rewrite in_map_iff. split.
  - intros (k & <- & Hk%in_seq). split; [lia|].
    apply Qle_trans with (inject_Z (Qfloor hi)); [|apply Qfloor_le].
    rewrite <- Zle_Qle. lia.
  - intros [Hlo Hhi]. exists (Z.to_nat (i - lo)). split; [lia|].
    apply in_seq. apply Qfloor_resp_le in Hhi. rewrite Qfloor_Z in Hhi. lia.
Qed.

Lemma scanned_pixels_In (bbox : AABB) (x y : Z) :
  In (x, y) (scanned_pixels bbox) <->
  ((float_to_int (x3 (aabb_min bbox)) <= x)%Z /\ inject_Z x <= x3 (aabb_max bbox))
  /\ ((float_to_int (y3 (aabb_min bbox)) <= y)%Z /\ inject_Z y <= y3 (aabb_max bbox)).
Proof.
  unfold scanned_pixels. rewrite in_flat_map. split.
  - intros (x' & Hx & (y' & E & Hy)%in_map_iff). injection E as <- <-.
    apply for_range_In in Hx, Hy. tauto.
  - intros [Hx Hy]. exists x. split; [apply for_range_In, Hx|].
    apply in_map_iff. exists y. split; [reflexivity|apply for_range_In, Hy].
Qed.

Lemma clamp_bounds (x lo hi : Q) : lo <= hi -> lo <= clamp x lo hi /\ clamp x lo hi <= hi.
Proof.
  intros H. unfold clamp. split.
  - apply Q.min_glb; [apply Q.le_max_r|exact H].
  - apply Q.le_min_r.
Qed.

(** What the clamp of [getAABBForTriangle] does guarantee: the bounds [w] and
    [h] themselves are scanned. *)
Lemma scanned_pixels_within (tri : arr3 vec3) (w h x y : Z) :
  (0 <= w)%Z -> (0 <= h)%Z ->
  In (x, y) (scanned_pixels (getAABBForTriangle tri w h)) ->
  (0 <= x <= w)%Z /\ (0 <= y <= h)%Z.
Proof.
  intros Hw Hh [[Hx0 Hx1] [Hy0 Hy1]]%scanned_pixels_In.
  cbn [getAABBForTriangle aabb_min aabb_max x3 y3] in *.
  unfold int_to_float in *.
  assert (Qw : 0 <= inject_Z w) by (rewrite <- (Zle_Qle 0); exact Hw).
  assert (Qh : 0 <= inject_Z h) by (rewrite <- (Zle_Qle 0); exact Hh).
  pose proof (fun v => clamp_bounds v 0 (inject_Z w) Qw) as Cw.
  pose proof (fun v => clamp_bounds v 0 (inject_Z h) Qh) as Ch.
  rewrite float_to_int_nonneg in Hx0, Hy0 by apply Cw || apply Ch.
  repeat split.
  - etransitivity; [|exact Hx0]. rewrite <- (Qfloor_Z 0). apply Qfloor_resp_le, Cw.
  - rewrite Zle_Qle. eapply Qle_trans; [exact Hx1|apply Cw].
  - etransitivity; [|exact Hy0]. rewrite <- (Qfloor_Z 0). apply Qfloor_resp_le, Ch.
  - rewrite Zle_Qle. eapply Qle_trans; [exact Hy1|apply Ch].
Qed.

(** C4 fails on the code.  The bounding box is clamped to [0,w] x [0,h], both
    ends included, and the loops run up to and including its maximum: for a
    4 x 4 image and the triangle (0,0), (8,0), (0,8), the pixel (4,4) is
    scanned and accepted, its flat index 20 lies outside the 16 cells of the
    depth buffer, and the thread of the rasterizer makes an access outside
    its buffers; the scanned and accepted pixel (4,0) has the flat index of
    pixel (0,1). *)
Theorem C4_scan_reaches_width_and_height :
  let tri := primitive_tri (corner_primitive 1) in
  In (4%Z, 4%Z) (scanned_pixels (getAABBForTriangle tri 4 4))
  /\ pixel_accepted tri 4 4 = true
  /\ flat_index 4 4 4 = 20%Z
  /\ length (depths (cleared_buffers 4 4)) = 16%nat
  /\ rd (depths (cleared_buffers 4 4)) (flat_index 4 4 4) = None
  /\ _rasterize (fun v => v) default_config 1 [corner_primitive 1] 4 4 0
       (cleared_buffers 4 4) = None
  /\ In (4%Z, 0%Z) (scanned_pixels (getAABBForTriangle tri 4 4))
  /\ pixel_accepted tri 4 0 = true
  /\ flat_index 4 0 4 = flat_index 0 1 4.
Proof.
  cbv zeta.
  split; [apply scanned_pixels_In; vm_compute; repeat split; discriminate|].
  do 5 (split; [vm_compute; reflexivity|]).
  split; [apply scanned_pixels_In; vm_compute; repeat split; discriminate|].
  split; vm_compute; reflexivity.
Qed.

(** In an image that contains the whole bounding box with room to spare, the
    same thread runs to its end: pixel (1,1) is covered, pixel (8,8) is not. *)
Example rasterize_inside_image :
  exists b d,
    _rasterize (fun v => v) default_config 1 [corner_primitive 1] 9 9 0
      (cleared_buffers 9 9) = Some b
    /\ rd (depths b) (flat_index 1 1 9) = Some (Finite d) /\ d == 1
    /\ (Fragment.color <$> rd (fragmentBuffer b) (flat_index 1 1 9)) = Some (mkvec4 1 1 1 1)
    /\ rd (depths b) (flat_index 8 8 9) = Some Infinity.
Proof.
  eexists _, _. split; [vm_compute; reflexivity|]. repeat split.
Qed.

(** ** Clearing the frame and the k-buffer (C8) *)

Lemma memset_buf_all {A : Type} (v : A) (n : Z) (buf : list A) :
  Z.of_nat (length buf) = n -> memset_buf v n buf = replicate (length buf) v.
Proof.
  intros <-. unfold memset_buf. rewrite Nat2Z.id, Nat.min_id, drop_all.
  apply app_nil_r.
Qed.

Lemma rd_replicate {A : Type} (v : A) (n : nat) (j : Z) :
  (0 <= j < Z.of_nat n)%Z -> rd (replicate n v) j = Some v.
Proof.
  intros H. unfold rd. destruct (Z.ltb_spec j 0) as [?|_]; [lia|].
  apply lookup_replicate_2. lia.
Qed.

Lemma initDepth_thread (w h : Z) (xy : Z * Z) (depth : list depthv) (n : nat) :
  length depth = n ->
  ((fst xy <? w)%Z && (snd xy <? h)%Z = true ->
     (0 <= flat_index (fst xy) (snd xy) w < Z.of_nat n)%Z) ->
  exists depth', initDepth w h xy depth = Some depth'
    /\ length depth' = n
    /\ (forall j, rd depth j = Some Infinity -> rd depth' j = Some Infinity)
    /\ ((fst xy <? w)%Z && (snd xy <? h)%Z = true ->
        rd depth' (flat_index (fst xy) (snd xy) w) = Some Infinity).
Proof.
  destruct xy as [x y]; cbn [fst snd]. intros Hlen Hin. unfold initDepth.
  destruct ((x <? w)%Z && (y <? h)%Z).
  - specialize (Hin eq_refl). set (index := flat_index x y w) in *.
    rewrite wr_Some by lia.
    eexists. split; [reflexivity|]. split; [rewrite length_insert; exact Hlen|].
    split.
    + intros j Hj. destruct (Z.eq_dec index j) as [<-|Hne].
      * apply rd_insert_eq. lia.
      * rewrite rd_insert_ne; [exact Hj|lia| |exact Hne]. apply rd_Some_bounds in Hj. lia.
    + intros _. apply rd_insert_eq. lia.
  - eexists. split; [reflexivity|]. split; [exact Hlen|]. split; [auto|discriminate].
Qed.

Lemma run_initDepth (w h : Z) (n : nat) (ids : list (Z * Z)) : forall depth : list depthv,
  length depth = n ->
  (forall xy, In xy ids -> (fst xy <? w)%Z && (snd xy <? h)%Z = true ->
     (0 <= flat_index (fst xy) (snd xy) w < Z.of_nat n)%Z) ->
  exists depth', run_all (initDepth w h) ids depth = Some depth'
    /\ length depth' = n
    /\ (forall j, rd depth j = Some Infinity -> rd depth' j = Some Infinity)
    /\ (forall xy, In xy ids -> (fst xy <? w)%Z && (snd xy <? h)%Z = true ->
        rd depth' (flat_index (fst xy) (snd xy) w) = Some Infinity).
Proof.
  induction ids as [|xy ids IH]; intros depth Hlen Hin.
  - exists depth. cbn. repeat split; auto. intros ? [].
  - destruct (initDepth_thread w h xy depth n Hlen (Hin xy (or_introl eq_refl)))
      as (d1 & E1 & L1 & K1 & A1).
    destruct (IH d1 L1 (fun xy' H' => Hin xy' (or_intror H'))) as (d2 & E2 & L2 & K2 & A2).
    exists d2. cbn. rewrite E1. split; [exact E2|]. split; [exact L2|]. split.
    + intros j Hj. apply K2, K1, Hj.
    + intros xy' [<-|H'] Hact; [apply K2, A1, Hact | apply A2; assumption].
Qed.

(** Every frame starts from cleared buffers: zero accumulator, the float
    0x01010101 as revealage, infinite depth. *)
Lemma clear_frame_clears (width height : Z) (b : RasterBuffers) :
  (0 < width)%Z -> (0 < height)%Z -> (width * height <= INT_MAX)%Z ->
  Z.of_nat (length (fragmentBuffer b)) = (width * height)%Z ->
  Z.of_nat (length (depths b)) = (width * height)%Z ->
  Z.of_nat (length (depthAccum b)) = (width * height)%Z ->
  Z.of_nat (length (depthRevealage b)) = (width * height)%Z ->
  exists b', clear_frame width height b = Some b'
    /\ forall x y, (0 <= x < width)%Z -> (0 <= y < height)%Z ->
       rd (fragmentBuffer b') (x + y * width) = Some zero_fragment
       /\ rd (depths b') (x + y * width) = Some Infinity
       /\ rd (depthAccum b') (x + y * width) = Some zero_vec4
       /\ rd (depthRevealage b') (x + y * width) = Some revealage_cleared.
Proof.
  intros Hw Hh Hmax Lf Ld La Lr. unfold clear_frame.
  destruct (run_initDepth width height (length (depths b)) (grid_2d width height)
              (depths b) eq_refl) as (d & E & _ & _ & A).
  - intros [x y] Hin Hact; cbn [fst snd] in *.
    apply grid_2d_In in Hin. apply andb_true_iff in Hact as [Hx%Z.ltb_lt Hy%Z.ltb_lt].
    destruct (flat_index_in_image x y width height) as [-> ?]; lia.
  - rewrite E. cbn [mbind option_bind]. eexists. split; [reflexivity|].
    intros x y Hx Hy. cbn [fragmentBuffer depths depthAccum depthRevealage].
    destruct (flat_index_in_image x y width height Hx Hy Hmax) as [Ei Hi].
    rewrite !memset_buf_all by assumption.
    rewrite !rd_replicate by lia.
    repeat split.
    specialize (A (x, y) (grid_2d_covers width height x y Hx Hy)). cbn [fst snd] in A.
    rewrite Ei in A. apply A. apply andb_true_iff. split; apply Z.ltb_lt; lia.
Qed.

Lemma upd_ok {A : Type} (buf : list A) (i : Z) (f : A -> A) (a : A) :
  rd buf i = Some a ->
  exists buf', upd buf i f = Some buf' /\ rd buf' i = Some (f a).
Proof.
  intros H. rewrite (upd_Some buf i f a H). eexists. split; [reflexivity|].
  apply rd_insert_eq. eapply rd_Some_bounds; eauto.
Qed.

Lemma fragment_section_kbuffer (normalize : vec3 -> vec3) (cfg : Config)
    (primitive : Primitive.t) (tri : arr3 vec3) (bary : vec3) (index : Z) (depth : Q)
    (b : RasterBuffers) (f : Fragment.t) (acc color : vec4) (old : Q) :
  USE_K_BUFFER cfg = true ->
  rd (fragmentBuffer b) index = Some f ->
  rd (depthAccum b) index = Some acc ->
  rd (depthRevealage b) index = Some old ->
  fragment_color cfg primitive tri bary depth = Some color ->
  let alpha := kbuffer_alpha color in
  let weight := kbuffer_weight alpha depth in
  exists b', fragment_section normalize cfg primitive tri bary index depth b = Some b'
    /\ depthAccum b'
       = <[Z.to_nat index :=
             vec4_add acc (vec4_scale (mkvec4 (x4 color) (y4 color) (z4 color) alpha) weight)]>
           (depthAccum b)
    /\ depthRevealage b' = <[Z.to_nat index := alpha]> (depthRevealage b).
Proof.
  intros Hk Hf Hacc Hold Hcol alpha weight. unfold fragment_section.
  rewrite Hk, Hcol.
  assert (Hfb : exists fb f', (if RENDER_DEPTH_ONLY cfg
                then upd (fragmentBuffer b) index (set_depth (Qabs depth))
                else Some (fragmentBuffer b)) = Some fb /\ rd fb index = Some f').
  { destruct (RENDER_DEPTH_ONLY cfg); [|eauto].
    destruct (upd_ok (fragmentBuffer b) index (set_depth (Qabs depth)) f Hf) as (fb & E & R).
    eauto. }
  destruct Hfb as (fb & f' & -> & Hf').
  cbn [mbind option_bind].
  destruct (upd_ok fb index
              (set_eyeNor (getPerspectiveCorrectNormalAtCoordinate normalize bary tri
                 (mkarr3 (VertexOut.eyeNor (a0 (Primitive.v primitive)))
                         (VertexOut.eyeNor (a1 (Primitive.v primitive)))
                         (VertexOut.eyeNor (a2 (Primitive.v primitive)))) depth))
              f' Hf') as (fb1 & -> & R1).
  cbn [mbind option_bind].
  destruct (upd_ok fb1 index
              (set_materialId (VertexOut.materialId (a0 (Primitive.v primitive))))
              _ R1) as (fb2 & -> & R2).
  cbn [mbind option_bind].
  erewrite (upd_Some (depthAccum b)) by eauto. cbn [mbind option_bind].
  rewrite wr_Some by (eapply rd_Some_bounds; eauto). cbn [mbind option_bind].
  destruct (upd_ok fb2 index
              (set_color (mkvec4 (x4 color) (y4 color) (z4 color) (kbuffer_alpha color)))
              _ R2) as (fb3 & -> & R3).
  cbn [mbind option_bind].
  eexists. split; [reflexivity|]. split; reflexivity.
Qed.

Lemma kbuffer_pixel_body
    (normalize : vec3 -> vec3) (cfg : Config) (primitive : Primitive.t)
    (width x y : Z) (b : RasterBuffers) (f : Fragment.t) (acc color : vec4) (old : Q) :
  let tri := primitive_tri primitive in
  let bary := calculateBarycentricCoordinate tri (mkvec2 (int_to_float x) (int_to_float y)) in
  let depth := getPerspectiveCorrectZAtCoordinate bary tri in
  let index := flat_index x y width in
  USE_K_BUFFER cfg = true ->
  pixel_accepted tri x y = true ->
  rd (fragmentBuffer b) index = Some f ->
  rd (depthAccum b) index = Some acc ->
  rd (depthRevealage b) index = Some old ->
  fragment_color cfg primitive tri bary depth = Some color ->
  let alpha := kbuffer_alpha color in
  let weight := kbuffer_weight alpha depth in
  exists b', pixel_body normalize cfg primitive tri width (x, y) b = Some b'
    /\ rd (depthAccum b') index
       = Some (mkvec4 (x4 acc + x4 color * weight) (y4 acc + y4 color * weight)
                      (z4 acc + z4 color * weight) (w4 acc + alpha * weight))
    /\ rd (depthRevealage b') index = Some alpha
    /\ (forall j, j <> index -> rd (depthAccum b') j = rd (depthAccum b) j)
    /\ (forall j, j <> index -> rd (depthRevealage b') j = rd (depthRevealage b) j).
Proof.
  intros tri bary depth index Hk Hacc Hf Ha Ho Hc alpha weight.
  destruct (fragment_section_kbuffer normalize cfg primitive tri bary index depth b
              f acc color old Hk Hf Ha Ho Hc) as (b' & E & EA & ER).
  exists b'. unfold pixel_body. unfold pixel_accepted in Hacc. cbv zeta.
  rewrite Hacc, Hk. split; [exact E|].
  pose proof (rd_Some_bounds _ _ _ Ha) as Ba. pose proof (rd_Some_bounds _ _ _ Ho) as Bo.
  rewrite EA, ER. repeat split.
  - rewrite rd_insert_eq by exact Ba. reflexivity.
  - apply rd_insert_eq. exact Bo.
  - intros j Hj. destruct (Z.ltb_spec j 0) as [Hn|Hn].
    + rewrite !rd_None_out by lia. reflexivity.
    + apply rd_insert_ne; lia.
  - intros j Hj. destruct (Z.ltb_spec j 0) as [Hn|Hn].
    + rewrite !rd_None_out by lia. reflexivity.
    + apply rd_insert_ne; lia.
Qed.

(** C8, as amended.  Under USE_K_BUFFER the colour accumulator and the
    revealage scalar of every pixel are both reset at the start of every
    frame (the accumulator to zero, the revealage to the float whose four
    bytes are 1); every accepted fragment adds its weighted colour
    (r*w, g*w, b*w, alpha*w) to the accumulator of its pixel, and overwrites
    the revealage of its pixel with its alpha, whatever the cell held; no
    other cell of the two buffers changes. *)
Theorem C8_accumulator_added_revealage_overwritten :
  (forall (width height : Z) (b : RasterBuffers),
     (0 < width)%Z -> (0 < height)%Z -> (width * height <= INT_MAX)%Z ->
     Z.of_nat (length (fragmentBuffer b)) = (width * height)%Z ->
     Z.of_nat (length (depths b)) = (width * height)%Z ->
     Z.of_nat (length (depthAccum b)) = (width * height)%Z ->
     Z.of_nat (length (depthRevealage b)) = (width * height)%Z ->
     exists b', clear_frame width height b = Some b'
       /\ forall x y, (0 <= x < width)%Z -> (0 <= y < height)%Z ->
          rd (depthAccum b') (x + y * width) = Some zero_vec4
          /\ rd (depthRevealage b') (x + y * width) = Some revealage_cleared)
  /\ (forall (normalize : vec3 -> vec3) (cfg : Config) (primitive : Primitive.t)
        (width x y : Z) (b : RasterBuffers) (f : Fragment.t) (acc color : vec4) (old : Q),
     let tri := primitive_tri primitive in
     let bary := calculateBarycentricCoordinate tri
                   (mkvec2 (int_to_float x) (int_to_float y)) in
     let depth := getPerspectiveCorrectZAtCoordinate bary tri in
     let index := flat_index x y width in
     USE_K_BUFFER cfg = true ->
     pixel_accepted tri x y = true ->
     rd (fragmentBuffer b) index = Some f ->
     rd (depthAccum b) index = Some acc ->
     rd (depthRevealage b) index = Some old ->
     fragment_color cfg primitive tri bary depth = Some color ->
     let alpha := kbuffer_alpha color in
     let weight := kbuffer_weight alpha depth in
     exists b', pixel_body normalize cfg primitive tri width (x, y) b = Some b'
       /\ rd (depthAccum b') index
          = Some (mkvec4 (x4 acc + x4 color * weight) (y4 acc + y4 color * weight)
                         (z4 acc + z4 color * weight) (w4 acc + alpha * weight))
       /\ rd (depthRevealage b') index = Some alpha
       /\ (forall j, j <> index -> rd (depthAccum b') j = rd (depthAccum b) j)
       /\ (forall j, j <> index -> rd (depthRevealage b') j = rd (depthRevealage b) j)).
Proof.
  split.
  - intros width height b Hw Hh Hmax Lf Ld La Lr.
    destruct (clear_frame_clears width height b Hw Hh Hmax Lf Ld La Lr) as (b' & E & H).
    exists b'. split; [exact E|]. intros x y Hx Hy.
    destruct (H x y Hx Hy) as (_ & _ & Ha & Hr). split; assumption.
  - intros. apply kbuffer_pixel_body with (f := f) (old := old); assumption.
Qed.

(** C8 as stated fails for the revealage: the fragment of a black texel
    leaves revealage 1/10 in a cell that held 0 and in a cell that held 1,
    so no contribution was added to what the cell held. *)
Lemma C8_counterexample : ~ accumulates revealage_after.
Proof.
  intros [c Hc].
  pose proof (Hc 0) as H0. pose proof (Hc 1) as H1.
  assert (E0 : revealage_after 0 == 1 # 10) by (vm_compute; reflexivity).
  assert (E1 : revealage_after 1 == 1 # 10) by (vm_compute; reflexivity).
  rewrite E0 in H0. rewrite E1 in H1. lra.
Qed.

Lemma C8_accumulator_added_revealage_overwritten_witness :
  let b := mkRasterBuffers [zero_fragment] [Infinity] [mkvec4 1 1 1 1] [7] in
  ((0 < 1)%Z /\ (0 < 1)%Z /\ (1 * 1 <= INT_MAX)%Z
   /\ Z.of_nat (length (fragmentBuffer b)) = (1 * 1)%Z
   /\ Z.of_nat (length (depths b)) = (1 * 1)%Z
   /\ Z.of_nat (length (depthAccum b)) = (1 * 1)%Z
   /\ Z.of_nat (length (depthRevealage b)) = (1 * 1)%Z)
  /\ (exists b', clear_frame 1 1 b = Some b'
        /\ rd (depthAccum b') 0 = Some zero_vec4
        /\ rd (depthRevealage b') 0 = Some revealage_cleared)
  /\ (USE_K_BUFFER kbuffer_config = true
      /\ pixel_accepted (primitive_tri black_primitive) 0 0 = true
      /\ rd (fragmentBuffer b) 0 = Some zero_fragment
      /\ rd (depthAccum b) 0 = Some (mkvec4 1 1 1 1)
      /\ rd (depthRevealage b) 0 = Some 7
      /\ fragment_color kbuffer_config black_primitive (primitive_tri black_primitive)
           (calculateBarycentricCoordinate (primitive_tri black_primitive)
              (mkvec2 (int_to_float 0) (int_to_float 0)))
           (getPerspectiveCorrectZAtCoordinate
              (calculateBarycentricCoordinate (primitive_tri black_primitive)
                 (mkvec2 (int_to_float 0) (int_to_float 0)))
              (primitive_tri black_primitive))
         = Some (mkvec4 (0 / 255) (0 / 255) (0 / 255) 1))
  /\ exists b' a r,
       pixel_body (fun v => v) kbuffer_config black_primitive
         (primitive_tri black_primitive) 1 (0%Z, 0%Z) b = Some b'
       /\ rd (depthAccum b') 0 = Some a /\ w4 a == 31
       /\ rd (depthRevealage b') 0 = Some r /\ r == 1 # 10.
Proof.
  intros b.
  assert (H1 : (0 < 1)%Z /\ (0 < 1)%Z /\ (1 * 1 <= INT_MAX)%Z
   /\ Z.of_nat (length (fragmentBuffer b)) = (1 * 1)%Z
   /\ Z.of_nat (length (depths b)) = (1 * 1)%Z
   /\ Z.of_nat (length (depthAccum b)) = (1 * 1)%Z
   /\ Z.of_nat (length (depthRevealage b)) = (1 * 1)%Z).
  { repeat split. vm_compute. discriminate. }
  assert (H2 : USE_K_BUFFER kbuffer_config = true
      /\ pixel_accepted (primitive_tri black_primitive) 0 0 = true
      /\ rd (fragmentBuffer b) 0 = Some zero_fragment
      /\ rd (depthAccum b) 0 = Some (mkvec4 1 1 1 1)
      /\ rd (depthRevealage b) 0 = Some 7
      /\ fragment_color kbuffer_config black_primitive (primitive_tri black_primitive)
           (calculateBarycentricCoordinate (primitive_tri black_primitive)
              (mkvec2 (int_to_float 0) (int_to_float 0)))
           (getPerspectiveCorrectZAtCoordinate
              (calculateBarycentricCoordinate (primitive_tri black_primitive)
                 (mkvec2 (int_to_float 0) (int_to_float 0)))
              (primitive_tri black_primitive))
         = Some (mkvec4 (0 / 255) (0 / 255) (0 / 255) 1)).
  { repeat split. }
  split; [exact H1|].
  destruct C8_accumulator_added_revealage_overwritten as [Hclear Hfrag].
  split.
  - destruct H1 as (A1 & A2 & A3 & A4 & A5 & A6 & A7).
    destruct (Hclear 1%Z 1%Z b A1 A2 A3 A4 A5 A6 A7) as (b' & E & H).
    exists b'. split; [exact E|]. apply (H 0%Z 0%Z); lia.
  - split; [exact H2|]. destruct H2 as (B1 & B2 & B3 & B4 & B5 & B6).
    destruct (Hfrag (fun v => v) kbuffer_config black_primitive 1%Z 0%Z 0%Z b
                zero_fragment (mkvec4 1 1 1 1) _ 7 B1 B2 B3 B4 B5 B6)
      as (b' & E & Ha & Hr & _).
    exists b'. eexists _, _. split; [exact E|]. split; [exact Ha|].
    split; [vm_compute; reflexivity|]. split; [exact Hr|]. vm_compute. reflexivity.
Defined.

Example revealage_cleared_value :
  memset_float 1 = Some revealage_cleared
  /\ revealage_cleared == 8454401 / 2 ^ 148
  /\ ~ revealage_cleared == 1.
Proof.
  split; [reflexivity|]. split; [vm_compute; reflexivity|]. vm_compute. discriminate.
Qed.

(** ** The depth test (C1) *)

Lemma depthv_eqb_refl (d : depthv) : depthv_eqb d d = true.
Proof. destruct d; [apply Qeq_bool_iff; reflexivity|reflexivity]. Qed.

Lemma depth_lt_not_le (d : Q) (stored : depthv) :
  depth_lt d stored = true -> depthv_le stored d = false.
Proof.
  destruct stored as [s|]; [|reflexivity]. unfold depth_lt, depthv_le, Qltb, Qleb.
  apply negb_true_iff.
Qed.

Lemma depth_lt_trans (a b : Q) (stored : depthv) :
  a < b -> depth_lt b stored = true -> depth_lt a stored = true.
Proof.
  destruct stored as [s|]; [|reflexivity]. unfold depth_lt. rewrite !Qltb_iff. lra.
Qed.

Lemma fatomicMin_alone (stored : depthv) (value : Q) :
  fatomicMin stored value
  = Some (if depthv_le stored value then stored else Finite value, stored).
Proof.
  unfold fatomicMin. destruct (depthv_le stored value); [reflexivity|].
  cbn. rewrite !depthv_eqb_refl. reflexivity.
Qed.

Lemma frag_run_alone (t : frag_thread) (c : pixel_cell) :
  th_pc t = PcTest ->
  frag_run 6 t c = (goto PcDone t, written_alone t c).
Proof.
  destruct t as [pc d n m col]; cbn [th_pc]. intros ->.
  unfold written_alone; cbn [th_depth th_nor th_mat th_color].
  cbn [frag_run]. unfold frag_step at 1; cbn [th_pc th_depth].
  destruct (depth_lt d (px_depth c)) eqn:Hlt; [|reflexivity].
  unfold goto; cbn [th_depth th_nor th_mat th_color].
  unfold frag_step at 1; cbn [th_pc th_depth th_nor th_mat th_color].
  rewrite (depth_lt_not_le _ _ Hlt).
  unfold goto; cbn [th_depth th_nor th_mat th_color].
  unfold frag_step at 1; cbn [th_pc th_depth th_nor th_mat th_color].
  unfold atomicCAS. rewrite !depthv_eqb_refl. reflexivity.
Qed.

Lemma run_schedule_app (s1 s2 : list nat) : forall (ths : list frag_thread) (c : pixel_cell),
  run_schedule (s1 ++ s2) ths c
  = run_schedule s2 (fst (run_schedule s1 ths c)) (snd (run_schedule s1 ths c)).
Proof.
  induction s1 as [|i s1 IH]; intros ths c; [reflexivity|].
  cbn [app run_schedule]. destruct (ths !! i) as [t|]; [|apply IH].
  destruct (frag_step t c) as [t' c']. apply IH.
Qed.

Lemma run_schedule_replicate (n : nat) (i : nat) :
  forall (ths : list frag_thread) (c : pixel_cell) (t : frag_thread),
  ths !! i = Some t ->
  run_schedule (replicate n i) ths c
  = (<[i := fst (frag_run n t c)]> ths, snd (frag_run n t c)).
Proof.
  induction n as [|n IH]; intros ths c t Ht.
  - cbn. rewrite list_insert_id by exact Ht. reflexivity.
  - cbn [replicate run_schedule frag_run]. rewrite Ht.
    destruct (frag_step t c) as [t' c'].
    rewrite (IH _ _ t').
    + rewrite list_insert_insert_eq. reflexivity.
    + apply list_lookup_insert_eq. eapply lookup_lt_Some; eauto.
Qed.

Lemma run_schedule_alone (i : nat) (ths : list frag_thread) (c : pixel_cell) (t : frag_thread) :
  ths !! i = Some t -> th_pc t = PcTest ->
  run_schedule (alone i) ths c = (<[i := goto PcDone t]> ths, written_alone t c).
Proof.
  intros Ht Hpc. unfold alone. rewrite (run_schedule_replicate 6 i ths c t Ht).
  rewrite frag_run_alone by exact Hpc. reflexivity.
Qed.

(** Run one after the other, in either order, the two threads leave the
    colour of the nearer one. *)
Lemma depth_test_sequential (tA tB : frag_thread) (c : pixel_cell) :
  th_pc tA = PcTest -> th_pc tB = PcTest ->
  th_depth tA < th_depth tB ->
  depth_lt (th_depth tA) (px_depth c) = true ->
  Fragment.color (px_frag (snd (run_schedule (alone 0 ++ alone 1) [tA; tB] c))) = th_color tA
  /\ Fragment.color (px_frag (snd (run_schedule (alone 1 ++ alone 0) [tA; tB] c))) = th_color tA.
Proof.
  intros HA HB Hlt Hc. split.
  - rewrite run_schedule_app, (run_schedule_alone 0 [tA; tB] c tA eq_refl HA). cbn [fst snd].
    erewrite (run_schedule_alone 1 _ _ tB); [|reflexivity|exact HB]. cbn [snd].
    unfold written_alone at 2. rewrite Hc.
    unfold written_alone. cbn [px_depth depth_lt].
    assert (E : Qltb (th_depth tB) (th_depth tA) = false).
    { apply not_true_iff_false. rewrite Qltb_iff. lra. }
    rewrite E. reflexivity.
  - rewrite run_schedule_app, (run_schedule_alone 1 [tA; tB] c tB eq_refl HB). cbn [fst snd].
    erewrite (run_schedule_alone 0 _ _ tA); [|reflexivity|exact HA]. cbn [snd].
    unfold written_alone at 1.
    assert (E : depth_lt (th_depth tA) (px_depth (written_alone tB c)) = true).
    { unfold written_alone. destruct (depth_lt (th_depth tB) (px_depth c)); [|exact Hc].
      cbn. apply Qltb_iff. exact Hlt. }
    rewrite E. reflexivity.
Qed.

Lemma race_schedule_parts : race_schedule = [1%nat] ++ alone 0 ++ replicate 4 1%nat.
Proof. reflexivity. Qed.

Lemma frag_run_after_test (t : frag_thread) (c : pixel_cell) :
  depthv_le (px_depth c) (th_depth t) = true ->
  frag_run 4 (goto PcMinLoad t) c
  = (goto PcDone t,
     mkpixel_cell (px_depth c)
       (set_color (th_color t) (set_materialId (th_mat t) (set_eyeNor (th_nor t) (px_frag c))))).
Proof.
  intros H. cbn [frag_run]. unfold frag_step at 1.
  cbn [goto th_pc th_depth th_nor th_mat th_color]. rewrite H. reflexivity.
Qed.

Lemma run_race_schedule (tA tB : frag_thread) (c : pixel_cell) :
  th_pc tA = PcTest -> th_pc tB = PcTest ->
  th_depth tA < th_depth tB ->
  depth_lt (th_depth tB) (px_depth c) = true ->
  run_schedule race_schedule [tA; tB] c
  = ([goto PcDone tA; goto PcDone tB],
     mkpixel_cell (Finite (th_depth tA))
       (set_color (th_color tB) (set_materialId (th_mat tB) (set_eyeNor (th_nor tB)
          (set_color (th_color tA) (set_materialId (th_mat tA) (set_eyeNor (th_nor tA)
             (px_frag c)))))))).
Proof.
  intros HpA HpB Hlt HB.
  pose proof (depth_lt_trans _ _ _ Hlt HB) as HA.
  assert (HAB : Qleb (th_depth tA) (th_depth tB) = true) by (apply Qleb_iff; lra).
  rewrite race_schedule_parts, !run_schedule_app.
  (* the far thread passes the depth test *)
  assert (E1 : run_schedule [1%nat] [tA; tB] c = ([tA; goto PcMinLoad tB], c)).
  { cbn [run_schedule lookup list_lookup]. unfold frag_step. rewrite HpB, HB. reflexivity. }
  rewrite E1. cbn [fst snd].
  (* the near thread runs from its test to its last write *)
  rewrite (run_schedule_alone 0 [tA; goto PcMinLoad tB] c tA eq_refl HpA).
  cbn [fst snd list_insert insert]. unfold written_alone. rewrite HA.
  (* the far thread finds the depth lowered below its own, and writes *)
  erewrite (run_schedule_replicate 4 1 _ _ (goto PcMinLoad tB)) by reflexivity.
  rewrite frag_run_after_test by exact HAB. reflexivity.
Qed.

Lemma frag_thread_of_pc normalize cfg primitive x y t :
  frag_thread_of normalize cfg primitive x y = Some t -> th_pc t = PcTest.
Proof.
  unfold frag_thread_of.
  destruct (isBarycentricCoordInBounds _); [|discriminate].
  destruct (fragment_color _ _ _ _ _); [|discriminate].
  intros [= <-]. reflexivity.
Qed.

Lemma rd_lookup {A : Type} (buf : list A) (i : Z) (a : A) :
  rd buf i = Some a -> buf !! Z.to_nat i = Some a.
Proof. unfold rd. destruct (i <? 0)%Z; [discriminate|auto]. Qed.

(** The thread of the interleaved model is the body of the loops of
    [_rasterize]: run without interference, it changes the pixel as
    [pixel_body] does. *)
Lemma pixel_body_written_alone (normalize : vec3 -> vec3) (cfg : Config)
    (primitive : Primitive.t) (width x y : Z) (b : RasterBuffers)
    (t : frag_thread) (d0 : depthv) (f0 : Fragment.t) :
  USE_K_BUFFER cfg = false -> RENDER_DEPTH_ONLY cfg = false ->
  frag_thread_of normalize cfg primitive x y = Some t ->
  rd (depths b) (flat_index x y width) = Some d0 ->
  rd (fragmentBuffer b) (flat_index x y width) = Some f0 ->
  let c' := snd (frag_run 6 t (mkpixel_cell d0 f0)) in
  pixel_body normalize cfg primitive (primitive_tri primitive) width (x, y) b
  = Some (mkRasterBuffers
            (<[Z.to_nat (flat_index x y width) := px_frag c']> (fragmentBuffer b))
            (<[Z.to_nat (flat_index x y width) := px_depth c']> (depths b))
            (depthAccum b) (depthRevealage b)).
Proof.
  intros Hk Hd Ht Hd0 Hf0 c'. subst c'.
  rewrite frag_run_alone by (eapply frag_thread_of_pc; eauto). cbn [snd].
  unfold frag_thread_of in Ht. unfold pixel_body. cbv zeta in *.
  destruct (isBarycentricCoordInBounds _); [|discriminate].
  destruct (fragment_color _ _ _ _ _) as [color|] eqn:Hc; [|discriminate].
  injection Ht as <-. rewrite Hk, Hd0. cbn [mbind option_bind].
  unfold written_alone. cbn [th_depth th_nor th_mat th_color px_depth px_frag].
  destruct (depth_lt _ d0) eqn:Hlt.
  - rewrite fatomicMin_alone, (depth_lt_not_le _ _ Hlt). cbn [mbind option_bind fst].
    rewrite wr_Some by (eapply rd_Some_bounds; eauto). cbn [mbind option_bind].
    unfold fragment_section. cbn [fragmentBuffer depths depthAccum depthRevealage].
    rewrite Hd, Hk, Hc. cbn [mbind option_bind].
    destruct (upd_ok (fragmentBuffer b) (flat_index x y width)
                (set_eyeNor (getPerspectiveCorrectNormalAtCoordinate normalize
                   (calculateBarycentricCoordinate (primitive_tri primitive)
                      (mkvec2 (int_to_float x) (int_to_float y)))
                   (primitive_tri primitive)
                   (mkarr3 (VertexOut.eyeNor (a0 (Primitive.v primitive)))
                           (VertexOut.eyeNor (a1 (Primitive.v primitive)))
                           (VertexOut.eyeNor (a2 (Primitive.v primitive))))
                   (getPerspectiveCorrectZAtCoordinate
                      (calculateBarycentricCoordinate (primitive_tri primitive)
                         (mkvec2 (int_to_float x) (int_to_float y)))
                      (primitive_tri primitive))))
                f0 Hf0) as (fb1 & E1 & R1).
    pose proof E1 as E1'. rewrite (upd_Some _ _ _ _ Hf0) in E1'. injection E1' as <-.
    rewrite E1. cbn [mbind option_bind].
    rewrite (upd_Some _ _ _ _ R1). cbn [mbind option_bind].
    erewrite upd_Some; [|apply rd_insert_eq; rewrite length_insert; eapply rd_Some_bounds; eauto].
    cbn [mbind option_bind]. rewrite !list_insert_insert_eq. reflexivity.
  - rewrite !list_insert_id by (apply rd_lookup; assumption). destruct b; reflexivity.
Qed.

(** C1 fails on the code.  In standard depth-test mode the depth test
    (line 961), the lowering of the stored depth by [fatomicMin] and the
    writes of the fragment are separate accesses of a thread.  For every two
    threads about to test the same pixel, the first with the strictly
    smaller depth, and a stored depth above both, the schedule
    [race_schedule] lets both pass the test before either lowers the depth:
    all steps done, the pixel holds the smaller depth and the colour of the
    thread with the greater depth. *)
Theorem C1_depth_test_race (tA tB : frag_thread) (c : pixel_cell) :
  th_pc tA = PcTest -> th_pc tB = PcTest ->
  th_depth tA < th_depth tB ->
  depth_lt (th_depth tB) (px_depth c) = true ->
  let r := run_schedule race_schedule [tA; tB] c in
  forallb is_done (fst r) = true
  /\ px_depth (snd r) = Finite (th_depth tA)
  /\ Fragment.color (px_frag (snd r)) = th_color tB.
Proof.
  intros HpA HpB Hlt HB r. subst r.
  rewrite (run_race_schedule tA tB c HpA HpB Hlt HB). repeat split.
Qed.

Lemma C1_depth_test_race_witness :
  exists tnear tfar,
    frag_thread_of (fun v => v) default_config red_near 1 1 = Some tnear
    /\ frag_thread_of (fun v => v) default_config blue_far 1 1 = Some tfar
    /\ (th_pc tnear = PcTest /\ th_pc tfar = PcTest
        /\ th_depth tnear < th_depth tfar
        /\ depth_lt (th_depth tfar) (px_depth cleared_cell) = true)
    /\ th_color tnear = mkvec4 (255 / 255) (0 / 255) (0 / 255) 1
    /\ th_color tfar = mkvec4 (0 / 255) (0 / 255) (255 / 255) 1
    /\ Fragment.color (px_frag (snd (run_schedule race_schedule [tnear; tfar] cleared_cell)))
       = th_color tfar.
Proof.
  destruct (frag_thread_of (fun v => v) default_config red_near 1 1) as [tnear|] eqn:En;
    [|vm_compute in En; discriminate].
  destruct (frag_thread_of (fun v => v) default_config blue_far 1 1) as [tfar|] eqn:Ef;
    [|vm_compute in Ef; discriminate].
  exists tnear, tfar. split; [reflexivity|]. split; [reflexivity|].
  assert (H : th_pc tnear = PcTest /\ th_pc tfar = PcTest
              /\ th_depth tnear < th_depth tfar
              /\ depth_lt (th_depth tfar) (px_depth cleared_cell) = true).
  { vm_compute in En. vm_compute in Ef. injection En as <-. injection Ef as <-.
    repeat split. }
  split; [exact H|].
  split; [vm_compute in En; injection En as <-; reflexivity|].
  split; [vm_compute in Ef; injection Ef as <-; reflexivity|].
  destruct H as (H1 & H2 & H3 & H4).
  exact (proj2 (proj2 (C1_depth_test_race tnear tfar cleared_cell H1 H2 H3 H4))).
Defined.

(** The red triangle at depth 1/4 and the blue one at depth 1/2, at pixel
    (1,1) of a cleared image: run one after the other, in either order, the
    two threads leave red; interleaved by [race_schedule], they leave blue
    over the depth of the red one. *)
Example red_near_blue_far :
  let ths := [default (mkfrag_thread PcDone 0 zero_vec3 0 zero_vec4)
                (frag_thread_of (fun v => v) default_config red_near 1 1);
              default (mkfrag_thread PcDone 0 zero_vec3 0 zero_vec4)
                (frag_thread_of (fun v => v) default_config blue_far 1 1)] in
  let red := mkvec4 (255 / 255) (0 / 255) (0 / 255) 1 in
  let blue := mkvec4 (0 / 255) (0 / 255) (255 / 255) 1 in
  Fragment.color (px_frag (snd (run_schedule (alone 0 ++ alone 1) ths cleared_cell))) = red
  /\ Fragment.color (px_frag (snd (run_schedule (alone 1 ++ alone 0) ths cleared_cell))) = red
  /\ Fragment.color (px_frag (snd (run_schedule race_schedule ths cleared_cell))) = blue
  /\ forallb is_done (fst (run_schedule race_schedule ths cleared_cell)) = true.
Proof. repeat split; vm_compute; reflexivity. Qed.


(** The same two triangles through whole launches of [_rasterize] whose
    threads run one after the other: in either order of the primitive array
    pixel (1,1) ends red, at the depth of the red triangle. *)
Example sequential_launch_either_order :
  let red := mkvec4 (255 / 255) (0 / 255) (0 / 255) 1 in
  let colour_at_1_1 (prims : list Primitive.t) : option vec4 :=
    b ← launch_rasterize (fun v => v) default_config 2 prims 9 9 (cleared_buffers 9 9);
    Fragment.color <$> rd (fragmentBuffer b) (flat_index 1 1 9) in
  colour_at_1_1 [red_near; blue_far] = Some red
  /\ colour_at_1_1 [blue_far; red_near] = Some red.
Proof. split; vm_compute; reflexivity. Qed.

(** * Further properties *)

(** ** Barycentric coordinates *)

Lemma signed_area_swap12 (tri : arr3 vec3) :
  calculateSignedArea (arr3_swap12 tri) == - calculateSignedArea tri.
Proof. unfold calculateSignedArea, arr3_swap12; cbn. ring. Qed.

Lemma barycentric_reconstruction (tri : arr3 vec3) (point : vec2) :
  ~ calculateSignedArea tri == 0 ->
  let b := calculateBarycentricCoordinate tri point in
  x3 b + y3 b + z3 b == 1
  /\ x3 b * x3 (a0 tri) + y3 b * x3 (a1 tri) + z3 b * x3 (a2 tri) == x2 point
  /\ x3 b * y3 (a0 tri) + y3 b * y3 (a1 tri) + z3 b * y3 (a2 tri) == y2 point.
Proof.
  intros Harea b. subst b.
  unfold calculateBarycentricCoordinate, calculateBarycentricCoordinateValue.
  unfold calculateSignedArea in *. cbn in *.
  repeat split; field; intros H; apply Harea; rewrite H; ring.
Qed.



(** X2.  For a triangle of non-zero signed area, the barycentric coordinate
    of each corner is the unit vector of that corner: (1,0,0) at the first,
    (0,1,0) at the second, (0,0,1) at the third; so each corner passes the
    rasterizer's point-in-triangle test. *)
Theorem X2_barycentric_at_corners (tri : arr3 vec3) :
  ~ calculateSignedArea tri == 0 ->
  vec3_eq (calculateBarycentricCoordinate tri (corner_point (a0 tri))) (mkvec3 1 0 0)
  /\ vec3_eq (calculateBarycentricCoordinate tri (corner_point (a1 tri))) (mkvec3 0 1 0)
  /\ vec3_eq (calculateBarycentricCoordinate tri (corner_point (a2 tri))) (mkvec3 0 0 1)
  /\ isBarycentricCoordInBounds
       (calculateBarycentricCoordinate tri (corner_point (a0 tri))) = true
  /\ isBarycentricCoordInBounds
       (calculateBarycentricCoordinate tri (corner_point (a1 tri))) = true
  /\ isBarycentricCoordInBounds
       (calculateBarycentricCoordinate tri (corner_point (a2 tri))) = true.
Proof.
  intros Harea.
  assert (Hne : ~ (x3 (a2 tri) - x3 (a0 tri)) * (y3 (a1 tri) - y3 (a0 tri))
                  - (x3 (a1 tri) - x3 (a0 tri)) * (y3 (a2 tri) - y3 (a0 tri)) == 0).
  { intros H. apply Harea. unfold calculateSignedArea. rewrite H. ring. }
  assert (E0 : vec3_eq (calculateBarycentricCoordinate tri (corner_point (a0 tri)))
                 (mkvec3 1 0 0)).
  { unfold vec3_eq, calculateBarycentricCoordinate, calculateBarycentricCoordinateValue,
      calculateSignedArea, corner_point; cbn. repeat split; field; exact Hne. }
  assert (E1 : vec3_eq (calculateBarycentricCoordinate tri (corner_point (a1 tri)))
                 (mkvec3 0 1 0)).
  { unfold vec3_eq, calculateBarycentricCoordinate, calculateBarycentricCoordinateValue,
      calculateSignedArea, corner_point; cbn. repeat split; field; exact Hne. }
  assert (E2 : vec3_eq (calculateBarycentricCoordinate tri (corner_point (a2 tri)))
                 (mkvec3 0 0 1)).
  { unfold vec3_eq, calculateBarycentricCoordinate, calculateBarycentricCoordinateValue,
      calculateSignedArea, corner_point; cbn. repeat split; field; exact Hne. }
  repeat split; try apply E0; try apply E1; try apply E2;
    apply isBarycentricCoordInBounds_iff; unfold in01;
    [destruct E0 as (-> & -> & ->) | destruct E1 as (-> & -> & ->)
    | destruct E2 as (-> & -> & ->)]; cbn; repeat split; lra.
Qed.

Lemma X2_barycentric_at_corners_witness :
  ~ calculateSignedArea rising_tri == 0
  /\ vec3_eq (calculateBarycentricCoordinate rising_tri (corner_point (a1 rising_tri)))
       (mkvec3 0 1 0).
Proof.
  assert (H : ~ calculateSignedArea rising_tri == 0) by (vm_compute; discriminate).
  split; [exact H|]. exact (proj1 (proj2 (X2_barycentric_at_corners rising_tri H))).
Defined.

Lemma Qleb_proper (a a' b b' : Q) : a == a' -> b == b' -> Qleb a b = Qleb a' b'.
Proof.
  intros Ha Hb. apply eq_true_iff_eq. rewrite !Qleb_iff, Ha, Hb. reflexivity.
Qed.

Lemma isBarycentricCoordInBounds_proper (b b' : vec3) :
  vec3_eq b b' -> isBarycentricCoordInBounds b = isBarycentricCoordInBounds b'.
Proof.
  intros (Hx & Hy & Hz). unfold isBarycentricCoordInBounds.
  rewrite (Qleb_proper 0 0 (x3 b) (x3 b')), (Qleb_proper (x3 b) (x3 b') 1 1),
    (Qleb_proper 0 0 (y3 b) (y3 b')), (Qleb_proper (y3 b) (y3 b') 1 1),
    (Qleb_proper 0 0 (z3 b) (z3 b')), (Qleb_proper (z3 b) (z3 b') 1 1);
    (reflexivity || assumption).
Qed.

Lemma Qdiv_opp_opp (a b : Q) : (- a) / (- b) == a / b.
Proof.
  destruct (Qeq_dec b 0) as [Hb|Hb].
  - rewrite Hb. unfold Qdiv. assert (E : / - 0 == 0) by reflexivity.
    assert (E' : / 0 == 0) by reflexivity. rewrite E, E'. ring.
  - field. exact Hb.
Qed.

Lemma barycentric_swap12 (tri : arr3 vec3) (point : vec2) :
  vec3_eq (calculateBarycentricCoordinate (arr3_swap12 tri) point)
    (mkvec3 (x3 (calculateBarycentricCoordinate tri point))
            (z3 (calculateBarycentricCoordinate tri point))
            (y3 (calculateBarycentricCoordinate tri point))).
Proof.
  assert (Hbeta : calculateBarycentricCoordinateValue
                    (mkvec2 (x3 (a0 tri)) (y3 (a0 tri))) point
                    (mkvec2 (x3 (a1 tri)) (y3 (a1 tri))) (arr3_swap12 tri)
                  == calculateBarycentricCoordinateValue
                       (mkvec2 (x3 (a0 tri)) (y3 (a0 tri)))
                       (mkvec2 (x3 (a1 tri)) (y3 (a1 tri))) point tri).
  { unfold calculateBarycentricCoordinateValue. rewrite signed_area_swap12.
    etransitivity; [|apply Qdiv_opp_opp]. apply Qdiv_comp; [|reflexivity].
    unfold calculateSignedArea; cbn. ring. }
  assert (Hgamma : calculateBarycentricCoordinateValue
                     (mkvec2 (x3 (a0 tri)) (y3 (a0 tri)))
                     (mkvec2 (x3 (a2 tri)) (y3 (a2 tri))) point (arr3_swap12 tri)
                   == calculateBarycentricCoordinateValue
                        (mkvec2 (x3 (a0 tri)) (y3 (a0 tri))) point
                        (mkvec2 (x3 (a2 tri)) (y3 (a2 tri))) tri).
  { unfold calculateBarycentricCoordinateValue. rewrite signed_area_swap12.
    etransitivity; [|apply Qdiv_opp_opp]. apply Qdiv_comp; [|reflexivity].
    unfold calculateSignedArea; cbn. ring. }
  unfold vec3_eq, calculateBarycentricCoordinate; cbn [x3 y3 z3 a0 a1 a2 arr3_swap12].
  rewrite Hbeta, Hgamma. repeat split; ring.
Qed.

Lemma pixel_accepted_swap12 (tri : arr3 vec3) (x y : Z) :
  pixel_accepted (arr3_swap12 tri) x y = pixel_accepted tri x y.
Proof.
  unfold pixel_accepted.
  rewrite (isBarycentricCoordInBounds_proper _ _ (barycentric_swap12 tri _)).
  unfold isBarycentricCoordInBounds; cbn [x3 y3 z3].
  destruct (Qleb 0 (x3 _)), (Qleb (x3 _) 1), (Qleb 0 (y3 _)), (Qleb (y3 _) 1),
    (Qleb 0 (z3 _)), (Qleb (z3 _) 1); reflexivity.
Qed.

(** X3.  Exchanging the second and third corner of a triangle negates its
    signed area and exchanges the second and third barycentric component of
    every point; the rasterizer's point-in-triangle test therefore accepts
    the same pixels for both windings of a triangle. *)
Theorem X3_acceptance_independent_of_winding (tri : arr3 vec3) (x y : Z) :
  calculateSignedArea (arr3_swap12 tri) == - calculateSignedArea tri
  /\ (forall point : vec2,
        let b := calculateBarycentricCoordinate tri point in
        vec3_eq (calculateBarycentricCoordinate (arr3_swap12 tri) point)
                (mkvec3 (x3 b) (z3 b) (y3 b)))
  /\ pixel_accepted (arr3_swap12 tri) x y = pixel_accepted tri x y.
Proof.
  split; [apply signed_area_swap12|]. split; [apply barycentric_swap12|].
  apply pixel_accepted_swap12.
Qed.

(** ** Perspective-correct interpolation of attributes *)










(** ** What a thread of the rasterizer leaves alone *)

Lemma run_all_preserves {I S : Type} (R : S -> S -> Prop) (body : I -> S -> option S) :
  (forall s, R s s) ->
  (forall a b c, R a b -> R b c -> R a c) ->
  (forall i s s', body i s = Some s' -> R s s') ->
  forall ids s s', run_all body ids s = Some s' -> R s s'.
Proof.
  intros Hrefl Htrans Hbody ids. induction ids as [|i ids IH]; intros s s' H; cbn in H.
  - injection H as <-. apply Hrefl.
  - destruct (body i s) as [s1|] eqn:E; [|discriminate].
    eapply Htrans; [eapply Hbody; exact E|apply IH; exact H].
Qed.

Lemma fragment_section_inv (normalize : vec3 -> vec3) (cfg : Config)
    (primitive : Primitive.t) (tri : arr3 vec3) (bary : vec3) (index : Z) (depth : Q)
    (b b' : RasterBuffers) :
  fragment_section normalize cfg primitive tri bary index depth b = Some b' ->
  exists f0 f',
    rd (fragmentBuffer b) index = Some f0
    /\ fragmentBuffer b' = <[Z.to_nat index := f']> (fragmentBuffer b)
    /\ Fragment.eyePos f' = Fragment.eyePos f0
    /\ depths b' = depths b
    /\ length (depthAccum b') = length (depthAccum b)
    /\ length (depthRevealage b') = length (depthRevealage b)
    /\ (USE_K_BUFFER cfg = false ->
        depthAccum b' = depthAccum b /\ depthRevealage b' = depthRevealage b).
Proof.
  unfold fragment_section. intros H.
  apply bind_Some in H as (fb1 & H1 & H).
  apply bind_Some in H as (fb2 & H2 & H).
  apply bind_Some in H as (color & Hc & H).
  apply bind_Some in H as (fb3 & H3 & H).
  assert (Hfb1 : exists f0 f1, rd (fragmentBuffer b) index = Some f0
                   /\ rd fb1 index = Some f1
                   /\ fb1 = <[Z.to_nat index := f1]> (fragmentBuffer b)
                   /\ Fragment.eyePos f1 = Fragment.eyePos f0).
  { destruct (RENDER_DEPTH_ONLY cfg).
    - apply upd_inv in H1 as (f0 & Hf0 & ->). exists f0, (set_depth (Qabs depth) f0).
      split; [exact Hf0|]. split; [|split; reflexivity].
      apply rd_insert_eq. eapply rd_Some_bounds; eauto.
    - injection H1 as <-.
      apply upd_inv in H2 as (f0 & Hf0 & _). exists f0, f0.
      split; [exact Hf0|]. split; [exact Hf0|]. split; [|reflexivity].
      symmetry. apply list_insert_id. apply rd_lookup. exact Hf0. }
  destruct Hfb1 as (f0 & f1 & Hf0 & Hf1 & -> & Ep1).
  apply upd_inv in H2 as (f1' & Hf1' & ->). rewrite Hf1 in Hf1'. injection Hf1' as <-.
  rewrite list_insert_insert_eq in *.
  pose proof (rd_Some_bounds _ _ _ Hf0) as Bf.
  apply upd_inv in H3 as (f2 & Hf2 & ->).
  rewrite rd_insert_eq in Hf2 by exact Bf. injection Hf2 as <-.
  rewrite list_insert_insert_eq in *.
  destruct (USE_K_BUFFER cfg).
  - apply bind_Some in H as (acc & Ha & H).
    apply bind_Some in H as (rev & Hr & H).
    apply bind_Some in H as (fb4 & H4 & H). injection H as <-.
    apply upd_inv in H4 as (f3 & Hf3 & ->).
    rewrite rd_insert_eq in Hf3 by exact Bf. injection Hf3 as <-.
    rewrite list_insert_insert_eq.
    apply upd_inv in Ha as (a0' & _ & ->). apply wr_inv in Hr as (_ & ->).
    cbn [fragmentBuffer depths depthAccum depthRevealage].
    eexists f0, _. split; [exact Hf0|]. split; [reflexivity|]. split; [exact Ep1|].
    split; [reflexivity|]. rewrite !length_insert. repeat split; discriminate.
  - apply bind_Some in H as (fb4 & H4 & H). injection H as <-.
    apply upd_inv in H4 as (f3 & Hf3 & ->).
    rewrite rd_insert_eq in Hf3 by exact Bf. injection Hf3 as <-.
    rewrite list_insert_insert_eq.
    cbn [fragmentBuffer depths depthAccum depthRevealage].
    eexists f0, _. split; [exact Hf0|]. split; [reflexivity|]. split; [exact Ep1|].
    repeat split.
Qed.

Lemma depthv_lt_trans (a b c : depthv) : depthv_lt a b -> depthv_lt b c -> depthv_lt a c.
Proof.
  destruct a, b, c; cbn; try tauto. intros; lra.
Qed.

Lemma depth_lt_depthv_lt (depth : Q) (stored : depthv) :
  depth_lt depth stored = true -> depthv_lt (Finite depth) stored.
Proof. destruct stored; cbn; [apply Qltb_iff|trivial]. Qed.

Lemma same_lengths_refl (b : RasterBuffers) : same_lengths b b.
Proof. repeat split. Qed.

Lemma same_lengths_trans (a b c : RasterBuffers) :
  same_lengths a b -> same_lengths b c -> same_lengths a c.
Proof. unfold same_lengths. intros (? & ? & ? & ?) (? & ? & ? & ?). repeat split; congruence. Qed.

Lemma depth_tested_refl (b : RasterBuffers) : depth_tested b b.
Proof. split; [apply same_lengths_refl|]. repeat split. intros j. left. split; reflexivity. Qed.

Lemma depth_tested_trans (a b c : RasterBuffers) :
  depth_tested a b -> depth_tested b c -> depth_tested a c.
Proof.
  intros (L1 & A1 & R1 & H1) (L2 & A2 & R2 & H2).
  split; [eapply same_lengths_trans; eauto|]. split; [congruence|]. split; [congruence|].
  intros j. destruct (H1 j) as [[D1 F1]|(d & d' & E & E' & Hlt)],
    (H2 j) as [[D2 F2]|(e & e' & G & G' & Hlt')].
  - left. split; congruence.
  - right. exists e, e'. rewrite <- D1. auto.
  - right. exists d, d'. rewrite D2. auto.
  - right. exists d, e'. split; [exact E|]. split; [exact G'|].
    rewrite E' in G. injection G as <-. eapply depthv_lt_trans; eauto.
Qed.

Section PixelBody.
Variables (normalize : vec3 -> vec3) (cfg : Config).

Lemma pixel_body_depth_tested (primitive : Primitive.t) (tri : arr3 vec3) (width : Z)
    (xy : Z * Z) (b b' : RasterBuffers) :
  USE_K_BUFFER cfg = false ->
  pixel_body normalize cfg primitive tri width xy b = Some b' -> depth_tested b b'.
Proof.
  intros Hk. unfold pixel_body. destruct xy as [x y]. cbv zeta. rewrite Hk.
  destruct (isBarycentricCoordInBounds _); [|intros [= <-]; apply depth_tested_refl].
  intros H. apply bind_Some in H as (stored & Hs & H).
  destruct (depth_lt _ stored) eqn:Hlt; [|injection H as <-; apply depth_tested_refl].
  apply bind_Some in H as (r & Hr & H). apply bind_Some in H as (depths' & Hw & H).
  rewrite fatomicMin_alone, (depth_lt_not_le _ _ Hlt) in Hr. injection Hr as <-.
  cbn [fst] in Hw. apply wr_inv in Hw as (Bd & ->).
  apply fragment_section_inv in H as (f0 & f' & Hf0 & Ef & _ & Ed & La & Lr & Hn).
  cbn [fragmentBuffer depths depthAccum depthRevealage] in *.
  destruct (Hn Hk) as [Ea Er].
  split; [|split; [exact Ea|split; [exact Er|]]].
  - unfold same_lengths. rewrite Ef, Ed, Ea, Er, !length_insert. repeat split.
  - intros j. rewrite Ef, Ed. destruct (Nat.eq_dec (Z.to_nat (flat_index x y width)) j) as [<-|Hne].
    + right. exists stored, (Finite (getPerspectiveCorrectZAtCoordinate
                 (calculateBarycentricCoordinate tri (mkvec2 (int_to_float x) (int_to_float y)))
                 tri)).
      split; [apply rd_lookup; exact Hs|]. split; [apply list_lookup_insert_eq; lia|].
      apply depth_lt_depthv_lt. exact Hlt.
    + left. rewrite !list_lookup_insert_ne by exact Hne. split; reflexivity.
Qed.

Lemma pixel_body_kbuffer_depths (primitive : Primitive.t) (tri : arr3 vec3) (width : Z)
    (xy : Z * Z) (b b' : RasterBuffers) :
  USE_K_BUFFER cfg = true ->
  pixel_body normalize cfg primitive tri width xy b = Some b' -> depths b' = depths b.
Proof.
  intros Hk. unfold pixel_body. destruct xy as [x y]. cbv zeta. rewrite Hk.
  destruct (isBarycentricCoordInBounds _); [|intros [= <-]; reflexivity].
  intros H. apply fragment_section_inv in H as (_ & _ & _ & _ & _ & Ed & _). exact Ed.
Qed.

Lemma pixel_body_eyePos (primitive : Primitive.t) (tri : arr3 vec3) (width : Z)
    (xy : Z * Z) (b b' : RasterBuffers) :
  pixel_body normalize cfg primitive tri width xy b = Some b' ->
  same_lengths b b' /\ eyePos_of (fragmentBuffer b') = eyePos_of (fragmentBuffer b).
Proof.
  assert (Hsec : forall index depth bary b0 b1,
             fragment_section normalize cfg primitive tri bary index depth b0 = Some b1 ->
             length (depths b1) = length (depths b0) ->
             same_lengths b0 b1
             /\ eyePos_of (fragmentBuffer b1) = eyePos_of (fragmentBuffer b0)).
  { intros index depth bary b0 b1 H Ld.
    apply fragment_section_inv in H as (f0 & f' & Hf0 & Ef & Ep & Ed & La & Lr & _).
    split.
    - unfold same_lengths. rewrite Ef, length_insert. auto.
    - unfold eyePos_of. rewrite Ef, list_fmap_insert, Ep. apply list_insert_id.
      rewrite list_lookup_fmap, (rd_lookup _ _ _ Hf0). reflexivity. }
  unfold pixel_body. destruct xy as [x y]. cbv zeta.
  destruct (isBarycentricCoordInBounds _);
    [|intros [= <-]; split; [apply same_lengths_refl|reflexivity]].
  destruct (USE_K_BUFFER cfg).
  - intros H. apply Hsec in H; [exact H|].
    apply fragment_section_inv in H as (_ & _ & _ & _ & _ & Ed & _). congruence.
  - intros H. apply bind_Some in H as (stored & Hs & H).
    destruct (depth_lt _ stored) eqn:Hlt;
      [|injection H as <-; split; [apply same_lengths_refl|reflexivity]].
    apply bind_Some in H as (r & Hr & H). apply bind_Some in H as (depths' & Hw & H).
    apply wr_inv in Hw as (Bd & ->).
    pose proof H as H'.
    apply fragment_section_inv in H' as (_ & _ & _ & _ & _ & Ed & _).
    apply Hsec in H; [|congruence].
    cbn [fragmentBuffer depths depthAccum depthRevealage] in *.
    destruct H as [(L1 & L2 & L3 & L4) Ep]. split; [|exact Ep].
    unfold same_lengths. cbn [fragmentBuffer depths depthAccum depthRevealage] in *.
    rewrite length_insert in L2. auto.
Qed.

End PixelBody.

Lemma rasterize_thread_preserves (R : RasterBuffers -> RasterBuffers -> Prop)
    (normalize : vec3 -> vec3) (cfg : Config) :
  (forall s, R s s) ->
  (forall a b c, R a b -> R b c -> R a c) ->
  (forall primitive tri width xy s s',
      pixel_body normalize cfg primitive tri width xy s = Some s' -> R s s') ->
  forall numPrimitives primitives width height pid b b',
    _rasterize normalize cfg numPrimitives primitives width height pid b = Some b' ->
    R b b'.
Proof.
  intros Hrefl Htrans Hbody numPrimitives primitives width height pid b b'.
  unfold _rasterize. destruct (pid <? numPrimitives)%Z; [|intros [= <-]; apply Hrefl].
  intros H. apply bind_Some in H as (primitive & _ & H).
  destruct (_ && _); [injection H as <-; apply Hrefl|].
  eapply (run_all_preserves R); eauto.
Qed.

Lemma launch_rasterize_preserves (R : RasterBuffers -> RasterBuffers -> Prop)
    (normalize : vec3 -> vec3) (cfg : Config) :
  (forall s, R s s) ->
  (forall a b c, R a b -> R b c -> R a c) ->
  (forall primitive tri width xy s s',
      pixel_body normalize cfg primitive tri width xy s = Some s' -> R s s') ->
  forall numPrimitives primitives width height b b',
    launch_rasterize normalize cfg numPrimitives primitives width height b = Some b' ->
    R b b'.
Proof.
  intros Hrefl Htrans Hbody numPrimitives primitives width height b b'.
  unfold launch_rasterize. apply (run_all_preserves R); [assumption..|].
  intros pid s s'. apply rasterize_thread_preserves; assumption.
Qed.

(** X6.  In standard depth-test mode a launch of the rasterizer whose threads
    run one after the other never raises a stored depth and never writes a
    fragment without strictly lowering the depth of its cell: every cell
    either keeps its depth and its fragment, or ends with a strictly
    smaller depth.  The buffers keep their lengths and the two k-buffer
    arrays are not touched. *)
Theorem X6_depth_only_lowered (normalize : vec3 -> vec3) (cfg : Config)
    (numPrimitives : Z) (primitives : list Primitive.t) (width height : Z)
    (b b' : RasterBuffers) :
  USE_K_BUFFER cfg = false ->
  launch_rasterize normalize cfg numPrimitives primitives width height b = Some b' ->
  depth_tested b b'.
Proof.
  intros Hk. apply (launch_rasterize_preserves depth_tested).
  - apply depth_tested_refl.
  - apply depth_tested_trans.
  - intros. eapply pixel_body_depth_tested; eauto.
Qed.

Lemma X6_depth_only_lowered_witness :
  USE_K_BUFFER default_config = false
  /\ exists b',
       launch_rasterize (fun v => v) default_config 2 [blue_far; red_near] 9 9
         (cleared_buffers 9 9) = Some b'
       /\ depth_tested (cleared_buffers 9 9) b'.
Proof.
  split; [reflexivity|].
  destruct (launch_rasterize (fun v => v) default_config 2 [blue_far; red_near] 9 9
              (cleared_buffers 9 9)) as [b'|] eqn:E; [|vm_compute in E; discriminate].
  exists b'. split; [reflexivity|].
  exact (X6_depth_only_lowered (fun v => v) default_config 2 [blue_far; red_near] 9 9
           (cleared_buffers 9 9) b' eq_refl E).
Defined.

(** X7.  Under USE_K_BUFFER the rasterizer neither tests nor writes the depth
    buffer: after a launch the depth buffer is what it was. *)
Theorem X7_kbuffer_leaves_depth_buffer (normalize : vec3 -> vec3) (cfg : Config)
    (numPrimitives : Z) (primitives : list Primitive.t) (width height : Z)
    (b b' : RasterBuffers) :
  USE_K_BUFFER cfg = true ->
  launch_rasterize normalize cfg numPrimitives primitives width height b = Some b' ->
  depths b' = depths b.
Proof.
  intros Hk.
  apply (launch_rasterize_preserves (fun s s' => depths s' = depths s)).
  - reflexivity.
  - intros; congruence.
  - intros. eapply pixel_body_kbuffer_depths; eauto.
Qed.

Lemma X7_kbuffer_leaves_depth_buffer_witness :
  USE_K_BUFFER kbuffer_config = true
  /\ exists b',
       launch_rasterize (fun v => v) kbuffer_config 2 [blue_far; red_near] 9 9
         (cleared_buffers 9 9) = Some b'
       /\ depths b' = depths (cleared_buffers 9 9).
Proof.
  split; [reflexivity|].
  destruct (launch_rasterize (fun v => v) kbuffer_config 2 [blue_far; red_near] 9 9
              (cleared_buffers 9 9)) as [b'|] eqn:E; [|vm_compute in E; discriminate].
  exists b'. split; [reflexivity|].
  exact (X7_kbuffer_leaves_depth_buffer (fun v => v) kbuffer_config 2 [blue_far; red_near]
           9 9 (cleared_buffers 9 9) b' eq_refl E).
Defined.

(** X8.  In every configuration the rasterizer never writes the eye-space
    position of a fragment: after a launch each fragment holds the [eyePos]
    it held before (the zero of the frame's clear), and the four buffers
    keep their lengths. *)
Theorem X8_rasterizer_never_writes_eyePos (normalize : vec3 -> vec3) (cfg : Config)
    (numPrimitives : Z) (primitives : list Primitive.t) (width height : Z)
    (b b' : RasterBuffers) :
  launch_rasterize normalize cfg numPrimitives primitives width height b = Some b' ->
  same_lengths b b' /\ eyePos_of (fragmentBuffer b') = eyePos_of (fragmentBuffer b).
Proof.
  apply (launch_rasterize_preserves
           (fun s s' => same_lengths s s'
                        /\ eyePos_of (fragmentBuffer s') = eyePos_of (fragmentBuffer s))).
  - intros s. split; [apply same_lengths_refl|reflexivity].
  - intros a0 b0 c0 [L1 E1] [L2 E2]. split; [eapply same_lengths_trans; eauto|congruence].
  - intros. eapply pixel_body_eyePos; eauto.
Qed.

Lemma X8_rasterizer_never_writes_eyePos_witness :
  exists b',
    launch_rasterize (fun v => v) default_config 2 [blue_far; red_near] 9 9
      (cleared_buffers 9 9) = Some b'
    /\ eyePos_of (fragmentBuffer b') = replicate 81 zero_vec3.
Proof.
  destruct (launch_rasterize (fun v => v) default_config 2 [blue_far; red_near] 9 9
              (cleared_buffers 9 9)) as [b'|] eqn:E; [|vm_compute in E; discriminate].
  exists b'. split; [reflexivity|].
  destruct (X8_rasterizer_never_writes_eyePos (fun v => v) default_config 2
              [blue_far; red_near] 9 9 (cleared_buffers 9 9) b' E) as [_ Ep].
  rewrite Ep. reflexivity.
Defined.

(** ** Two fragments of one pixel, one after the other *)

Lemma pixel_body_alone (normalize : vec3 -> vec3) (cfg : Config)
    (primitive : Primitive.t) (width x y : Z) (b : RasterBuffers)
    (t : frag_thread) (d0 : depthv) (f0 : Fragment.t) :
  USE_K_BUFFER cfg = false -> RENDER_DEPTH_ONLY cfg = false ->
  frag_thread_of normalize cfg primitive x y = Some t ->
  rd (depths b) (flat_index x y width) = Some d0 ->
  rd (fragmentBuffer b) (flat_index x y width) = Some f0 ->
  pixel_body normalize cfg primitive (primitive_tri primitive) width (x, y) b
  = Some (mkRasterBuffers
            (<[Z.to_nat (flat_index x y width)
                 := px_frag (written_alone t (mkpixel_cell d0 f0))]> (fragmentBuffer b))
            (<[Z.to_nat (flat_index x y width)
                 := px_depth (written_alone t (mkpixel_cell d0 f0))]> (depths b))
            (depthAccum b) (depthRevealage b)).
Proof.
  intros Hk Hd Ht Hd0 Hf0.
  rewrite (pixel_body_written_alone normalize cfg primitive width x y b t d0 f0
             Hk Hd Ht Hd0 Hf0).
  rewrite frag_run_alone by (eapply frag_thread_of_pc; eauto). reflexivity.
Qed.

(** X9.  In standard depth-test mode, the bodies of the rasterizer's loops
    for two primitives that both cover a pixel, with distinct depths below
    the stored one, commute when run one after the other: both orders end
    in the same buffers, whose cell holds the smaller depth and the normal,
    material and colour of the nearer primitive. *)
Theorem X9_two_fragments_commute (normalize : vec3 -> vec3) (cfg : Config)
    (pA pB : Primitive.t) (width x y : Z) (b : RasterBuffers)
    (tA tB : frag_thread) (d0 : depthv) (f0 : Fragment.t) :
  USE_K_BUFFER cfg = false -> RENDER_DEPTH_ONLY cfg = false ->
  frag_thread_of normalize cfg pA x y = Some tA ->
  frag_thread_of normalize cfg pB x y = Some tB ->
  th_depth tA < th_depth tB ->
  rd (depths b) (flat_index x y width) = Some d0 ->
  depth_lt (th_depth tA) d0 = true ->
  rd (fragmentBuffer b) (flat_index x y width) = Some f0 ->
  let body p := pixel_body normalize cfg p (primitive_tri p) width (x, y) in
  exists b1,
    (body pA b ≫= body pB) = Some b1
    /\ (body pB b ≫= body pA) = Some b1
    /\ rd (depths b1) (flat_index x y width) = Some (Finite (th_depth tA))
    /\ rd (fragmentBuffer b1) (flat_index x y width)
       = Some (Fragment.mk (th_color tA) (Fragment.eyePos f0) (th_nor tA)
                 (Fragment.depth f0) (th_mat tA)).
Proof.
  intros Hk Hd HtA HtB Hlt Hd0 HA Hf0 body. subst body.
  set (i := flat_index x y width) in *.
  pose proof (rd_Some_bounds _ _ _ Hd0) as Bd. pose proof (rd_Some_bounds _ _ _ Hf0) as Bf.
  set (fA := Fragment.mk (th_color tA) (Fragment.eyePos f0) (th_nor tA)
               (Fragment.depth f0) (th_mat tA)).
  exists (mkRasterBuffers (<[Z.to_nat i := fA]> (fragmentBuffer b))
            (<[Z.to_nat i := Finite (th_depth tA)]> (depths b))
            (depthAccum b) (depthRevealage b)).
  assert (EA : written_alone tA (mkpixel_cell d0 f0) = mkpixel_cell (Finite (th_depth tA)) fA).
  { unfold written_alone. cbn [px_depth px_frag]. rewrite HA. reflexivity. }
  split; [|split; [|split]].
  - rewrite (pixel_body_alone normalize cfg pA width x y b tA d0 f0 Hk Hd HtA Hd0 Hf0).
    fold i. rewrite EA. cbn [mbind option_bind px_frag px_depth].
    erewrite (pixel_body_alone normalize cfg pB width x y _ tB (Finite (th_depth tA)) fA
                Hk Hd HtB);
      [|apply rd_insert_eq; exact Bd|apply rd_insert_eq; exact Bf].
    fold i. cbn [fragmentBuffer depths depthAccum depthRevealage].
    unfold written_alone. cbn [px_depth px_frag depth_lt].
    assert (E : Qltb (th_depth tB) (th_depth tA) = false)
      by (apply not_true_iff_false; rewrite Qltb_iff; lra).
    rewrite E. cbn [px_depth px_frag]. rewrite !list_insert_insert_eq. reflexivity.
  - rewrite (pixel_body_alone normalize cfg pB width x y b tB d0 f0 Hk Hd HtB Hd0 Hf0).
    fold i. cbn [mbind option_bind].
    set (cB := written_alone tB (mkpixel_cell d0 f0)).
    erewrite (pixel_body_alone normalize cfg pA width x y _ tA (px_depth cB) (px_frag cB)
                Hk Hd HtA);
      [|apply rd_insert_eq; exact Bd|apply rd_insert_eq; exact Bf].
    fold i. cbn [fragmentBuffer depths depthAccum depthRevealage].
    assert (E : written_alone tA (mkpixel_cell (px_depth cB) (px_frag cB))
                = mkpixel_cell (Finite (th_depth tA)) fA).
    { unfold written_alone at 1. cbn [px_depth px_frag].
      assert (HAB : depth_lt (th_depth tA) (px_depth cB) = true).
      { unfold cB, written_alone. cbn [px_depth].
        destruct (depth_lt (th_depth tB) d0); cbn [px_depth]; [|exact HA].
        apply Qltb_iff. exact Hlt. }
      rewrite HAB. f_equal. unfold cB, written_alone. cbn [px_depth px_frag].
      destruct (depth_lt (th_depth tB) d0); destruct f0; reflexivity. }
    rewrite E. cbn [px_depth px_frag]. rewrite !list_insert_insert_eq. reflexivity.
  - cbn [depths]. apply rd_insert_eq. exact Bd.
  - cbn [fragmentBuffer]. apply rd_insert_eq. exact Bf.
Qed.

Lemma X9_two_fragments_commute_witness :
  exists tA tB b1,
    (USE_K_BUFFER default_config = false /\ RENDER_DEPTH_ONLY default_config = false
     /\ frag_thread_of (fun v => v) default_config red_near 1 1 = Some tA
     /\ frag_thread_of (fun v => v) default_config blue_far 1 1 = Some tB
     /\ th_depth tA < th_depth tB
     /\ rd (depths (cleared_buffers 9 9)) (flat_index 1 1 9) = Some Infinity
     /\ depth_lt (th_depth tA) Infinity = true
     /\ rd (fragmentBuffer (cleared_buffers 9 9)) (flat_index 1 1 9) = Some zero_fragment)
    /\ (pixel_body (fun v => v) default_config red_near (primitive_tri red_near) 9
          (1%Z, 1%Z) (cleared_buffers 9 9)
        ≫= pixel_body (fun v => v) default_config blue_far (primitive_tri blue_far) 9
             (1%Z, 1%Z)) = Some b1
    /\ (pixel_body (fun v => v) default_config blue_far (primitive_tri blue_far) 9
          (1%Z, 1%Z) (cleared_buffers 9 9)
        ≫= pixel_body (fun v => v) default_config red_near (primitive_tri red_near) 9
             (1%Z, 1%Z)) = Some b1
    /\ (Fragment.color <$> rd (fragmentBuffer b1) (flat_index 1 1 9)) = Some (th_color tA).
Proof.
  destruct (frag_thread_of (fun v => v) default_config red_near 1 1) as [tA|] eqn:EA;
    [|vm_compute in EA; discriminate].
  destruct (frag_thread_of (fun v => v) default_config blue_far 1 1) as [tB|] eqn:EB;
    [|vm_compute in EB; discriminate].
  assert (Hlt : th_depth tA < th_depth tB).
  { vm_compute in EA. vm_compute in EB. injection EA as <-. injection EB as <-.
    reflexivity. }
  destruct (X9_two_fragments_commute (fun v => v) default_config red_near blue_far 9 1 1
              (cleared_buffers 9 9) tA tB Infinity zero_fragment
              eq_refl eq_refl EA EB Hlt eq_refl eq_refl eq_refl)
    as (b1 & H1 & H2 & _ & H4).
  exists tA, tB, b1. split; [repeat split; assumption|].
  split; [exact H1|]. split; [exact H2|]. rewrite H4. reflexivity.
Defined.

(** ** [fatomicMin] and the k-buffer weights *)


(** X11.  The alpha the k-buffer gives a fragment lies in [0, 1/10] and the
    weight of a fragment lies in [1/100, 300], whatever the colour, the
    alpha and the depth. *)
Theorem X11_kbuffer_alpha_and_weight_bounds (color : vec4) (alpha depth : Q) :
  within 0 (1 # 10) (kbuffer_alpha color)
  /\ within (1 # 100) 300 (kbuffer_weight alpha depth).
Proof.
  unfold within, kbuffer_alpha, kbuffer_weight. cbv zeta.
  assert (H01 : 0 <= 1) by lra.
  pose proof (clamp_bounds ((x4 color + y4 color + z4 color) * (1 / 3)) 0 1 H01) as [A B].
  assert (Hw : 1 # 100 <= 300) by lra.
  split; [split; lra|]. apply clamp_bounds. exact Hw.
Qed.

(** ** The scan of the bounding box *)

Lemma convex_between (a b c p q r lo hi : Q) :
  0 <= a -> 0 <= b -> 0 <= c -> a + b + c == 1 ->
  lo <= p <= hi -> lo <= q <= hi -> lo <= r <= hi ->
  lo <= a * p + b * q + c * r <= hi.
Proof.
  intros Ha Hb Hc Hs [Hp Hp'] [Hq Hq'] [Hr Hr'].
  assert (E1 : a * p + b * q + c * r - lo
               == a * (p - lo) + b * (q - lo) + c * (r - lo) + (a + b + c - 1) * lo) by ring.
  assert (E2 : hi - (a * p + b * q + c * r)
               == a * (hi - p) + b * (hi - q) + c * (hi - r) + (1 - (a + b + c)) * hi) by ring.
  rewrite Hs in E1, E2.
  assert (0 <= a * (p - lo)) by (apply Qmult_le_0_compat; lra).
  assert (0 <= b * (q - lo)) by (apply Qmult_le_0_compat; lra).
  assert (0 <= c * (r - lo)) by (apply Qmult_le_0_compat; lra).
  assert (0 <= a * (hi - p)) by (apply Qmult_le_0_compat; lra).
  assert (0 <= b * (hi - q)) by (apply Qmult_le_0_compat; lra).
  assert (0 <= c * (hi - r)) by (apply Qmult_le_0_compat; lra).
  split; lra.
Qed.

Lemma clamped_range_In (lo hi : Q) (size i : Z) :
  (0 <= i <= size)%Z -> lo <= inject_Z i -> inject_Z i <= hi ->
  (float_to_int (clamp lo 0 (int_to_float size)) <= i)%Z
  /\ inject_Z i <= clamp hi 0 (int_to_float size).
Proof.
  intros Hi Hlo Hhi. unfold int_to_float.
  assert (Q0 : 0 <= inject_Z i) by (rewrite <- (Zle_Qle 0); lia).
  assert (Qs : inject_Z i <= inject_Z size) by (rewrite <- Zle_Qle; lia).
  assert (Q0s : 0 <= inject_Z size) by lra.
  split.
  - rewrite float_to_int_nonneg by (apply clamp_bounds; exact Q0s).
    rewrite <- (Qfloor_Z i). apply Qfloor_resp_le. unfold clamp.
    eapply Qle_trans; [apply Q.le_min_l|]. apply Q.max_lub; assumption.
  - unfold clamp. apply Q.min_glb; [|exact Qs].
    eapply Qle_trans; [exact Hhi|apply Q.le_max_l].
Qed.

(** X12.  The scan of the clamped bounding box misses no covered pixel: for
    a triangle of non-zero signed area, every pixel with 0 <= x <= w and
    0 <= y <= h that passes the rasterizer's point-in-triangle test is
    among the pixels the two loops of [_rasterize] visit. *)
Theorem X12_scan_covers_accepted_pixels (tri : arr3 vec3) (w h x y : Z) :
  ~ calculateSignedArea tri == 0 ->
  (0 <= x <= w)%Z -> (0 <= y <= h)%Z ->
  pixel_accepted tri x y = true ->
  In (x, y) (scanned_pixels (getAABBForTriangle tri w h)).
Proof.
  intros Harea Hx Hy Hacc. unfold pixel_accepted in Hacc.
  apply isBarycentricCoordInBounds_iff in Hacc. destruct Hacc as ([A0 _] & [B0 _] & [C0 _]).
  destruct (barycentric_reconstruction tri (mkvec2 (int_to_float x) (int_to_float y)) Harea)
    as (Hs & Ex & Ey).
  cbv zeta in *. cbn [x2 y2] in Ex, Ey. unfold int_to_float in Ex, Ey.
  set (b := calculateBarycentricCoordinate tri _) in *.
  pose proof (Qmin3_l (x3 (a0 tri)) (x3 (a1 tri)) (x3 (a2 tri))) as (? & ? & ?).
  pose proof (Qmax3_u (x3 (a0 tri)) (x3 (a1 tri)) (x3 (a2 tri))) as (? & ? & ?).
  pose proof (Qmin3_l (y3 (a0 tri)) (y3 (a1 tri)) (y3 (a2 tri))) as (? & ? & ?).
  pose proof (Qmax3_u (y3 (a0 tri)) (y3 (a1 tri)) (y3 (a2 tri))) as (? & ? & ?).
  pose proof (convex_between (x3 b) (y3 b) (z3 b) (x3 (a0 tri)) (x3 (a1 tri)) (x3 (a2 tri))
                _ _ A0 B0 C0 Hs (conj H H2) (conj H0 H3) (conj H1 H4)) as Bx.
  pose proof (convex_between (x3 b) (y3 b) (z3 b) (y3 (a0 tri)) (y3 (a1 tri)) (y3 (a2 tri))
                _ _ A0 B0 C0 Hs (conj H5 H8) (conj H6 H9) (conj H7 H10)) as By.
  rewrite Ex in Bx. rewrite Ey in By.
  apply scanned_pixels_In. cbn [getAABBForTriangle aabb_min aabb_max x3 y3].
  split; apply clamped_range_In; tauto.
Qed.

Lemma X12_scan_covers_accepted_pixels_witness :
  (~ calculateSignedArea rising_tri == 0
   /\ (0 <= 2 <= 4)%Z /\ (0 <= 3 <= 4)%Z /\ pixel_accepted rising_tri 2 3 = true)
  /\ In (2%Z, 3%Z) (scanned_pixels (getAABBForTriangle rising_tri 4 4)).
Proof.
  assert (H1 : ~ calculateSignedArea rising_tri == 0) by (vm_compute; discriminate).
  assert (H2 : (0 <= 2 <= 4)%Z) by lia.
  assert (H3 : (0 <= 3 <= 4)%Z) by lia.
  assert (H4 : pixel_accepted rising_tri 2 3 = true) by reflexivity.
  split; [tauto|]. exact (X12_scan_covers_accepted_pixels rising_tri 4 4 2 3 H1 H2 H3 H4).
Defined.

(** X13.  Inside the image the flat index is the row-major cell and
    different pixels have different cells, so fragments of different pixels
    never share a cell; the column x = w, which the scan also reaches, has
    the cell of the first pixel of the next row. *)
Theorem X13_flat_index_injective_inside (w h x y x' y' : Z) :
  (w * h <= INT_MAX)%Z ->
  (0 <= x < w)%Z -> (0 <= y < h)%Z -> (0 <= x' < w)%Z -> (0 <= y' < h)%Z ->
  (flat_index x y w = flat_index x' y' w -> x = x' /\ y = y')
  /\ ((y + 1 < h)%Z -> flat_index w y w = flat_index 0 (y + 1) w).
Proof.
  intros Hwh Hx Hy Hx' Hy'.
  destruct (flat_index_in_image x y w h Hx Hy Hwh) as [E _].
  destruct (flat_index_in_image x' y' w h Hx' Hy' Hwh) as [E' _].
  split.
  - rewrite E, E'. intros H. assert (y = y') by nia. subst. split; lia.
  - intros Hy1.
    assert (H0 : (0 <= 0 < w)%Z) by lia. assert (H1 : (0 <= y + 1 < h)%Z) by lia.
    destruct (flat_index_in_image 0 (y + 1) w h H0 H1 Hwh) as [E1 _]. rewrite E1.
    unfold INT_MAX in Hwh. change (2 ^ 31)%Z with 2147483648%Z in Hwh.
    unfold flat_index.
    assert ((y + 1) * w <= (h - 1) * w)%Z by nia. assert (0 <= y * w)%Z by nia.
    rewrite (wrap32_small (y * w)) by (change (2 ^ 31)%Z with 2147483648%Z; nia).
    rewrite wrap32_small by (change (2 ^ 31)%Z with 2147483648%Z; nia). lia.
Qed.

Lemma X13_flat_index_injective_inside_witness :
  ((4 * 4 <= INT_MAX)%Z /\ (0 <= 1 < 4)%Z /\ (0 <= 2 < 4)%Z /\ (0 <= 1 < 4)%Z /\ (0 <= 2 < 4)%Z)
  /\ (flat_index 1 2 4 = flat_index 1 2 4 -> 1%Z = 1%Z /\ 2%Z = 2%Z)
  /\ ((2 + 1 < 4)%Z -> flat_index 4 2 4 = flat_index 0 (2 + 1) 4).
Proof.
  assert (H0 : (4 * 4 <= INT_MAX)%Z) by (vm_compute; discriminate).
  assert (H1 : (0 <= 1 < 4)%Z) by lia.
  assert (H2 : (0 <= 2 < 4)%Z) by lia.
  split; [tauto|]. exact (X13_flat_index_injective_inside 4 4 1 2 1 2 H0 H1 H2 H1 H2).
Defined.

(** ** Backface culling and the winding *)

Lemma shouldBackfaceCull_facing (p : Primitive.t) :
  shouldBackfaceCull p = Qltb (facing p) 0.
Proof. reflexivity. Qed.

Lemma facing_swap12 (p : Primitive.t) : facing (primitive_swap12 p) == - facing p.
Proof.
  unfold facing, primitive_swap12, arr3_swap12, dot3, cross, vec4_sub, vec3_of_vec4, vec3_neg.
  cbn. ring.
Qed.

(** X14.  [shouldBackfaceCull] depends on the winding: exchanging the second
    and third vertex of a primitive negates the number it tests, so of the
    two windings of a triangle that is not seen edge-on exactly one is
    culled (while the rasterizer's coverage test accepts the same pixels
    for both). *)
Theorem X14_cull_exactly_one_winding (p : Primitive.t) :
  ~ facing p == 0 ->
  shouldBackfaceCull (primitive_swap12 p) = negb (shouldBackfaceCull p)
  /\ forall x y : Z,
       pixel_accepted (primitive_tri (primitive_swap12 p)) x y
       = pixel_accepted (primitive_tri p) x y.
Proof.
  intros Hne. split.
  - rewrite !shouldBackfaceCull_facing. pose proof (facing_swap12 p) as E.
    destruct (Qltb (facing p) 0) eqn:E1; cbn [negb].
    + apply Qltb_iff in E1. apply not_true_iff_false. rewrite Qltb_iff. lra.
    + assert (~ facing p < 0) by (rewrite <- Qltb_iff; congruence).
      apply Qltb_iff. assert (0 < facing p) by (apply Qnot_le_lt; intros ?; apply Hne; lra).
      lra.
  - intros x y.
    change (primitive_tri (primitive_swap12 p)) with (arr3_swap12 (primitive_tri p)).
    apply pixel_accepted_swap12.
Qed.

Lemma X14_cull_exactly_one_winding_witness :
  ~ facing facing_primitive == 0
  /\ shouldBackfaceCull (primitive_swap12 facing_primitive)
     = negb (shouldBackfaceCull facing_primitive).
Proof.
  assert (H : ~ facing facing_primitive == 0) by (vm_compute; discriminate).
  split; [exact H|]. exact (proj1 (X14_cull_exactly_one_winding facing_primitive H)).
Defined.

(** ** Launches, thread by thread *)

Lemma run_all_total {I S : Type} (Inv : S -> Prop) (body : I -> S -> option S)
    (ids : list I) :
  (forall i s, In i ids -> Inv s -> exists s', body i s = Some s' /\ Inv s') ->
  forall s, Inv s -> exists s', run_all body ids s = Some s' /\ Inv s'.
Proof.
  induction ids as [|i ids IH]; intros Hbody s Hs; cbn.
  - eauto.
  - destruct (Hbody i s (or_introl eq_refl) Hs) as (s1 & E & H1). rewrite E.
    apply IH; [|exact H1]. intros j t Hj. apply Hbody. right. exact Hj.
Qed.

Lemma run_all_keeps {I S : Type} (P : S -> Prop) (body : I -> S -> option S)
    (ids : list I) :
  (forall i s s', In i ids -> body i s = Some s' -> P s -> P s') ->
  forall s s', run_all body ids s = Some s' -> P s -> P s'.
Proof.
  induction ids as [|i ids IH]; intros Hbody s s' H Hs; cbn in H.
  - injection H as <-. exact Hs.
  - destruct (body i s) as [s1|] eqn:E; [|discriminate].
    eapply IH; [|exact H|].
    + intros j t t' Hj. apply Hbody. right. exact Hj.
    + eapply Hbody; [left; reflexivity|exact E|exact Hs].
Qed.

Lemma run_all_establishes {I S : Type} (P : I -> S -> Prop) (body : I -> S -> option S)
    (ids : list I) :
  NoDup ids ->
  (forall i s s', In i ids -> body i s = Some s' -> P i s') ->
  (forall i j s s', In i ids -> In j ids -> i <> j -> body i s = Some s' -> P j s -> P j s') ->
  forall s s', run_all body ids s = Some s' -> forall j, In j ids -> P j s'.
Proof.
  induction ids as [|i ids IH]; intros Hnd Hest Hpres s s' H j Hj; [destruct Hj|].
  cbn in H. destruct (body i s) as [s1|] eqn:E; [|discriminate].
  apply NoDup_cons in Hnd as [Hni Hnd].
  destruct Hj as [<-|Hj].
  - eapply (run_all_keeps (P i)); [|exact H|].
    + intros k t t' Hk Ek. eapply Hpres; [right; exact Hk|left; reflexivity| |exact Ek].
      intros ->. apply Hni. apply list_elem_of_In. exact Hk.
    + eapply Hest; [left; reflexivity|exact E].
  - eapply IH; [exact Hnd| | |exact H|exact Hj].
    + intros k t t' Hk. apply Hest. right. exact Hk.
    + intros k l t t' Hk Hl. apply Hpres; right; assumption.
Qed.

Lemma thread_ids_NoDup (n : nat) : NoDup (thread_ids n).
Proof.
  unfold thread_ids. apply NoDup_fmap_2; [intros a b; apply Nat2Z.inj|apply NoDup_seq].
Qed.

Lemma launch_size_1d_covers (n i : Z) :
  (0 <= i < n)%Z -> In i (thread_ids (launch_size_1d n)).
Proof.
  intros H. apply thread_ids_In. unfold launch_size_1d.
  pose proof (Z.quot_rem' (n + 127) 128). pose proof (Z.rem_bound_pos (n + 127) 128). lia.
Qed.

(** ** The launch of primitive assembly *)

Lemma arr3_set_inv {A : Type} (a a' : arr3 A) (c : Z) (v : A) :
  arr3_set a c v = Some a' ->
  arr3_get a' c = Some v
  /\ forall c', c' <> c -> arr3_get a' c' = arr3_get a c'.
Proof.
  unfold arr3_set, arr3_get. intros H.
  destruct c as [|[[]|[]|]|]; try discriminate; injection H as <-;
    (split; [reflexivity|]); intros c' Hc';
    destruct c' as [|[[]|[]|]|]; try reflexivity; contradiction.
Qed.

Lemma arr3_set_Some {A : Type} (a : arr3 A) (c : Z) (v : A) :
  (0 <= c < 3)%Z -> exists a', arr3_set a c v = Some a'.
Proof.
  intros H. assert (c = 0 \/ c = 1 \/ c = 2)%Z as [->|[->| ->]] by lia; cbn; eauto.
Qed.

Lemma PrimitiveType_int_range (t : PrimitiveType) : (1 <= PrimitiveType_int t <= 3)%Z.
Proof. destruct t; cbn; lia. Qed.

Lemma primitiveAssembly_thread numIndices begin p iid prims prims' :
  (iid < numIndices)%Z ->
  PrimitiveDevBufPointers.primitiveMode p = MODE_TRIANGLES ->
  _primitiveAssembly numIndices begin p iid prims = Some prims' ->
  let ty := PrimitiveType_int (PrimitiveDevBufPointers.primitiveType p) in
  exists slot vo v',
    gathered p iid = Some vo
    /\ rd prims (Z.quot iid ty + begin) = Some slot
    /\ arr3_set (Primitive.v slot) (Z.rem iid ty) vo = Some v'
    /\ prims' = <[Z.to_nat (Z.quot iid ty + begin)
                    := Primitive.mk (Primitive.primitiveType slot) v']> prims.
Proof.
  intros Hlt Hmode. unfold _primitiveAssembly, gathered.
  destruct (Z.ltb_spec iid numIndices) as [_|?]; [|lia]. rewrite Hmode. cbn [gltf_mode_is_triangles].
  intros H. cbv zeta.
  apply bind_Some in H as (idx & Hidx & H). apply bind_Some in H as (vo & Hvo & H).
  apply bind_Some in H as (slot & Hslot & H). apply bind_Some in H as (v' & Hv' & H).
  apply wr_inv in H as [_ ->].
  exists slot, vo, v'. rewrite Hidx. cbn [mbind option_bind]. auto.
Qed.

Lemma primitiveAssembly_idle numIndices begin p iid prims :
  (numIndices <= iid)%Z -> _primitiveAssembly numIndices begin p iid prims = Some prims.
Proof.
  intros H. unfold _primitiveAssembly. destruct (Z.ltb_spec iid numIndices); [lia|reflexivity].
Qed.

Lemma primitiveAssembly_runs numIndices begin p iid prims :
  (0 <= iid)%Z -> (0 <= begin)%Z ->
  (numIndices
   <= PrimitiveType_int (PrimitiveDevBufPointers.primitiveType p)
      * (Z.of_nat (length prims) - begin))%Z ->
  ((iid < numIndices)%Z -> is_Some (gathered p iid)) ->
  exists prims', _primitiveAssembly numIndices begin p iid prims = Some prims'
                 /\ length prims' = length prims.
Proof.
  intros Hi Hb Hroom Hg. unfold _primitiveAssembly.
  destruct (Z.ltb_spec iid numIndices) as [Hlt|?]; [|eauto].
  destruct (gltf_mode_is_triangles _); [|eauto].
  destruct (Hg Hlt) as [vo Hvo]. unfold gathered in Hvo.
  apply bind_Some in Hvo as (idx & Hidx & Hvo). rewrite Hidx. cbn [mbind option_bind].
  rewrite Hvo. cbn [mbind option_bind].
  pose proof (PrimitiveType_int_range (PrimitiveDevBufPointers.primitiveType p)) as Hty.
  set (ty := PrimitiveType_int _) in *.
  pose proof (Z.quot_rem' iid ty) as Hqr.
  pose proof (Z.rem_bound_pos iid ty Hi ltac:(lia)) as Hr.
  assert (Hq : (0 <= Z.quot iid ty)%Z) by (apply Z.quot_pos; lia).
  assert (Hin : (0 <= Z.quot iid ty + begin < Z.of_nat (length prims))%Z) by nia.
  destruct (rd_in_bounds _ _ Hin) as [slot Hslot]. rewrite Hslot. cbn [mbind option_bind].
  destruct (arr3_set_Some (Primitive.v slot) (Z.rem iid ty) vo ltac:(lia)) as [v' Hv'].
  rewrite Hv'. cbn [mbind option_bind]. rewrite wr_Some by exact Hin.
  eexists. split; [reflexivity|]. apply length_insert.
Qed.

Lemma assembly_frame_refl begin p prims : assembly_frame begin p prims prims.
Proof. split; [reflexivity|]. intros j. split; reflexivity. Qed.

Lemma assembly_frame_trans begin p a b c :
  assembly_frame begin p a b -> assembly_frame begin p b c -> assembly_frame begin p a c.
Proof.
  intros [L1 F1] [L2 F2]. split; [congruence|]. intros j.
  destruct (F1 j) as [T1 U1], (F2 j) as [T2 U2]. split; [congruence|].
  intros H. rewrite U2, U1 by exact H. reflexivity.
Qed.

Lemma primitiveAssembly_frame begin p iid prims prims' :
  PrimitiveDevBufPointers.primitiveMode p = MODE_TRIANGLES ->
  _primitiveAssembly (PrimitiveDevBufPointers.numIndices p) begin p iid prims = Some prims' ->
  assembly_frame begin p prims prims'.
Proof.
  intros Hmode H.
  destruct (Z.ltb_spec iid (PrimitiveDevBufPointers.numIndices p)) as [Hlt|Hge].
  - pose proof H as H0.
    apply primitiveAssembly_thread in H as (slot & vo & v' & Hg & Hslot & Hv' & ->);
      [|exact Hlt|exact Hmode].
    assert (Hi : (0 <= iid)%Z).
    { unfold gathered in Hg. apply bind_Some in Hg as (idx & Hidx & _).
      apply rd_Some_bounds in Hidx. lia. }
    pose proof (rd_Some_bounds _ _ _ Hslot) as Hin.
    split; [apply length_insert|]. intros j.
    destruct (Z.eq_dec j (Z.quot iid (PrimitiveType_int
                 (PrimitiveDevBufPointers.primitiveType p)) + begin)%Z) as [->|Hne].
    + split.
      * rewrite rd_insert_eq by exact Hin. rewrite Hslot. reflexivity.
      * intros Hj. exfalso. apply (Hj iid); [lia|reflexivity].
    + assert (E : rd (<[Z.to_nat (Z.quot iid (PrimitiveType_int
                    (PrimitiveDevBufPointers.primitiveType p)) + begin)
                  := Primitive.mk (Primitive.primitiveType slot) v']> prims) j = rd prims j).
      { destruct (Z.ltb_spec j 0) as [Hj|Hj].
        - unfold rd. destruct (Z.ltb_spec j 0); [reflexivity|lia].
        - apply rd_insert_ne; [lia|exact Hj|congruence]. }
      rewrite E. split; reflexivity.
  - rewrite primitiveAssembly_idle in H by exact Hge. injection H as <-.
    apply assembly_frame_refl.
Qed.

Lemma launch_primitiveAssembly_assembles (begin : Z) (p : PrimitiveDevBufPointers.t)
    (prims : list Primitive.t) :
  PrimitiveDevBufPointers.primitiveMode p = MODE_TRIANGLES ->
  (0 <= begin)%Z ->
  (PrimitiveDevBufPointers.numIndices p
   <= PrimitiveType_int (PrimitiveDevBufPointers.primitiveType p)
      * (Z.of_nat (length prims) - begin))%Z ->
  (forall iid, (0 <= iid < PrimitiveDevBufPointers.numIndices p)%Z ->
               is_Some (gathered p iid)) ->
  exists prims',
    launch_primitiveAssembly begin p prims = Some prims'
    /\ assembly_frame begin p prims prims'
    /\ forall iid, (0 <= iid < PrimitiveDevBufPointers.numIndices p)%Z ->
                   assembled_at begin p prims' iid.
Proof.
  intros Hmode Hb Hroom Hg. unfold launch_primitiveAssembly.
  set (n := PrimitiveDevBufPointers.numIndices p) in *.
  set (ids := thread_ids (launch_size_1d n)).
  destruct (run_all_total (fun s => length s = length prims)
              (_primitiveAssembly n begin p) ids) with (s := prims) as (prims' & Hrun & _).
  { intros i s Hi Hlen. apply thread_ids_In in Hi.
    destruct (primitiveAssembly_runs n begin p i s) as (s' & E & L);
      [lia|exact Hb|rewrite Hlen; exact Hroom|intros ?; apply Hg; lia|].
    exists s'. split; [exact E|congruence]. }
  { reflexivity. }
  exists prims'. split; [exact Hrun|]. split.
  - eapply (run_all_preserves (assembly_frame begin p)); [| | |exact Hrun].
    + intros s. apply assembly_frame_refl.
    + intros a b c. apply assembly_frame_trans.
    + intros i s s'. apply primitiveAssembly_frame. exact Hmode.
  - intros iid Hiid.
    refine (run_all_establishes (fun i s => (i < n)%Z -> assembled_at begin p s i)
              (_primitiveAssembly n begin p) ids (thread_ids_NoDup _) _ _
              prims prims' Hrun iid _ (proj2 Hiid)).
    + intros i s s' _ E Hlt.
      apply primitiveAssembly_thread in E as (slot & vo & v' & Hgi & Hslot & Hv' & ->);
        [|exact Hlt|exact Hmode].
      exists (Primitive.mk (Primitive.primitiveType slot) v'), vo.
      split; [apply rd_insert_eq; eapply rd_Some_bounds; exact Hslot|].
      split; [exact Hgi|]. cbn [Primitive.v]. eapply arr3_set_inv. exact Hv'.
    + intros i j s s' Hi Hj Hij E HP Hlt.
      destruct (HP Hlt) as (slotj & voj & Hslotj & Hgj & Hcj).
      destruct (Z.ltb_spec i n) as [Hlti|Hgei];
        [|rewrite primitiveAssembly_idle in E by exact Hgei; injection E as <-;
          exists slotj, voj; auto].
      apply primitiveAssembly_thread in E as (slot & vo & v' & Hgi & Hslot & Hv' & ->);
        [|exact Hlti|exact Hmode].
      apply thread_ids_In in Hi, Hj.
      pose proof (PrimitiveType_int_range (PrimitiveDevBufPointers.primitiveType p)) as Hty.
      unfold assembled_at. cbv zeta.
      set (ty := PrimitiveType_int _) in *.
      destruct (Z.eq_dec (Z.quot i ty) (Z.quot j ty)) as [Eq|Nq].
      * rewrite <- Eq in *. rewrite Hslot in Hslotj. injection Hslotj as <-.
        exists (Primitive.mk (Primitive.primitiveType slot) v'), voj.
        split; [apply rd_insert_eq; eapply rd_Some_bounds; exact Hslot|].
        split; [exact Hgj|]. cbn [Primitive.v].
        destruct (arr3_set_inv _ _ _ _ Hv') as [_ Hother]. rewrite Hother; [exact Hcj|].
        intros Er. apply Hij.
        rewrite (Z.quot_rem' i ty), (Z.quot_rem' j ty). rewrite Eq at 1. rewrite Er.
        rewrite <- Eq. reflexivity.
      * exists slotj, voj. split; [|auto].
        rewrite rd_insert_ne; [exact Hslotj| | |lia].
        -- apply rd_Some_bounds in Hslot. lia.
        -- apply rd_Some_bounds in Hslotj. lia.
    + apply launch_size_1d_covers. exact Hiid.
Qed.

(** X15.  For a mesh part of mode TRIANGLES whose indices all refer to
    vertices of its output buffer, and with room in [dev_primitives] from
    [curPrimitiveBeginId] on, the launch of [_primitiveAssembly] completes
    and gathers the vertices: for every index [iid] of the part, component
    [iid % type] of slot [curPrimitiveBeginId + iid / type] is the vertex
    [dev_verticesOut[dev_indices[iid]]].  The buffer keeps its length, every
    slot keeps its type tag, and slots no index is assigned to are left as
    they were. *)
Theorem X15_primitive_assembly_gathers (begin : Z) (p : PrimitiveDevBufPointers.t)
    (prims : list Primitive.t) :
  PrimitiveDevBufPointers.primitiveMode p = MODE_TRIANGLES ->
  (0 <= begin)%Z ->
  (PrimitiveDevBufPointers.numIndices p
   <= PrimitiveType_int (PrimitiveDevBufPointers.primitiveType p)
      * (Z.of_nat (length prims) - begin))%Z ->
  (forall iid, (0 <= iid < PrimitiveDevBufPointers.numIndices p)%Z ->
               is_Some (gathered p iid)) ->
  exists prims',
    launch_primitiveAssembly begin p prims = Some prims'
    /\ assembly_frame begin p prims prims'
    /\ forall iid, (0 <= iid < PrimitiveDevBufPointers.numIndices p)%Z ->
                   assembled_at begin p prims' iid.
Proof. exact (launch_primitiveAssembly_assembles begin p prims). Qed.

Lemma triangle_part_gathered (iid : Z) :
  (0 <= iid < PrimitiveDevBufPointers.numIndices triangle_part)%Z ->
  is_Some (gathered triangle_part iid).
Proof.
  cbn. intros H. assert (iid = 0 \/ iid = 1 \/ iid = 2)%Z as [->|[->| ->]] by lia;
    eexists; reflexivity.
Defined.

Lemma X15_primitive_assembly_gathers_witness :
  (PrimitiveDevBufPointers.primitiveMode triangle_part = MODE_TRIANGLES
   /\ (0 <= 0)%Z
   /\ (PrimitiveDevBufPointers.numIndices triangle_part
       <= PrimitiveType_int (PrimitiveDevBufPointers.primitiveType triangle_part)
          * (Z.of_nat (length [corner_primitive 5]) - 0))%Z
   /\ (forall iid, (0 <= iid < PrimitiveDevBufPointers.numIndices triangle_part)%Z ->
                   is_Some (gathered triangle_part iid)))
  /\ exists prims',
       launch_primitiveAssembly 0 triangle_part [corner_primitive 5] = Some prims'
       /\ assembled_at 0 triangle_part prims' 2.
Proof.
  assert (H1 : (0 <= 0)%Z) by lia.
  assert (H2 : (PrimitiveDevBufPointers.numIndices triangle_part
                <= PrimitiveType_int (PrimitiveDevBufPointers.primitiveType triangle_part)
                   * (Z.of_nat (length [corner_primitive 5]) - 0))%Z) by (cbn; lia).
  split; [repeat split; [exact H1|exact H2|exact triangle_part_gathered]|].
  destruct (X15_primitive_assembly_gathers 0 triangle_part [corner_primitive 5]
              eq_refl H1 H2 triangle_part_gathered) as (prims' & Hrun & _ & Hall).
  exists prims'. split; [exact Hrun|]. apply Hall. cbn. lia.
Defined.

(** X16.  [rasterizeSetBuffers] counts [numIndices / 3] triangles for a part
    of mode TRIANGLES, but the assembly kernel runs for every index: when
    the number of indices is not a multiple of 3, the launch writes the
    first vertex of the slot behind the part's own slots, the one at
    [curPrimitiveBeginId + numPrimitives], where the next part begins. *)
Theorem X16_leftover_indices_spill (begin : Z) (p : PrimitiveDevBufPointers.t)
    (prims : list Primitive.t) :
  PrimitiveDevBufPointers.primitiveMode p = MODE_TRIANGLES ->
  primitive_info MODE_TRIANGLES (PrimitiveDevBufPointers.numIndices p)
  = Some (PrimitiveDevBufPointers.primitiveType p, PrimitiveDevBufPointers.numPrimitives p) ->
  (0 <= PrimitiveDevBufPointers.numIndices p)%Z ->
  Z.rem (PrimitiveDevBufPointers.numIndices p) 3 <> 0%Z ->
  (0 <= begin)%Z ->
  (PrimitiveDevBufPointers.numIndices p <= 3 * (Z.of_nat (length prims) - begin))%Z ->
  (forall iid, (0 <= iid < PrimitiveDevBufPointers.numIndices p)%Z ->
               is_Some (gathered p iid)) ->
  exists prims' slot,
    launch_primitiveAssembly begin p prims = Some prims'
    /\ rd prims' (begin + PrimitiveDevBufPointers.numPrimitives p) = Some slot
    /\ Some (a0 (Primitive.v slot)) = gathered p (3 * PrimitiveDevBufPointers.numPrimitives p).
Proof.
  intros Hmode Hinfo Hn Hrem Hb Hroom Hg. cbn in Hinfo. injection Hinfo as Hty Hnp.
  destruct (launch_primitiveAssembly_assembles begin p prims Hmode Hb) as
    (prims' & Hrun & _ & Hall); [rewrite <- Hty; exact Hroom|exact Hg|].
  pose proof (Z.quot_rem' (PrimitiveDevBufPointers.numIndices p) 3) as Hqr.
  pose proof (Z.rem_bound_pos (PrimitiveDevBufPointers.numIndices p) 3 Hn ltac:(lia)) as Hr.
  destruct (Hall (3 * PrimitiveDevBufPointers.numPrimitives p)%Z ltac:(lia))
    as (slot & vo & Hslot & Hvo & Hc).
  rewrite <- Hty in Hslot, Hc. cbn [PrimitiveType_int] in Hslot, Hc.
  rewrite Z.mul_comm, Z.quot_mul in Hslot by lia.
  rewrite Z.mul_comm, Z.rem_mul in Hc by lia.
  exists prims', slot. split; [exact Hrun|]. split.
  - rewrite Z.add_comm. exact Hslot.
  - rewrite Hvo. cbn in Hc. exact Hc.
Qed.

Lemma four_index_part_gathered (iid : Z) :
  (0 <= iid < PrimitiveDevBufPointers.numIndices four_index_part)%Z ->
  is_Some (gathered four_index_part iid).
Proof.
  cbn. intros H.
  assert (iid = 0 \/ iid = 1 \/ iid = 2 \/ iid = 3)%Z as [->|[->|[->| ->]]] by lia;
    eexists; reflexivity.
Defined.

Lemma X16_leftover_indices_spill_witness :
  (PrimitiveDevBufPointers.primitiveMode four_index_part = MODE_TRIANGLES
   /\ primitive_info MODE_TRIANGLES (PrimitiveDevBufPointers.numIndices four_index_part)
      = Some (PrimitiveDevBufPointers.primitiveType four_index_part,
              PrimitiveDevBufPointers.numPrimitives four_index_part)
   /\ (0 <= PrimitiveDevBufPointers.numIndices four_index_part)%Z
   /\ Z.rem (PrimitiveDevBufPointers.numIndices four_index_part) 3 <> 0%Z
   /\ (0 <= 0)%Z
   /\ (PrimitiveDevBufPointers.numIndices four_index_part
       <= 3 * (Z.of_nat (length [corner_primitive 5; corner_primitive 6]) - 0))%Z)
  /\ exists prims' slot,
       launch_primitiveAssembly 0 four_index_part [corner_primitive 5; corner_primitive 6]
       = Some prims'
       /\ rd prims' (0 + PrimitiveDevBufPointers.numPrimitives four_index_part) = Some slot
       /\ Some (a0 (Primitive.v slot))
          = gathered four_index_part
              (3 * PrimitiveDevBufPointers.numPrimitives four_index_part).
Proof.
  assert (H1 : (0 <= PrimitiveDevBufPointers.numIndices four_index_part)%Z) by (cbn; lia).
  assert (H2 : Z.rem (PrimitiveDevBufPointers.numIndices four_index_part) 3 <> 0%Z)
    by (cbn; discriminate).
  assert (H3 : (0 <= 0)%Z) by lia.
  assert (H4 : (PrimitiveDevBufPointers.numIndices four_index_part
                <= 3 * (Z.of_nat (length [corner_primitive 5; corner_primitive 6]) - 0))%Z)
    by (cbn; lia).
  split; [repeat split; assumption|].
  exact (X16_leftover_indices_spill 0 four_index_part
           [corner_primitive 5; corner_primitive 6]
           eq_refl eq_refl H1 H2 H3 H4 four_index_part_gathered).
Defined.

(** ** The launch of the vertex stage *)

Lemma rd_insert_other {A : Type} (buf : list A) (i j : Z) (v : A) :
  (0 <= i)%Z -> i <> j -> rd (<[Z.to_nat i := v]> buf) j = rd buf j.
Proof.
  intros Hi Hij. destruct (Z.ltb_spec j 0) as [Hj|Hj].
  - unfold rd. destruct (Z.ltb_spec j 0); [reflexivity|lia].
  - apply rd_insert_ne; assumption.
Qed.

(** A launch in which thread [i] writes cell [i] only. *)
Lemma run_all_cellwise {A : Type} (good : Z -> Prop) (F : Z -> A -> A -> Prop)
    (body : Z -> list A -> option (list A)) (ids : list Z) :
  (forall i s s', body i s = Some s' ->
     (~ good i /\ s' = s)
     \/ (good i /\ exists a a', rd s i = Some a /\ s' = <[Z.to_nat i := a']> s /\ F i a a')) ->
  NoDup ids ->
  forall s s', run_all body ids s = Some s' ->
    length s' = length s
    /\ forall j,
         (In j ids -> good j -> exists a a', rd s j = Some a /\ rd s' j = Some a' /\ F j a a')
         /\ (~ (In j ids /\ good j) -> rd s' j = rd s j).
Proof.
  intros Hbody. induction ids as [|i ids IH]; intros Hnd s s' H; cbn in H.
  - injection H as <-. split; [reflexivity|]. intros j. split; [intros []|reflexivity].
  - destruct (body i s) as [s1|] eqn:E; [|discriminate].
    apply NoDup_cons in Hnd as [Hni Hnd].
    destruct (IH Hnd s1 s' H) as [L1 C1].
    assert (Hni' : ~ In i ids) by (intros ?; apply Hni, list_elem_of_In; assumption).
    destruct (Hbody i s s1 E) as [[Hng ->]|[Hg (a & a' & Ha & -> & HF)]].
    + split; [exact L1|]. intros j. destruct (C1 j) as [C1a C1b]. split.
      * intros [<-|Hj] Hgj; [contradiction|]. apply C1a; assumption.
      * intros Hn. apply C1b. intros [Hj Hgj]. apply Hn. split; [right|]; assumption.
    + pose proof (rd_Some_bounds _ _ _ Ha) as Hin.
      split; [rewrite L1; apply length_insert|]. intros j.
      destruct (C1 j) as [C1a C1b]. destruct (Z.eq_dec i j) as [<-|Hij].
      * split.
        -- intros _ _. exists a, a'. split; [exact Ha|]. split; [|exact HF].
           destruct (C1 i) as [_ C1i]. rewrite C1i by tauto. apply rd_insert_eq. exact Hin.
        -- intros Hn. exfalso. apply Hn. split; [left; reflexivity|exact Hg].
      * rewrite <- (rd_insert_other s i j a') by (lia || assumption). split.
        -- intros [?|Hj] Hgj; [contradiction|]. apply C1a; assumption.
        -- intros Hn. apply C1b. intros [Hj Hgj]. apply Hn. split; [right|]; assumption.
Qed.

Lemma vertex_thread_inv (normalize : vec3 -> vec3) (p : PrimitiveDevBufPointers.t)
    (MVP MV : mat4) (MV_normal : mat3) (width height vid : Z)
    (buf out : list VertexOut.t) :
  _vertexTransformAndAssembly normalize (PrimitiveDevBufPointers.numVertices p) p
    MVP MV MV_normal width height vid buf = Some out ->
  (~ (vid < PrimitiveDevBufPointers.numVertices p)%Z /\ out = buf)
  \/ ((vid < PrimitiveDevBufPointers.numVertices p)%Z
      /\ exists o v, rd buf vid = Some o /\ out = <[Z.to_nat vid := v]> buf
           /\ vertex_written normalize p MVP MV MV_normal width height vid o v).
Proof.
  unfold _vertexTransformAndAssembly, vertex_written.
  destruct (Z.ltb_spec vid (PrimitiveDevBufPointers.numVertices p)) as [Hlt|Hge];
    [|intros [= <-]; left; split; [lia|reflexivity]].
  intros H. right. split; [exact Hlt|].
  apply bind_Some in H as (position & Hp & H). apply bind_Some in H as (normal & Hn & H).
  destruct (PrimitiveDevBufPointers.dev_diffuseTex p) as [tex|].
  - apply bind_Some in H as (uv & Huv & H). apply upd_inv in H as (o & Ho & ->).
    eexists o, _. split; [exact Ho|]. split; [reflexivity|].
    exists position, normal. cbn. repeat split; try assumption. eauto.
  - apply upd_inv in H as (o & Ho & ->).
    eexists o, _. split; [exact Ho|]. split; [reflexivity|].
    exists position, normal. cbn. repeat split; assumption.
Qed.

Lemma launch_vertex_stage (normalize : vec3 -> vec3) (p : PrimitiveDevBufPointers.t)
    (MVP MV : mat4) (MV_normal : mat3) (width height : Z) (out : list VertexOut.t) :
  launch_vertexTransformAndAssembly normalize p MVP MV MV_normal width height = Some out ->
  length out = length (PrimitiveDevBufPointers.dev_verticesOut p)
  /\ (forall vid, (0 <= vid < PrimitiveDevBufPointers.numVertices p)%Z ->
        exists o v, rd (PrimitiveDevBufPointers.dev_verticesOut p) vid = Some o
          /\ rd out vid = Some v
          /\ vertex_written normalize p MVP MV MV_normal width height vid o v)
  /\ (forall j, (PrimitiveDevBufPointers.numVertices p <= j)%Z ->
        rd out j = rd (PrimitiveDevBufPointers.dev_verticesOut p) j).
Proof.
  unfold launch_vertexTransformAndAssembly. intros H.
  destruct (run_all_cellwise
              (fun vid => (vid < PrimitiveDevBufPointers.numVertices p)%Z)
              (vertex_written normalize p MVP MV MV_normal width height)
              _ _ (vertex_thread_inv normalize p MVP MV MV_normal width height)
              (thread_ids_NoDup _) _ _ H) as [L C].
  split; [exact L|]. split.
  - intros vid Hvid. apply (C vid); [apply launch_size_1d_covers; exact Hvid|lia].
  - intros j Hj. apply (C j). lia.
Qed.

Lemma launch_vertex_stage_runs (normalize : vec3 -> vec3) (p : PrimitiveDevBufPointers.t)
    (MVP MV : mat4) (MV_normal : mat3) (width height : Z) :
  let n := PrimitiveDevBufPointers.numVertices p in
  (n <= Z.of_nat (length (PrimitiveDevBufPointers.dev_position p)))%Z ->
  (n <= Z.of_nat (length (PrimitiveDevBufPointers.dev_normal p)))%Z ->
  (n <= Z.of_nat (length (PrimitiveDevBufPointers.dev_verticesOut p)))%Z ->
  (PrimitiveDevBufPointers.dev_diffuseTex p = None
   \/ (n <= Z.of_nat (length (PrimitiveDevBufPointers.dev_texcoord0 p)))%Z) ->
  exists out,
    launch_vertexTransformAndAssembly normalize p MVP MV MV_normal width height = Some out.
Proof.
  intros n Hp Hn Ho Ht. unfold launch_vertexTransformAndAssembly. fold n.
  destruct (run_all_total
              (fun s => length s = length (PrimitiveDevBufPointers.dev_verticesOut p))
              (_vertexTransformAndAssembly normalize n p MVP MV MV_normal width height)
              (thread_ids (launch_size_1d n)))
    with (s := PrimitiveDevBufPointers.dev_verticesOut p) as (out & E & _);
    [|reflexivity|eauto].
  intros i s Hi Hlen. apply thread_ids_In in Hi.
  destruct (Z.ltb_spec i n) as [Hlt|Hge].
  - destruct (rd_in_bounds (PrimitiveDevBufPointers.dev_position p) i ltac:(lia)) as [pos Hpos].
    destruct (rd_in_bounds (PrimitiveDevBufPointers.dev_normal p) i ltac:(lia)) as [nor Hnor].
    destruct (rd_in_bounds s i ltac:(lia)) as [o Hro].
    destruct (vertex_thread_runs normalize n p MVP MV MV_normal width height i s
                pos nor o Hpos Hnor Hro) as [s' E].
    { destruct Ht as [Ht|Ht]; [left; exact Ht|right].
      apply rd_in_bounds. lia. }
    exists s'. split; [exact E|].
    apply vertex_thread_inv in E as [[_ ->]|(_ & o' & v & _ & -> & _)];
      [exact Hlen|rewrite length_insert; exact Hlen].
  - exists s. split; [|exact Hlen]. unfold _vertexTransformAndAssembly.
    destruct (Z.ltb_spec i n); [lia|reflexivity].
Qed.

(** X17.  When the input buffers of a mesh part hold [numVertices] entries,
    the launch of [_vertexTransformAndAssembly] completes, and afterwards
    every output vertex below [numVertices] holds the viewport position,
    the eye-space position and normal of its own input vertex, colour
    (1,1,1,1) and the part's material id; entries from [numVertices] on and
    the length of the buffer are unchanged.  The texture fields are set
    from the part when it has a texture and are otherwise left as the
    buffer held them. *)
Theorem X17_vertex_stage_transforms_every_vertex (normalize : vec3 -> vec3)
    (p : PrimitiveDevBufPointers.t) (MVP MV : mat4) (MV_normal : mat3) (width height : Z) :
  let n := PrimitiveDevBufPointers.numVertices p in
  (n <= Z.of_nat (length (PrimitiveDevBufPointers.dev_position p)))%Z ->
  (n <= Z.of_nat (length (PrimitiveDevBufPointers.dev_normal p)))%Z ->
  (n <= Z.of_nat (length (PrimitiveDevBufPointers.dev_verticesOut p)))%Z ->
  (PrimitiveDevBufPointers.dev_diffuseTex p = None
   \/ (n <= Z.of_nat (length (PrimitiveDevBufPointers.dev_texcoord0 p)))%Z) ->
  exists out,
    launch_vertexTransformAndAssembly normalize p MVP MV MV_normal width height = Some out
    /\ length out = length (PrimitiveDevBufPointers.dev_verticesOut p)
    /\ (forall vid, (0 <= vid < n)%Z ->
          exists o v, rd (PrimitiveDevBufPointers.dev_verticesOut p) vid = Some o
            /\ rd out vid = Some v
            /\ vertex_written normalize p MVP MV MV_normal width height vid o v)
    /\ (forall j, (n <= j)%Z -> rd out j = rd (PrimitiveDevBufPointers.dev_verticesOut p) j).
Proof.
  intros n Hp Hn Ho Ht.
  destruct (launch_vertex_stage_runs normalize p MVP MV MV_normal width height Hp Hn Ho Ht)
    as [out E].
  exists out. split; [exact E|]. apply launch_vertex_stage. exact E.
Qed.

Lemma X17_vertex_stage_transforms_every_vertex_witness :
  ((PrimitiveDevBufPointers.numVertices untextured_part
    <= Z.of_nat (length (PrimitiveDevBufPointers.dev_position untextured_part)))%Z
   /\ (PrimitiveDevBufPointers.numVertices untextured_part
       <= Z.of_nat (length (PrimitiveDevBufPointers.dev_normal untextured_part)))%Z
   /\ (PrimitiveDevBufPointers.numVertices untextured_part
       <= Z.of_nat (length (PrimitiveDevBufPointers.dev_verticesOut untextured_part)))%Z
   /\ PrimitiveDevBufPointers.dev_diffuseTex untextured_part = None)
  /\ exists out v,
       launch_vertexTransformAndAssembly (fun v => v) untextured_part
         mat4_identity mat4_identity (mkmat3 (mkvec3 1 0 0) (mkvec3 0 1 0) (mkvec3 0 0 1))
         8 8 = Some out
       /\ rd out 0 = Some v
       /\ VertexOut.materialId v = 7%Z
       /\ VertexOut.dev_diffuseTex v = Some [255; 0; 0]%Z.
Proof.
  assert (H1 : (PrimitiveDevBufPointers.numVertices untextured_part
                <= Z.of_nat (length (PrimitiveDevBufPointers.dev_position untextured_part)))%Z)
    by (cbn; lia).
  assert (H2 : (PrimitiveDevBufPointers.numVertices untextured_part
                <= Z.of_nat (length (PrimitiveDevBufPointers.dev_normal untextured_part)))%Z)
    by (cbn; lia).
  assert (H3 : (PrimitiveDevBufPointers.numVertices untextured_part
                <= Z.of_nat (length (PrimitiveDevBufPointers.dev_verticesOut untextured_part)))%Z)
    by (cbn; lia).
  split; [repeat split; assumption|].
  destruct (X17_vertex_stage_transforms_every_vertex (fun v => v) untextured_part
              mat4_identity mat4_identity (mkmat3 (mkvec3 1 0 0) (mkvec3 0 1 0) (mkvec3 0 0 1))
              8 8 H1 H2 H3 (or_introl eq_refl)) as (out & E & _ & Hall & _).
  destruct (Hall 0%Z ltac:(cbn; lia)) as (o & v & Ho & Hv & Hw).
  exists out, v. split; [exact E|]. split; [exact Hv|].
  destruct Hw as (position & normal & _ & _ & _ & _ & _ & _ & Hm & Ht).
  split; [exact Hm|]. cbn in Ht, Ho. injection Ho as <-.
  injection Ht as _ Ht _ _. exact Ht.
Defined.

(** ** Texture lookups *)

Lemma texel_byte (texels : list TextureData) (i : Z) (t : Q) :
  texture_bytes texels -> texel texels i = Some t -> 0 <= t <= 255.
Proof.
  intros Hb H. unfold texel in H. apply bind_Some in H as (b & Hrd & [= <-]).
  unfold rd in Hrd. destruct (i <? 0)%Z; [discriminate|].
  unfold texture_bytes in Hb. rewrite Forall_forall in Hb.
  apply list_elem_of_lookup_2, Hb in Hrd.
  split; [change 0 with (inject_Z 0)|change 255 with (inject_Z 255)];
    rewrite <- Zle_Qle; lia.
Qed.

Lemma lerp_between (a b r lo hi : Q) :
  lo <= a <= hi -> lo <= b <= hi -> 0 <= r <= 1 -> lo <= a * (1 - r) + b * r <= hi.
Proof.
  intros Ha Hb Hr.
  pose proof (convex_between (1 - r) r 0 a b a lo hi) as H.
  assert (E : (1 - r) * a + r * b + 0 * a == a * (1 - r) + b * r) by ring.
  rewrite E in H. apply H; try lra.
Qed.

Lemma frac_unit (u : Q) : 0 <= u - int_to_float (glm_floor u) <= 1.
Proof.
  unfold int_to_float, glm_floor. pose proof (Qfloor_le u). pose proof (Qlt_floor u).
  rewrite inject_Z_plus in H0. assert (inject_Z 1 == 1) by reflexivity. lra.
Qed.

Lemma byte_to_unit (t : Q) : 0 <= t <= 255 -> within 0 1 (t / 255).
Proof.
  intros [H0 H1]. unfold within. split.
  - apply Qle_shift_div_l; lra.
  - apply Qle_shift_div_r; lra.
Qed.

(** X18.  Whenever the bilinear lookup stays inside a texture of bytes, its
    three colour channels lie in [0,1]; its alpha is 1/255, not 1, since the
    whole vector, alpha included, is divided by 255. *)
Theorem X18_bilinear_color_range (texels : list TextureData) (uv : vec2)
    (texWidth texHeight : Z) (c : vec4) :
  texture_bytes texels ->
  getBilinearFilteredPixelColor texels uv texWidth texHeight = Some c ->
  rgb_in_unit c /\ w4 c == 1 # 255.
Proof.
  intros Hb H. unfold getBilinearFilteredPixelColor in H. cbv zeta in H.
  set (u := x2 uv * int_to_float texWidth - (1 # 2)) in *.
  set (v := y2 uv * int_to_float texHeight - (1 # 2)) in *.
  pose proof (frac_unit u) as Hu. pose proof (frac_unit v) as Hv.
  set (ur := u - int_to_float (glm_floor u)) in *.
  set (vr := v - int_to_float (glm_floor v)) in *.
  assert (Hch : forall k ch,
             (t0 ← texel texels (3 * (glm_floor u + glm_floor v * texWidth) + k);
              t1 ← texel texels (3 * (glm_floor u + 1 + glm_floor v * texWidth) + k);
              t2 ← texel texels (3 * (glm_floor u + (glm_floor v + 1) * texWidth) + k);
              t3 ← texel texels (3 * (glm_floor u + 1 + (glm_floor v + 1) * texWidth) + k);
              Some ((t0 * (1 - ur) + t1 * ur) * (1 - vr)
                    + (t2 * (1 - ur) + t3 * ur) * vr)) = Some ch ->
             0 <= ch <= 255).
  { intros k ch Hk.
    apply bind_Some in Hk as (t0 & H0 & Hk). apply bind_Some in Hk as (t1 & H1 & Hk).
    apply bind_Some in Hk as (t2 & H2 & Hk). apply bind_Some in Hk as (t3 & H3 & Hk).
    injection Hk as <-.
    apply (texel_byte _ _ _ Hb) in H0, H1, H2, H3.
    apply lerp_between; [apply lerp_between; assumption..|assumption]. }
  apply bind_Some in H as (red & Hr & H). apply bind_Some in H as (green & Hg & H).
  apply bind_Some in H as (blue & Hbl & H). injection H as <-.
  apply Hch in Hr, Hg, Hbl. unfold rgb_in_unit. cbn [vec4_div x4 y4 z4 w4].
  split; [split; [|split]; apply byte_to_unit; assumption|reflexivity].
Qed.

Lemma X18_bilinear_color_range_witness :
  exists c,
    (texture_bytes checker_texels
     /\ getBilinearFilteredPixelColor checker_texels (mkvec2 (1 # 2) (1 # 2)) 2 2 = Some c)
    /\ rgb_in_unit c /\ w4 c == 1 # 255.
Proof.
  destruct (getBilinearFilteredPixelColor checker_texels (mkvec2 (1 # 2) (1 # 2)) 2 2)
    as [c|] eqn:E; [|vm_compute in E; discriminate].
  assert (Hb : texture_bytes checker_texels).
  { unfold texture_bytes, checker_texels. repeat constructor; lia. }
  exists c. split; [split; [exact Hb|reflexivity]|].
  exact (X18_bilinear_color_range checker_texels (mkvec2 (1 # 2) (1 # 2)) 2 2 c Hb E).
Defined.

Lemma texel_outside (texels : list TextureData) (i : Z) :
  (i < 0 \/ Z.of_nat (length texels) <= i)%Z -> texel texels i = None.
Proof. intros H. unfold texel. rewrite rd_None_out by exact H. reflexivity. Qed.

Lemma floor_between (q : Q) (k : Z) :
  inject_Z k <= q -> q < inject_Z (k + 1) -> Qfloor q = k.
Proof.
  intros Hlo Hhi.
  apply Qfloor_resp_le in Hlo. rewrite Qfloor_Z in Hlo.
  assert (Qfloor q < k + 1)%Z; [|lia].
  rewrite Zlt_Qlt. eapply Qle_lt_trans; [apply Qfloor_le|exact Hhi].
Qed.

(** X19.  The bilinear lookup reads outside the texture near its first and
    last row: for a texture of [texWidth] x [texHeight] texels in a buffer
    of exactly that size and any coordinate in [0,1] x [0,1] whose v lies
    within half a texel of 0 or of 1, one of the four texels read lies
    before the start or behind the end of the buffer. *)
Theorem X19_bilinear_reads_outside_at_border (texels : list TextureData) (uv : vec2)
    (texWidth texHeight : Z) :
  (0 < texWidth)%Z -> (0 < texHeight)%Z ->
  Z.of_nat (length texels) = (3 * texWidth * texHeight)%Z ->
  0 <= x2 uv <= 1 -> 0 <= y2 uv <= 1 ->
  y2 uv * int_to_float texHeight < 1 # 2
  \/ int_to_float texHeight - (1 # 2) <= y2 uv * int_to_float texHeight ->
  getBilinearFilteredPixelColor texels uv texWidth texHeight = None.
Proof.
  intros HW HH Hlen Hu Hv Hborder. unfold getBilinearFilteredPixelColor. cbv zeta.
  unfold glm_floor, int_to_float in *.
  assert (QW : 0 < inject_Z texWidth) by (change 0 with (inject_Z 0); rewrite <- Zlt_Qlt; lia).
  assert (QH : 0 < inject_Z texHeight) by (change 0 with (inject_Z 0); rewrite <- Zlt_Qlt; lia).
  assert (Hu0 : 0 <= x2 uv * inject_Z texWidth) by (apply Qmult_le_0_compat; lra).
  assert (Hv0 : 0 <= y2 uv * inject_Z texHeight) by (apply Qmult_le_0_compat; lra).
  assert (Hu1 : x2 uv * inject_Z texWidth <= inject_Z texWidth).
  { assert (E : inject_Z texWidth - x2 uv * inject_Z texWidth
                == (1 - x2 uv) * inject_Z texWidth) by ring.
    assert (0 <= (1 - x2 uv) * inject_Z texWidth) by (apply Qmult_le_0_compat; lra). lra. }
  assert (Hv1 : y2 uv * inject_Z texHeight <= inject_Z texHeight).
  { assert (E : inject_Z texHeight - y2 uv * inject_Z texHeight
                == (1 - y2 uv) * inject_Z texHeight) by ring.
    assert (0 <= (1 - y2 uv) * inject_Z texHeight) by (apply Qmult_le_0_compat; lra). lra. }
  set (u := x2 uv * inject_Z texWidth - (1 # 2)) in *.
  set (v := y2 uv * inject_Z texHeight - (1 # 2)) in *.
  assert (Hx : (-1 <= Qfloor u <= texWidth - 1)%Z).
  { split.
    - rewrite <- (Qfloor_Z (-1)). apply Qfloor_resp_le. unfold u.
      change (inject_Z (-1)) with (-1). lra.
    - assert (Qfloor u < texWidth)%Z; [|lia]. rewrite Zlt_Qlt.
      eapply Qle_lt_trans; [apply Qfloor_le|]. unfold u. lra. }
  destruct Hborder as [Htop|Hbottom].
  - assert (Hy : Qfloor v = (-1)%Z).
    { apply floor_between; unfold v.
      - change (inject_Z (-1)) with (-1). lra.
      - change (inject_Z (-1 + 1)) with 0. lra. }
    rewrite Hy.
    assert (Hout : (3 * (Qfloor u + -1 * texWidth) + 0 < 0)%Z).
    { clear -Hx HW. lia. }
    rewrite (texel_outside texels (3 * (Qfloor u + -1 * texWidth) + 0)) by (left; exact Hout).
    reflexivity.
  - assert (Hy : Qfloor v = (texHeight - 1)%Z).
    { apply floor_between; unfold v.
      - unfold Z.sub. rewrite inject_Z_plus, inject_Z_opp. change (inject_Z 1) with 1. lra.
      - replace (texHeight - 1 + 1)%Z with texHeight by lia. lra. }
    rewrite Hy.
    assert (Hout : (Z.of_nat (length texels)
                    <= 3 * (Qfloor u + 1 + (texHeight - 1 + 1) * texWidth) + 0)%Z).
    { rewrite Hlen. clear -Hx HW HH. nia. }
    rewrite (texel_outside texels
               (3 * (Qfloor u + 1 + (texHeight - 1 + 1) * texWidth) + 0))
      by (right; exact Hout).
    destruct (texel texels (3 * (Qfloor u + (texHeight - 1) * texWidth) + 0));
      [|reflexivity].
    destruct (texel texels (3 * (Qfloor u + 1 + (texHeight - 1) * texWidth) + 0));
      [|reflexivity].
    destruct (texel texels (3 * (Qfloor u + (texHeight - 1 + 1) * texWidth) + 0));
      reflexivity.
Qed.

Lemma X19_bilinear_reads_outside_at_border_witness :
  ((0 < 2)%Z /\ (0 < 2)%Z /\ Z.of_nat (length checker_texels) = (3 * 2 * 2)%Z
   /\ 0 <= x2 (mkvec2 0 0) <= 1 /\ 0 <= y2 (mkvec2 0 0) <= 1
   /\ (y2 (mkvec2 0 0) * int_to_float 2 < 1 # 2
       \/ int_to_float 2 - (1 # 2) <= y2 (mkvec2 0 0) * int_to_float 2))
  /\ getBilinearFilteredPixelColor checker_texels (mkvec2 0 0) 2 2 = None.
Proof.
  assert (H1 : (0 < 2)%Z) by lia.
  assert (H2 : Z.of_nat (length checker_texels) = (3 * 2 * 2)%Z) by reflexivity.
  assert (H3 : 0 <= x2 (mkvec2 0 0) <= 1) by (cbn; lra).
  assert (H4 : 0 <= y2 (mkvec2 0 0) <= 1) by (cbn; lra).
  assert (H5 : y2 (mkvec2 0 0) * int_to_float 2 < 1 # 2
               \/ int_to_float 2 - (1 # 2) <= y2 (mkvec2 0 0) * int_to_float 2)
    by (left; reflexivity).
  split; [tauto|].
  exact (X19_bilinear_reads_outside_at_border checker_texels (mkvec2 0 0) 2 2
           H1 H1 H2 H3 H4 H5).
Defined.

(** X20.  On a square texture of bytes, held in a buffer of its size, the
    nearest-neighbour lookup of a coordinate in [0,1) x [0,1) stays inside
    the buffer and returns a colour with channels in [0,1] and alpha 1. *)
Theorem X20_nearest_color_square_texture (texels : list TextureData) (uv : vec2)
    (side : Z) :
  (0 < side)%Z ->
  Z.of_nat (length texels) = (3 * side * side)%Z ->
  texture_bytes texels ->
  0 <= x2 uv -> x2 uv < 1 -> 0 <= y2 uv -> y2 uv < 1 ->
  exists c, nearest_color texels uv side side = Some c
            /\ rgb_in_unit c /\ w4 c = 1.
Proof.
  intros Hs Hlen Hb Hu0 Hu1 Hv0 Hv1. unfold nearest_color, nearest_texIndex, int_to_float.
  assert (QS : 0 < inject_Z side) by (change 0 with (inject_Z 0); rewrite <- Zlt_Qlt; lia).
  assert (Hcell : forall t, 0 <= t -> t < 1 ->
            (0 <= float_to_int (t * inject_Z side) < side)%Z).
  { intros t Ht0 Ht1.
    assert (0 <= t * inject_Z side) by (apply Qmult_le_0_compat; lra).
    rewrite float_to_int_nonneg by assumption. split.
    - rewrite <- (Qfloor_Z 0). apply Qfloor_resp_le. assumption.
    - rewrite Zlt_Qlt. eapply Qle_lt_trans; [apply Qfloor_le|].
      assert (E : inject_Z side - t * inject_Z side == (1 - t) * inject_Z side) by ring.
      assert (0 < (1 - t) * inject_Z side) by (apply Qmult_lt_0_compat; lra). lra. }
  pose proof (Hcell _ Hu0 Hu1) as Hx. pose proof (Hcell _ Hv0 Hv1) as Hy.
  set (i := (float_to_int (x2 uv * inject_Z side)
             + float_to_int (y2 uv * inject_Z side) * side)%Z) in *.
  assert (Hi : (0 <= i < side * side)%Z) by (unfold i; nia).
  assert (Hrd : forall k, (0 <= k < 3)%Z -> exists t, texel texels (3 * i + k) = Some t
                                                       /\ 0 <= t <= 255).
  { intros k Hk. destruct (rd_in_bounds texels (3 * i + k)%Z ltac:(nia)) as [b Hb'].
    assert (E : texel texels (3 * i + k) = Some (inject_Z b))
      by (unfold texel; rewrite Hb'; reflexivity).
    exists (inject_Z b). split; [exact E|]. eapply texel_byte; eauto. }
  destruct (Hrd 0%Z ltac:(lia)) as (r & Er & Hr). rewrite Z.add_0_r in Er.
  destruct (Hrd 1%Z ltac:(lia)) as (g & Eg & Hg).
  destruct (Hrd 2%Z ltac:(lia)) as (b & Eb & Hbl).
  cbv zeta. rewrite Er, Eg, Eb. cbn [mbind option_bind].
  eexists. split; [reflexivity|]. unfold rgb_in_unit. cbn [x4 y4 z4 w4].
  split; [split; [|split]; apply byte_to_unit; assumption|reflexivity].
Qed.

Lemma X20_nearest_color_square_texture_witness :
  ((0 < 2)%Z /\ Z.of_nat (length checker_texels) = (3 * 2 * 2)%Z
   /\ texture_bytes checker_texels
   /\ 0 <= x2 (mkvec2 (1 # 2) 0) /\ x2 (mkvec2 (1 # 2) 0) < 1
   /\ 0 <= y2 (mkvec2 (1 # 2) 0) /\ y2 (mkvec2 (1 # 2) 0) < 1)
  /\ exists c, nearest_color checker_texels (mkvec2 (1 # 2) 0) 2 2 = Some c
               /\ rgb_in_unit c /\ w4 c = 1.
Proof.
  assert (H1 : (0 < 2)%Z) by lia.
  assert (H2 : Z.of_nat (length checker_texels) = (3 * 2 * 2)%Z) by reflexivity.
  assert (H3 : texture_bytes checker_texels).
  { unfold texture_bytes, checker_texels. repeat constructor; lia. }
  assert (H4 : 0 <= x2 (mkvec2 (1 # 2) 0)) by (cbn; lra).
  assert (H5 : x2 (mkvec2 (1 # 2) 0) < 1) by reflexivity.
  assert (H6 : 0 <= y2 (mkvec2 (1 # 2) 0)) by (cbn; lra).
  assert (H7 : y2 (mkvec2 (1 # 2) 0) < 1) by reflexivity.
  split; [tauto|].
  exact (X20_nearest_color_square_texture checker_texels (mkvec2 (1 # 2) 0) 2
           H1 H2 H3 H4 H5 H6 H7).
Defined.

(** ** The buffer copy of [rasterizeSetBuffers] *)

Lemma run_all_ext {I S : Type} (body body' : I -> S -> option S) (ids : list I) :
  (forall i s, body i s = body' i s) ->
  forall s, run_all body ids s = run_all body' ids s.
Proof.
  intros H. induction ids as [|i ids IH]; intros s; [reflexivity|].
  cbn. rewrite H. destruct (body' i s); [apply IH|reflexivity].
Qed.

Lemma run_all_app {I S : Type} (body : I -> S -> option S) (a b : list I) :
  forall s, run_all body (a ++ b) s = run_all body a s ≫= run_all body b.
Proof.
  induction a as [|i a IH]; intros s; [reflexivity|].
  cbn. destruct (body i s); [apply IH|reflexivity].
Qed.

Lemma run_all_pairs {I J S : Type} (f : I -> J -> S -> option S) (i : I) (js : list J) :
  forall s, run_all (fun ij => f (fst ij) (snd ij)) (map (pair i) js) s = run_all (f i) js s.
Proof.
  induction js as [|j js IH]; intros s; [reflexivity|].
  cbn. destruct (f i j s); [apply IH|reflexivity].
Qed.

(** A loop nested in a launch is a run over the pairs of their indices. *)
Lemma run_all_nested {I J S : Type} (f : I -> J -> S -> option S) (js : I -> list J)
    (ids : list I) :
  forall s,
    run_all (fun i s => run_all (f i) (js i) s) ids s
    = run_all (fun ij => f (fst ij) (snd ij))
              (flat_map (fun i => map (pair i) (js i)) ids) s.
Proof.
  induction ids as [|i ids IH]; intros s; [reflexivity|].
  cbn [flat_map run_all]. rewrite run_all_app, run_all_pairs.
  destruct (run_all (f i) (js i) s); [apply IH|reflexivity].
Qed.

(** A run in which every step stores a value that does not depend on the
    buffer, steps on the same cell storing the same value. *)
Lemma run_all_writes {I A : Type} (cell : I -> Z) (val : I -> option A)
    (body : I -> list A -> option (list A)) (ids : list I) :
  (forall id s, body id s = v ← val id; wr s (cell id) v) ->
  (forall id id', In id ids -> In id' ids -> cell id = cell id' -> val id = val id') ->
  forall s s', run_all body ids s = Some s' ->
    length s' = length s
    /\ (forall k, (forall id, In id ids -> cell id <> k) -> rd s' k = rd s k)
    /\ (forall id, In id ids -> rd s' (cell id) = val id /\ is_Some (val id)).
Proof.
  intros Hbody. induction ids as [|id0 ids IH]; intros Hcons s s' H; cbn in H.
  - injection H as <-. split; [reflexivity|]. split; [reflexivity|intros ? []].
  - rewrite Hbody in H. destruct (val id0) as [v|] eqn:Ev; [|discriminate].
    cbn [mbind option_bind] in H.
    destruct (wr s (cell id0) v) as [s1|] eqn:Ew; [|discriminate].
    apply wr_inv in Ew as [Hin ->].
    destruct (IH (fun a b Ha Hb => Hcons a b (or_intror Ha) (or_intror Hb)) _ _ H)
      as (L & F & W).
    split; [rewrite L; apply length_insert|]. split.
    + intros k Hk. rewrite F by (intros id Hid; apply Hk; right; exact Hid).
      apply rd_insert_other; [lia|]. apply Hk. left. reflexivity.
    + intros id [<-|Hid]; [|apply W; exact Hid].
      rewrite Ev. split; [|eauto].
      destruct (in_dec Z.eq_dec (cell id0) (map cell ids)) as [Hi|Hn].
      * apply in_map_iff in Hi as (id' & Ec & Hid').
        rewrite <- Ec, (proj1 (W id' Hid')), <- Ev. symmetry.
        apply Hcons; [left; reflexivity|right; exact Hid'|congruence].
      * rewrite F; [apply rd_insert_eq; exact Hin|].
        intros id Hid Ec. apply Hn. apply in_map_iff. exists id. split; assumption.
Qed.

Lemma deviceBufferCopy_as_loop (N : Z) (dev_src : list BufferByte)
    (n byteStride byteOffset size : Z) (i : Z) (dst : list BufferByte) :
  _deviceBufferCopy N dev_src n byteStride byteOffset size i dst
  = run_all (fun j s => b ← rd dev_src (copy_source n byteStride byteOffset size i j);
                        wr s (i * size + j)%Z b)
            (if (i <? N)%Z then thread_ids (Z.to_nat size) else []) dst.
Proof.
  unfold _deviceBufferCopy. destruct (i <? N)%Z; [|reflexivity]. cbv zeta.
  apply run_all_ext. intros j s. unfold copy_byte, copy_source.
  replace (Z.quot i n * size * n + (i - Z.quot i n * n) * size + j)%Z
    with (i * size + j)%Z by ring.
  reflexivity.
Qed.

Lemma copy_pairs_In (N size i j : Z) :
  In (i, j) (flat_map (fun i => map (pair i)
                                    (if (i <? N)%Z then thread_ids (Z.to_nat size) else []))
                      (thread_ids (launch_size_1d N)))
  <-> (0 <= i < N)%Z /\ (0 <= j < size)%Z.
Proof.
  rewrite in_flat_map. split.
  - intros (i' & Hi' & Hp). apply in_map_iff in Hp as (j' & E & Hj'). injection E as -> ->.
    apply thread_ids_In in Hi'. destruct (Z.ltb_spec i N); [|destruct Hj'].
    apply thread_ids_In in Hj'. lia.
  - intros [Hi Hj]. exists i. split; [apply launch_size_1d_covers; exact Hi|].
    apply in_map_iff. exists j. split; [reflexivity|].
    destruct (Z.ltb_spec i N); [|lia]. apply thread_ids_In. lia.
Qed.

Lemma launch_deviceBufferCopy_copies (N : Z) (dev_src : list BufferByte)
    (n byteStride byteOffset size : Z) (dst : list BufferByte) :
  (0 < size)%Z ->
  (N * size <= Z.of_nat (length dst))%Z ->
  (forall i j, (0 <= i < N)%Z -> (0 <= j < size)%Z ->
     is_Some (rd dev_src (copy_source n byteStride byteOffset size i j))) ->
  exists dst',
    launch_deviceBufferCopy N dev_src n byteStride byteOffset size dst = Some dst'
    /\ length dst' = length dst
    /\ (forall i j, (0 <= i < N)%Z -> (0 <= j < size)%Z ->
          rd dst' (i * size + j)
          = rd dev_src (copy_source n byteStride byteOffset size i j))
    /\ (forall k, (k < 0 \/ N * size <= k)%Z -> rd dst' k = rd dst k).
Proof.
  intros Hsize Hroom Hsrc. unfold launch_deviceBufferCopy.
  set (js := fun i : Z => if (i <? N)%Z then thread_ids (Z.to_nat size) else []).
  set (step := fun (i j : Z) (s : list BufferByte) =>
                 b ← rd dev_src (copy_source n byteStride byteOffset size i j);
                 wr s (i * size + j)%Z b).
  set (pairs := flat_map (fun i => map (pair i) (js i)) (thread_ids (launch_size_1d N))).
  assert (E : forall s,
             run_all (_deviceBufferCopy N dev_src n byteStride byteOffset size)
                     (thread_ids (launch_size_1d N)) s
             = run_all (fun ij => step (fst ij) (snd ij)) pairs s).
  { intros s. unfold pairs. rewrite <- run_all_nested. apply run_all_ext.
    intros i t. apply deviceBufferCopy_as_loop. }
  rewrite E.
  destruct (run_all_total (fun s => length s = length dst)
              (fun ij => step (fst ij) (snd ij)) pairs) with (s := dst)
    as (dst' & Hrun & _); [|reflexivity|].
  { intros [i j] s Hij Hlen. apply copy_pairs_In in Hij as [Hi Hj].
    destruct (Hsrc i j Hi Hj) as [b Hb]. unfold step. cbn [fst snd]. rewrite Hb.
    cbn [mbind option_bind]. rewrite wr_Some by nia.
    eexists. split; [reflexivity|]. rewrite length_insert. exact Hlen. }
  exists dst'. split; [exact Hrun|].
  destruct (run_all_writes (fun ij : Z * Z => (fst ij * size + snd ij)%Z)
              (fun ij => rd dev_src (copy_source n byteStride byteOffset size (fst ij) (snd ij)))
              (fun ij => step (fst ij) (snd ij)) pairs) with (s := dst) (s' := dst')
    as (L & F & W); [reflexivity| |exact Hrun|].
  { intros [i j] [i' j'] Hij Hij' Ec. cbn [fst snd] in *.
    apply copy_pairs_In in Hij as [Hi Hj]. apply copy_pairs_In in Hij' as [Hi' Hj'].
    assert (i = i') by nia. subst i'. assert (j = j') by lia. subst j'. reflexivity. }
  split; [exact L|]. split.
  - intros i j Hi Hj. apply (W (i, j)). apply copy_pairs_In. tauto.
  - intros k Hk. apply F. intros [i j] Hij Ec. cbn [fst snd] in Ec.
    apply copy_pairs_In in Hij as [Hi Hj]. nia.
Qed.

(** X21.  When the destination has room for [N] components and every byte
    to be read lies in the buffer view, the launch of [_deviceBufferCopy]
    completes and gathers the components: byte [j] of component [i] of the
    destination is the byte of the view at
    [byteOffset + (i / n) * stride + (i mod n) * size + j], the stride being
    [byteStride], or [size * n] when [byteStride] is 0.  The destination
    keeps its length and every byte behind the [N] components. *)
Theorem X21_buffer_copy_gathers_components (N : Z) (dev_src : list BufferByte)
    (n byteStride byteOffset size : Z) (dst : list BufferByte) :
  (0 < size)%Z ->
  (N * size <= Z.of_nat (length dst))%Z ->
  (forall i j, (0 <= i < N)%Z -> (0 <= j < size)%Z ->
     is_Some (rd dev_src (copy_source n byteStride byteOffset size i j))) ->
  exists dst',
    launch_deviceBufferCopy N dev_src n byteStride byteOffset size dst = Some dst'
    /\ length dst' = length dst
    /\ (forall i j, (0 <= i < N)%Z -> (0 <= j < size)%Z ->
          rd dst' (i * size + j)
          = rd dev_src (copy_source n byteStride byteOffset size i j))
    /\ (forall k, (k < 0 \/ N * size <= k)%Z -> rd dst' k = rd dst k).
Proof. exact (launch_deviceBufferCopy_copies N dev_src n byteStride byteOffset size dst). Qed.

Lemma interleaved_view_readable (i j : Z) :
  (0 <= i < 2)%Z -> (0 <= j < 2)%Z ->
  is_Some (rd interleaved_view (copy_source 1 4 1 2 i j)).
Proof.
  intros Hi Hj.
  assert (i = 0 \/ i = 1)%Z as [-> | ->] by lia;
    (assert (j = 0 \/ j = 1)%Z as [-> | ->] by lia); eexists; reflexivity.
Defined.

Lemma X21_buffer_copy_gathers_components_witness :
  ((0 < 2)%Z /\ (2 * 2 <= Z.of_nat (length [0; 0; 0; 0; 99]%Z))%Z
   /\ (forall i j, (0 <= i < 2)%Z -> (0 <= j < 2)%Z ->
         is_Some (rd interleaved_view (copy_source 1 4 1 2 i j))))
  /\ exists dst',
       launch_deviceBufferCopy 2 interleaved_view 1 4 1 2 [0; 0; 0; 0; 99]%Z = Some dst'
       /\ rd dst' (1 * 2 + 0) = Some 15%Z
       /\ rd dst' 4 = Some 99%Z.
Proof.
  assert (H1 : (0 < 2)%Z) by lia.
  assert (H2 : (2 * 2 <= Z.of_nat (length [0; 0; 0; 0; 99]%Z))%Z) by (cbn; lia).
  split; [repeat split; [exact H2|exact interleaved_view_readable]|].
  destruct (X21_buffer_copy_gathers_components 2 interleaved_view 1 4 1 2
              [0; 0; 0; 0; 99]%Z H1 H2 interleaved_view_readable)
    as (dst' & E & _ & Hcopy & Hrest).
  exists dst'. split; [exact E|]. split.
  - rewrite (Hcopy 1%Z 0%Z) by lia. reflexivity.
  - rewrite (Hrest 4%Z) by lia. reflexivity.
Defined.

(** X22.  For a tightly packed accessor ([byteStride] 0) the launch of
    [_deviceBufferCopy] is a plain copy: the first [N * size] bytes of the
    destination are the bytes of the buffer view from [byteOffset] on, in
    order, whatever the number [n] of components per attribute. *)
Theorem X22_packed_buffer_copy_is_verbatim (N : Z) (dev_src : list BufferByte)
    (n byteOffset size : Z) (dst : list BufferByte) :
  (0 < size)%Z -> (0 <= byteOffset)%Z ->
  (N * size <= Z.of_nat (length dst))%Z ->
  (byteOffset + N * size <= Z.of_nat (length dev_src))%Z ->
  exists dst',
    launch_deviceBufferCopy N dev_src n 0 byteOffset size dst = Some dst'
    /\ forall k, (0 <= k < N * size)%Z -> rd dst' k = rd dev_src (byteOffset + k).
Proof.
  intros Hsize Hoff Hroom Hsrc.
  assert (Es : forall i j, copy_source n 0 byteOffset size i j = (byteOffset + (i * size + j))%Z).
  { intros i j. unfold copy_source. cbn [Z.eqb]. ring. }
  destruct (launch_deviceBufferCopy_copies N dev_src n 0 byteOffset size dst Hsize Hroom)
    as (dst' & Hrun & _ & Hcopy & _).
  { intros i j Hi Hj. rewrite Es. destruct (rd_in_bounds dev_src (byteOffset + (i * size + j))%Z)
      as [b Hb]; [nia|]. exists b. exact Hb. }
  exists dst'. split; [exact Hrun|]. intros k Hk.
  pose proof (Z.div_mod k size ltac:(lia)) as Hdm.
  pose proof (Z.mod_pos_bound k size Hsize) as Hm.
  assert (Hq : (0 <= k / size < N)%Z).
  { split; [apply Z.div_pos; lia|]. apply Z.div_lt_upper_bound; lia. }
  specialize (Hcopy (k / size)%Z (k mod size)%Z Hq Hm). rewrite Es in Hcopy.
  replace (k / size * size + k mod size)%Z with k in Hcopy by lia. exact Hcopy.
Qed.

Lemma X22_packed_buffer_copy_is_verbatim_witness :
  ((0 < 2)%Z /\ (0 <= 2)%Z /\ (3 * 2 <= Z.of_nat (length [0; 0; 0; 0; 0; 0]%Z))%Z
   /\ (2 + 3 * 2 <= Z.of_nat (length interleaved_view))%Z)
  /\ exists dst',
       launch_deviceBufferCopy 3 interleaved_view 3 0 2 2 [0; 0; 0; 0; 0; 0]%Z = Some dst'
       /\ rd dst' 5 = Some 17%Z.
Proof.
  assert (H1 : (0 < 2)%Z) by lia.
  assert (H2 : (0 <= 2)%Z) by lia.
  assert (H3 : (3 * 2 <= Z.of_nat (length [0; 0; 0; 0; 0; 0]%Z))%Z) by (cbn; lia).
  assert (H4 : (2 + 3 * 2 <= Z.of_nat (length interleaved_view))%Z) by (cbn; lia).
  split; [tauto|].
  destruct (X22_packed_buffer_copy_is_verbatim 3 interleaved_view 3 2 2
              [0; 0; 0; 0; 0; 0]%Z H1 H2 H3 H4) as (dst' & E & Hcopy).
  exists dst'. split; [exact E|]. rewrite (Hcopy 5%Z) by lia. reflexivity.
Defined.

(** ** The fragment shader *)

Lemma run_all_fault {I S : Type} (body : I -> S -> option S) (ids : list I) (id : I) :
  In id ids -> (forall s, body id s = None) -> forall s, run_all body ids s = None.
Proof.
  induction ids as [|i ids IH]; intros Hin Hf s; [destruct Hin|].
  cbn. destruct Hin as [->|Hin]; [rewrite Hf; reflexivity|].
  destruct (body i s); [apply IH; assumption|reflexivity].
Qed.

Lemma run_all_filter {I S : Type} (active : I -> bool) (body : I -> S -> option S)
    (ids : list I) :
  (forall id s, active id = false -> body id s = Some s) ->
  forall s, run_all body ids s = run_all body (List.filter active ids) s.
Proof.
  intros Hidle. induction ids as [|i ids IH]; intros s; [reflexivity|].
  cbn. destruct (active i) eqn:E.
  - cbn. destruct (body i s); [apply IH|reflexivity].
  - rewrite Hidle by exact E. apply IH.
Qed.

Lemma run_all_ext_in {I S : Type} (body body' : I -> S -> option S) (ids : list I) :
  (forall i s, In i ids -> body i s = body' i s) ->
  forall s, run_all body ids s = run_all body' ids s.
Proof.
  induction ids as [|i ids IH]; intros H s; [reflexivity|].
  cbn. rewrite H by (left; reflexivity).
  destruct (body' i s); [apply IH; intros; apply H; right; assumption|reflexivity].
Qed.

(** A launch whose active threads each store one value that does not depend
    on the buffer written. *)
Lemma run_all_writes_active {I A : Type} (active : I -> bool) (cell : I -> Z)
    (val : I -> option A) (body : I -> list A -> option (list A)) (ids : list I) :
  (forall id s, body id s = if active id then v ← val id; wr s (cell id) v else Some s) ->
  (forall id id', In id ids -> In id' ids -> active id = true -> active id' = true ->
                  cell id = cell id' -> val id = val id') ->
  forall s s', run_all body ids s = Some s' ->
    length s' = length s
    /\ (forall k, (forall id, In id ids -> active id = true -> cell id <> k) ->
                  rd s' k = rd s k)
    /\ (forall id, In id ids -> active id = true ->
          rd s' (cell id) = val id /\ is_Some (val id)).
Proof.
  intros Hbody Hcons s s' H.
  rewrite (run_all_filter active) in H
    by (intros id t Hid; rewrite Hbody, Hid; reflexivity).
  rewrite (run_all_ext_in _ (fun id t => v ← val id; wr t (cell id) v)) in H.
  2:{ intros id t Hid. apply filter_In in Hid as [_ Hact]. rewrite Hbody, Hact. reflexivity. }
  destruct (run_all_writes cell val _ (List.filter active ids) (fun _ _ => eq_refl))
    with (s := s) (s' := s') as (L & F & W); [|exact H|].
  { intros id id' [Hi Ha]%filter_In [Hi' Ha']%filter_In. apply Hcons; assumption. }
  split; [exact L|]. split.
  - intros k Hk. apply F. intros id [Hi Ha]%filter_In. apply Hk; assumption.
  - intros id Hi Ha. apply W. apply filter_In. split; assumption.
Qed.

Lemma wr_wr {A : Type} (buf : list A) (i : Z) (u v : A) :
  (wr buf i u ≫= fun buf1 => wr buf1 i v) = wr buf i v.
Proof.
  unfold wr. destruct (i <? 0)%Z; [reflexivity|].
  destruct (Z.ltb_spec i (Z.of_nat (length buf))) as [H|H]; [|reflexivity].
  cbn [mbind option_bind]. rewrite length_insert.
  destruct (Z.ltb_spec i (Z.of_nat (length buf))); [|lia].
  rewrite list_insert_insert_eq. reflexivity.
Qed.

Lemma wr_None_any {A : Type} (buf : list A) (i : Z) (u v : A) :
  wr buf i u = None -> wr buf i v = None.
Proof.
  unfold wr. destruct (i <? 0)%Z; [reflexivity|].
  destruct (i <? Z.of_nat (length buf))%Z; [discriminate|reflexivity].
Qed.

Section RenderFacts.
Variable normalize : vec3 -> vec3.
Variable pow : Q -> Q -> Q.
Variable cfg : Config.
Variable rcfg : RenderConfig.
Variables (w h : Z) (fragmentBuffer : list Fragment.t) (depthAccum : list vec4).
Variables (depthRevealage : list Q) (materials : list Material.t).

Lemma render_as_write (xy : Z * Z) (fb : list vec4) :
  render normalize pow cfg rcfg w h fragmentBuffer depthAccum depthRevealage materials xy fb
  = if (fst xy <? w)%Z && (snd xy <? h)%Z then
      v ← render_value normalize pow cfg rcfg fragmentBuffer depthAccum depthRevealage
            materials (flat_index (fst xy) (snd xy) w);
      wr fb (flat_index (fst xy) (snd xy) w) v
    else Some fb.
Proof.
  destruct xy as [x y]. cbn [fst snd]. unfold render, render_value.
  destruct ((x <? w)%Z && (y <? h)%Z); [|reflexivity].
  set (index := flat_index x y w).
  destruct (RENDER_DEPTH_ONLY cfg).
  { destruct (rd fragmentBuffer index); reflexivity. }
  destruct (RENDER_NORMAL_ONLY rcfg).
  { destruct (rd fragmentBuffer index); reflexivity. }
  destruct (rd fragmentBuffer index) as [f|]; [|reflexivity]. cbn [mbind option_bind].
  assert (E : forall c : vec4,
             (wr fb index c ≫= fun framebuffer =>
                if USE_K_BUFFER cfg then
                  a ← rd depthAccum index; r ← rd depthRevealage index;
                  wr framebuffer index (kbuffer_composite a r)
                else Some framebuffer)
             = ((if USE_K_BUFFER cfg then
                   a ← rd depthAccum index; r ← rd depthRevealage index;
                   Some (kbuffer_composite a r)
                 else Some c) ≫= wr fb index)).
  { intros c. destruct (USE_K_BUFFER cfg).
    - destruct (rd depthAccum index) as [a|]; cbn [mbind option_bind].
      + destruct (rd depthRevealage index) as [r|]; cbn [mbind option_bind].
        * apply wr_wr.
        * destruct (wr fb index c); reflexivity.
      + destruct (wr fb index c); reflexivity.
    - cbn [mbind option_bind]. destruct (wr fb index c); reflexivity. }
  destruct (negb (Fragment.materialId f =? -1)%Z).
  - destruct (shade normalize pow rcfg f materials) as [c|]; [|reflexivity].
    cbn [mbind option_bind]. rewrite E.
    destruct (if USE_K_BUFFER cfg then _ else _); reflexivity.
  - cbn [mbind option_bind]. rewrite E.
    destruct (if USE_K_BUFFER cfg then _ else _); reflexivity.
Qed.

(** After the launch every pixel of the image holds the colour of its
    thread. *)
Lemma launch_render_values (fb fb' : list vec4) :
  launch_render normalize pow cfg rcfg w h fragmentBuffer depthAccum depthRevealage
    materials fb = Some fb' ->
  length fb' = length fb
  /\ forall x y, (0 <= x < w)%Z -> (0 <= y < h)%Z ->
       exists c,
         render_value normalize pow cfg rcfg fragmentBuffer depthAccum depthRevealage
           materials (flat_index x y w) = Some c
         /\ rd fb' (flat_index x y w) = Some c.
Proof.
  unfold launch_render. intros H.
  destruct (run_all_writes_active
              (fun xy : Z * Z => (fst xy <? w)%Z && (snd xy <? h)%Z)
              (fun xy : Z * Z => flat_index (fst xy) (snd xy) w)
              (fun xy : Z * Z =>
                 render_value normalize pow cfg rcfg fragmentBuffer depthAccum
                   depthRevealage materials (flat_index (fst xy) (snd xy) w))
              _ (grid_2d w h) render_as_write) with (s := fb) (s' := fb')
    as (L & _ & W); [|exact H|].
  { intros id id' _ _ _ _ Ec. cbn beta in *. rewrite Ec. reflexivity. }
  split; [exact L|]. intros x y Hx Hy.
  destruct (W (x, y)) as [E [c Hc]]; [apply grid_2d_covers; assumption| |].
  { cbn [fst snd]. apply andb_true_iff. split; apply Z.ltb_lt; lia. }
  cbn [fst snd] in *. exists c. split; [exact Hc|]. rewrite E. exact Hc.
Qed.

End RenderFacts.

Lemma shade_needs_material (normalize : vec3 -> vec3) (pow : Q -> Q -> Q)
    (rcfg : RenderConfig) (f : Fragment.t) (materials : list Material.t) (c : vec4) :
  shade normalize pow rcfg f materials = Some c ->
  is_Some (rd materials (Fragment.materialId f)).
Proof.
  unfold shade. cbv zeta. intros H.
  apply bind_Some in H as (sp & _ & H). apply bind_Some in H as (df & _ & H).
  apply bind_Some in H as (ma & Hma & _). eauto.
Qed.

(** X23.  Under USE_K_BUFFER (and neither depth-only nor normal-only
    output) the colour [render] leaves in the framebuffer does not depend on
    the fragment or the materials: after a launch every pixel of the image
    holds accum.rgb / max(accum.a, 0.0001) and 1 - revealage, all divided
    by 50, from the pixel's accumulator and revealage. *)
Theorem X23_kbuffer_render_is_composite (normalize : vec3 -> vec3) (pow : Q -> Q -> Q)
    (cfg : Config) (rcfg : RenderConfig) (w h : Z) (fragmentBuffer : list Fragment.t)
    (depthAccum : list vec4) (depthRevealage : list Q) (materials : list Material.t)
    (fb fb' : list vec4) :
  RENDER_DEPTH_ONLY cfg = false -> RENDER_NORMAL_ONLY rcfg = false ->
  USE_K_BUFFER cfg = true ->
  launch_render normalize pow cfg rcfg w h fragmentBuffer depthAccum depthRevealage
    materials fb = Some fb' ->
  forall x y, (0 <= x < w)%Z -> (0 <= y < h)%Z ->
    exists a r,
      rd depthAccum (flat_index x y w) = Some a
      /\ rd depthRevealage (flat_index x y w) = Some r
      /\ rd fb' (flat_index x y w) = Some (kbuffer_composite a r).
Proof.
  intros Hd Hn Hk H x y Hx Hy.
  destruct (launch_render_values _ _ _ _ _ _ _ _ _ _ _ _ H) as [_ V].
  destruct (V x y Hx Hy) as (c & Hc & Hrd). unfold render_value in Hc.
  rewrite Hd, Hn, Hk in Hc.
  apply bind_Some in Hc as (f & _ & Hc). apply bind_Some in Hc as (c0 & _ & Hc).
  apply bind_Some in Hc as (a & Ha & Hc). apply bind_Some in Hc as (r & Hr & Hc).
  injection Hc as <-. exists a, r. auto.
Qed.

Lemma X23_kbuffer_render_is_composite_witness :
  (RENDER_DEPTH_ONLY kbuffer_config = false
   /\ RENDER_NORMAL_ONLY default_render_config = false
   /\ USE_K_BUFFER kbuffer_config = true)
  /\ exists fb',
       launch_render (fun v => v) (fun a _ => a) kbuffer_config default_render_config 1 1
         [unlit_fragment] [mkvec4 2 4 6 2] [1 # 2] [] [zero_vec4] = Some fb'
       /\ rd fb' (flat_index 0 0 1) = Some (kbuffer_composite (mkvec4 2 4 6 2) (1 # 2)).
Proof.
  split; [repeat split|].
  destruct (launch_render (fun v => v) (fun a _ => a) kbuffer_config default_render_config
              1 1 [unlit_fragment] [mkvec4 2 4 6 2] [1 # 2] [] [zero_vec4])
    as [fb'|] eqn:E; [|vm_compute in E; discriminate].
  exists fb'. split; [reflexivity|].
  destruct (X23_kbuffer_render_is_composite (fun v => v) (fun a _ => a) kbuffer_config
              default_render_config 1 1 [unlit_fragment] [mkvec4 2 4 6 2] [1 # 2] []
              [zero_vec4] fb' eq_refl eq_refl eq_refl E 0%Z 0%Z ltac:(lia) ltac:(lia))
    as (a & r & Ha & Hr & Hfb).
  cbn in Ha, Hr. injection Ha as <-. injection Hr as <-. exact Hfb.
Defined.

(** X24.  In colour mode without the k-buffer, after a launch of [render]
    every pixel of the image whose fragment has material id -1 holds the
    fragment's colour unchanged, and the material id of every other pixel's
    fragment is an index into the material table. *)
Theorem X24_render_passes_unlit_fragments (normalize : vec3 -> vec3) (pow : Q -> Q -> Q)
    (cfg : Config) (rcfg : RenderConfig) (w h : Z) (fragmentBuffer : list Fragment.t)
    (depthAccum : list vec4) (depthRevealage : list Q) (materials : list Material.t)
    (fb fb' : list vec4) :
  RENDER_DEPTH_ONLY cfg = false -> RENDER_NORMAL_ONLY rcfg = false ->
  USE_K_BUFFER cfg = false ->
  launch_render normalize pow cfg rcfg w h fragmentBuffer depthAccum depthRevealage
    materials fb = Some fb' ->
  forall x y, (0 <= x < w)%Z -> (0 <= y < h)%Z ->
    exists f,
      rd fragmentBuffer (flat_index x y w) = Some f
      /\ (Fragment.materialId f = (-1)%Z ->
          rd fb' (flat_index x y w) = Some (Fragment.color f))
      /\ (Fragment.materialId f <> (-1)%Z ->
          is_Some (rd materials (Fragment.materialId f))).
Proof.
  intros Hd Hn Hk H x y Hx Hy.
  destruct (launch_render_values _ _ _ _ _ _ _ _ _ _ _ _ H) as [_ V].
  destruct (V x y Hx Hy) as (c & Hc & Hrd). unfold render_value in Hc.
  rewrite Hd, Hn, Hk in Hc.
  apply bind_Some in Hc as (f & Hf & Hc). apply bind_Some in Hc as (c0 & Hc0 & Hc).
  injection Hc as ->. exists f. split; [exact Hf|]. split.
  - intros Hm. rewrite Hm in Hc0. cbn in Hc0. injection Hc0 as ->. exact Hrd.
  - intros Hm. destruct (Z.eqb_spec (Fragment.materialId f) (-1)) as [?|_]; [contradiction|].
    cbn [negb] in Hc0. eapply shade_needs_material. exact Hc0.
Qed.

Lemma X24_render_passes_unlit_fragments_witness :
  (RENDER_DEPTH_ONLY default_config = false
   /\ RENDER_NORMAL_ONLY default_render_config = false
   /\ USE_K_BUFFER default_config = false)
  /\ exists fb',
       launch_render (fun v => v) (fun a _ => a) default_config default_render_config 1 1
         [unlit_fragment] [zero_vec4] [0] [] [zero_vec4] = Some fb'
       /\ rd fb' (flat_index 0 0 1) = Some (Fragment.color unlit_fragment).
Proof.
  split; [repeat split|].
  destruct (launch_render (fun v => v) (fun a _ => a) default_config default_render_config
              1 1 [unlit_fragment] [zero_vec4] [0] [] [zero_vec4])
    as [fb'|] eqn:E; [|vm_compute in E; discriminate].
  exists fb'. split; [reflexivity|].
  destruct (X24_render_passes_unlit_fragments (fun v => v) (fun a _ => a) default_config
              default_render_config 1 1 [unlit_fragment] [zero_vec4] [0] []
              [zero_vec4] fb' eq_refl eq_refl eq_refl E 0%Z 0%Z ltac:(lia) ltac:(lia))
    as (f & Hf & Hpass & _).
  cbn in Hf. injection Hf as <-. apply Hpass. reflexivity.
Defined.

(** X25.  [rasterize] clears the fragment buffer to zero bytes, so a pixel no
    primitive covers has material id 0, not the -1 that [render] passes
    through: whenever a pixel of the image holds a fragment whose material
    id is neither -1 nor an index into the material table, the thread of
    the pixel reads outside the table.  With an empty table this is every
    cleared pixel. *)
Theorem X25_render_reads_outside_material_table (normalize : vec3 -> vec3)
    (pow : Q -> Q -> Q) (cfg : Config) (rcfg : RenderConfig) (w h : Z)
    (fragmentBuffer : list Fragment.t) (depthAccum : list vec4) (depthRevealage : list Q)
    (materials : list Material.t) (fb : list vec4) (x y : Z) (f : Fragment.t) :
  RENDER_DEPTH_ONLY cfg = false -> RENDER_NORMAL_ONLY rcfg = false ->
  (0 <= x < w)%Z -> (0 <= y < h)%Z ->
  rd fragmentBuffer (flat_index x y w) = Some f ->
  Fragment.materialId f <> (-1)%Z ->
  rd materials (Fragment.materialId f) = None ->
  launch_render normalize pow cfg rcfg w h fragmentBuffer depthAccum depthRevealage
    materials fb = None.
Proof.
  intros Hd Hn Hx Hy Hf Hm Hnone. unfold launch_render.
  apply (run_all_fault _ _ (x, y)); [apply grid_2d_covers; assumption|].
  intros s. rewrite render_as_write. cbn [fst snd].
  replace ((x <? w)%Z && (y <? h)%Z) with true
    by (symmetry; apply andb_true_iff; split; apply Z.ltb_lt; lia).
  unfold render_value. rewrite Hf, Hd, Hn. cbn [mbind option_bind].
  destruct (Z.eqb_spec (Fragment.materialId f) (-1)) as [?|_]; [contradiction|].
  cbn [negb].
  destruct (shade normalize pow rcfg f materials) as [c|] eqn:E; [|reflexivity].
  apply shade_needs_material in E as [m Em]. congruence.
Qed.

Lemma X25_render_reads_outside_material_table_witness :
  (RENDER_DEPTH_ONLY default_config = false
   /\ RENDER_NORMAL_ONLY default_render_config = false
   /\ (0 <= 1 < 2)%Z /\ (0 <= 1 < 2)%Z
   /\ rd (fragmentBuffer (cleared_buffers 2 2)) (flat_index 1 1 2) = Some zero_fragment
   /\ Fragment.materialId zero_fragment <> (-1)%Z
   /\ rd (@nil Material.t) (Fragment.materialId zero_fragment) = None)
  /\ launch_render (fun v => v) (fun a _ => a) default_config default_render_config 2 2
       (fragmentBuffer (cleared_buffers 2 2)) (depthAccum (cleared_buffers 2 2))
       (depthRevealage (cleared_buffers 2 2)) [] (replicate 4 zero_vec4) = None.
Proof.
  assert (H1 : (0 <= 1 < 2)%Z) by lia.
  assert (H2 : Fragment.materialId zero_fragment <> (-1)%Z) by (cbn; discriminate).
  split; [repeat split; try assumption; lia|].
  exact (X25_render_reads_outside_material_table (fun v => v) (fun a _ => a)
           default_config default_render_config 2 2
           (fragmentBuffer (cleared_buffers 2 2)) (depthAccum (cleared_buffers 2 2))
           (depthRevealage (cleared_buffers 2 2)) [] (replicate 4 zero_vec4) 1 1
           zero_fragment eq_refl eq_refl H1 H1 eq_refl H2 eq_refl).
Defined.

(** ** The presented bytes *)

Lemma float_to_uchar_range (c : Q) : (0 <= float_to_uchar (clamp c 0 1 * 255) <= 255)%Z.
Proof.
  assert (H01 : 0 <= 1) by lra. destruct (clamp_bounds c 0 1 H01) as [H0 H1].
  unfold float_to_uchar. rewrite float_to_int_nonneg by lra.
  pose proof (Qfloor_resp_le 0 (clamp c 0 1 * 255) ltac:(lra)) as L.
  pose proof (Qfloor_resp_le (clamp c 0 1 * 255) 255 ltac:(lra)) as U.
  split; [exact L|exact U].
Qed.

(** X26.  Whatever the framebuffer holds, every channel [sendImageToPBO]
    stores for a pixel of the image is a number from 0 to 255: the
    conversion of the float to [unsigned char] never leaves the range of a
    byte. *)
Theorem X26_presented_channels_are_bytes (w h : Z) (image : list vec4) (pbo : list uchar4) :
  (0 < w)%Z -> (0 < h)%Z -> (w * h <= INT_MAX)%Z ->
  Z.of_nat (length image) = (w * h)%Z -> length pbo = length image ->
  exists pbo', launch_sendImageToPBO w h image pbo = Some pbo'
    /\ forall x y, (0 <= x < w)%Z -> (0 <= y < h)%Z ->
       exists u, rd pbo' (x + y * w) = Some u /\ uchar4_bytes u.
Proof.
  intros Hw Hh Hmax Himg Hpbo.
  destruct (run_sendImageToPBO w h image (grid_2d w h) pbo Hpbo) as (pbo' & E & _ & _ & A).
  - intros [x y] Hin Hact; cbn [fst snd] in *.
    apply grid_2d_In in Hin. apply andb_true_iff in Hact as [Hx%Z.ltb_lt Hy%Z.ltb_lt].
    destruct (flat_index_in_image x y w h) as [-> ?]; lia.
  - exists pbo'. split; [exact E|]. intros x y Hx Hy.
    destruct (flat_index_in_image x y w h Hx Hy Hmax) as [Ei _].
    specialize (A (x, y) (grid_2d_covers w h x y Hx Hy)). cbn [fst snd] in A.
    rewrite Ei in A. destruct A as (px & _ & Hu).
    { apply andb_true_iff. split; apply Z.ltb_lt; lia. }
    exists (presented px). split; [exact Hu|].
    unfold uchar4_bytes, presented. cbn [ux uy uz uw].
    repeat split; apply float_to_uchar_range.
Qed.

Lemma X26_presented_channels_are_bytes_witness :
  ((0 < 1)%Z /\ (0 < 1)%Z /\ (1 * 1 <= INT_MAX)%Z
   /\ Z.of_nat (length [half_lit_pixel]) = (1 * 1)%Z
   /\ length [mkuchar4 9 9 9 9] = length [half_lit_pixel])
  /\ exists pbo' u,
       launch_sendImageToPBO 1 1 [half_lit_pixel] [mkuchar4 9 9 9 9] = Some pbo'
       /\ rd pbo' 0 = Some u /\ uchar4_bytes u.
Proof.
  assert (H : (0 < 1)%Z /\ (0 < 1)%Z /\ (1 * 1 <= INT_MAX)%Z
   /\ Z.of_nat (length [half_lit_pixel]) = (1 * 1)%Z
   /\ length [mkuchar4 9 9 9 9] = length [half_lit_pixel]).
  { repeat split. vm_compute. discriminate. }
  split; [exact H|]. destruct H as (H1 & H2 & H3 & H4 & H5).
  destruct (X26_presented_channels_are_bytes 1 1 [half_lit_pixel] [mkuchar4 9 9 9 9]
              H1 H2 H3 H4 H5) as (pbo' & E & Hpx).
  destruct (Hpx 0%Z 0%Z ltac:(lia) ltac:(lia)) as (u & Hu & Hb).
  exists pbo', u. auto.
Defined.

(** ** A frame: clear, then rasterize *)

(** X27.  In depth-test mode, after the clear of a frame and a launch of the
    rasterizer whose threads run one after the other, every pixel of the
    image whose depth is still INFINITY holds the cleared fragment (all
    zero, material id 0), and every other pixel holds a finite depth. *)
Theorem X27_untouched_pixels_stay_cleared (normalize : vec3 -> vec3) (cfg : Config)
    (numPrimitives : Z) (primitives : list Primitive.t) (width height : Z)
    (b0 b b' : RasterBuffers) :
  USE_K_BUFFER cfg = false ->
  (0 < width)%Z -> (0 < height)%Z -> (width * height <= INT_MAX)%Z ->
  Z.of_nat (length (fragmentBuffer b0)) = (width * height)%Z ->
  Z.of_nat (length (depths b0)) = (width * height)%Z ->
  Z.of_nat (length (depthAccum b0)) = (width * height)%Z ->
  Z.of_nat (length (depthRevealage b0)) = (width * height)%Z ->
  clear_frame width height b0 = Some b ->
  launch_rasterize normalize cfg numPrimitives primitives width height b = Some b' ->
  forall x y, (0 <= x < width)%Z -> (0 <= y < height)%Z ->
    (rd (depths b') (x + y * width) = Some Infinity
     /\ rd (fragmentBuffer b') (x + y * width) = Some zero_fragment)
    \/ exists d, rd (depths b') (x + y * width) = Some (Finite d).
Proof.
  intros Hk Hw Hh Hmax Lf Ld La Lr Hclear Hrun x y Hx Hy.
  destruct (clear_frame_clears width height b0 Hw Hh Hmax Lf Ld La Lr) as (b1 & E1 & Hc).
  rewrite Hclear in E1. injection E1 as <-.
  destruct (Hc x y Hx Hy) as (Hf & Hd & _).
  assert (Ht : depth_tested b b').
  { revert Hrun. apply (launch_rasterize_preserves depth_tested).
    - apply depth_tested_refl.
    - apply depth_tested_trans.
    - intros. eapply pixel_body_depth_tested; eauto. }
  destruct Ht as (_ & _ & _ & Hcells).
  assert (H0 : (0 <= x + y * width)%Z) by nia.
  assert (Erd : forall (A : Type) (l : list A), rd l (x + y * width) = l !! Z.to_nat (x + y * width)).
  { intros A l. unfold rd. destruct (Z.ltb_spec (x + y * width) 0); [lia|reflexivity]. }
  rewrite !Erd in *.
  destruct (Hcells (Z.to_nat (x + y * width))) as [[D F]|(d & d' & D & D' & Hlt)].
  - left. rewrite D, F. auto.
  - right. rewrite D'. destruct d' as [q|]; [eauto|]. destruct Hlt.
Qed.

Lemma X27_untouched_pixels_stay_cleared_witness :
  exists b b',
    (USE_K_BUFFER default_config = false
     /\ (0 < 9)%Z /\ (9 * 9 <= INT_MAX)%Z
     /\ Z.of_nat (length (fragmentBuffer (cleared_buffers 9 9))) = (9 * 9)%Z
     /\ clear_frame 9 9 (cleared_buffers 9 9) = Some b
     /\ launch_rasterize (fun v => v) default_config 1 [red_near] 9 9 b = Some b')
    /\ rd (depths b') (8 + 8 * 9) = Some Infinity
    /\ rd (fragmentBuffer b') (8 + 8 * 9) = Some zero_fragment.
Proof.
  destruct (clear_frame 9 9 (cleared_buffers 9 9)) as [b|] eqn:Ec;
    [|vm_compute in Ec; discriminate].
  destruct (launch_rasterize (fun v => v) default_config 1 [red_near] 9 9 b) as [b'|] eqn:Er;
    [|vm_compute in Ec; injection Ec as <-; vm_compute in Er; discriminate].
  assert (H1 : (0 < 9)%Z) by lia.
  assert (H2 : (9 * 9 <= INT_MAX)%Z) by (vm_compute; discriminate).
  exists b, b'. split; [repeat split; assumption|].
  destruct (X27_untouched_pixels_stay_cleared (fun v => v) default_config 1 [red_near] 9 9
              (cleared_buffers 9 9) b b' eq_refl H1 H1 H2 eq_refl eq_refl eq_refl eq_refl
              Ec Er 8%Z 8%Z ltac:(lia) ltac:(lia)) as [H|[d Hd]]; [exact H|].
  exfalso. vm_compute in Ec. injection Ec as <-. vm_compute in Er. injection Er as <-.
  vm_compute in Hd. discriminate.
Defined.

(** ** The node transform *)

Lemma run_all_pair {I A B : Type} (f : I -> A -> option A) (g : I -> B -> option B)
    (ids : list I) :
  forall (a : A) (b : B),
    run_all (fun i ab => a' ← f i (fst ab); b' ← g i (snd ab); Some (a', b')) ids (a, b)
    = a' ← run_all f ids a; b' ← run_all g ids b; Some (a', b').
Proof.
  induction ids as [|i ids IH]; intros a b; [reflexivity|].
  cbn [run_all fst snd]. destruct (f i a) as [a1|] eqn:Ef.
  - cbn [mbind option_bind]. destruct (g i b) as [b1|] eqn:Eg.
    + cbn [mbind option_bind]. apply IH.
    + cbn [mbind option_bind]. destruct (run_all f ids a1); reflexivity.
  - reflexivity.
Qed.

Lemma in_place_thread {A : Type} (n : Z) (T : A -> A) (i : Z) (s s' : list A) :
  (if (i <? n)%Z then upd s i T else Some s) = Some s' ->
  (~ (i < n)%Z /\ s' = s)
  \/ ((i < n)%Z /\ exists a a', rd s i = Some a /\ s' = <[Z.to_nat i := a']> s /\ a' = T a).
Proof.
  destruct (Z.ltb_spec i n) as [Hlt|Hge].
  - intros (a & Ha & ->)%upd_inv. right. split; [exact Hlt|]. eauto.
  - intros [= <-]. left. split; [lia|reflexivity].
Qed.

(** A launch that updates the first [n] cells of a buffer in place. *)
Lemma launch_in_place {A : Type} (n : Z) (T : A -> A) (s : list A) :
  (n <= Z.of_nat (length s))%Z ->
  exists s',
    run_all (fun i s => if (i <? n)%Z then upd s i T else Some s)
            (thread_ids (launch_size_1d n)) s = Some s'
    /\ length s' = length s
    /\ (forall i, (0 <= i < n)%Z -> rd s' i = T <$> rd s i)
    /\ (forall i, (n <= i)%Z -> rd s' i = rd s i).
Proof.
  intros Hn.
  destruct (run_all_total (fun t => length t = length s)
              (fun i t => if (i <? n)%Z then upd t i T else Some t)
              (thread_ids (launch_size_1d n))) with (s := s) as (s' & E & _);
    [|reflexivity|].
  { intros i t Hi Hlen. apply thread_ids_In in Hi.
    destruct (Z.ltb_spec i n) as [Hlt|Hge]; [|eauto].
    destruct (rd_in_bounds t i ltac:(lia)) as [a Ha].
    rewrite (upd_Some _ _ _ _ Ha). eexists. split; [reflexivity|].
    rewrite length_insert. exact Hlen. }
  exists s'. split; [exact E|].
  destruct (run_all_cellwise (fun i => (i < n)%Z) (fun _ a a' => a' = T a) _ _
              (in_place_thread n T) (thread_ids_NoDup _) _ _ E) as [L C].
  split; [exact L|]. split.
  - intros i Hi. destruct (C i) as [Ca _].
    destruct Ca as (a & a' & Ha & Ha' & ->); [apply launch_size_1d_covers; exact Hi|lia|].
    rewrite Ha, Ha'. reflexivity.
  - intros i Hi. apply (C i). lia.
Qed.

Lemma nodeMatrixTransform_split (normalize : vec3 -> vec3) (n : Z) (MV : mat4)
    (MV_normal : mat3) (vid : Z) (buffers : list vec3 * list vec3) :
  _nodeMatrixTransform normalize n MV MV_normal vid buffers
  = position ← (if (vid <? n)%Z
                then upd (fst buffers) vid
                       (fun p => vec3_of_vec4 (mat4_mul_vec4 MV (vec4_of_vec3 p 1)))
                else Some (fst buffers));
    normal ← (if (vid <? n)%Z
              then upd (snd buffers) vid (fun v => normalize (mat3_mul_vec3 MV_normal v))
              else Some (snd buffers));
    Some (position, normal).
Proof.
  destruct buffers as [position normal]. unfold _nodeMatrixTransform. cbn [fst snd].
  destruct (vid <? n)%Z; reflexivity.
Qed.

(** X28.  When both buffers hold [numVertices] entries, the launch of
    [_nodeMatrixTransform] completes and transforms every vertex exactly
    once, in place: each position below [numVertices] becomes the first
    three components of MV * (position, 1), without a division by w, each
    normal becomes the normalized MV_normal * normal, and the entries
    behind are left as they were. *)
Theorem X28_node_transform_once_in_place (normalize : vec3 -> vec3) (numVertices : Z)
    (MV : mat4) (MV_normal : mat3) (position normal : list vec3) :
  (numVertices <= Z.of_nat (length position))%Z ->
  (numVertices <= Z.of_nat (length normal))%Z ->
  exists position' normal',
    launch_nodeMatrixTransform normalize numVertices MV MV_normal position normal
    = Some (position', normal')
    /\ length position' = length position /\ length normal' = length normal
    /\ (forall vid, (0 <= vid < numVertices)%Z ->
          rd position' vid
          = (fun p => vec3_of_vec4 (mat4_mul_vec4 MV (vec4_of_vec3 p 1))) <$> rd position vid
          /\ rd normal' vid
             = (fun v => normalize (mat3_mul_vec3 MV_normal v)) <$> rd normal vid)
    /\ (forall vid, (numVertices <= vid)%Z ->
          rd position' vid = rd position vid /\ rd normal' vid = rd normal vid).
Proof.
  intros Hp Hn. unfold launch_nodeMatrixTransform.
  destruct (launch_in_place numVertices
              (fun p => vec3_of_vec4 (mat4_mul_vec4 MV (vec4_of_vec3 p 1))) position Hp)
    as (position' & Ep & Lp & Tp & Fp).
  destruct (launch_in_place numVertices
              (fun v => normalize (mat3_mul_vec3 MV_normal v)) normal Hn)
    as (normal' & En & Ln & Tn & Fn).
  exists position', normal'. split.
  - rewrite (run_all_ext _ _ _ (nodeMatrixTransform_split normalize numVertices MV MV_normal)).
    rewrite (run_all_pair
               (fun i s => if (i <? numVertices)%Z then upd s i _ else Some s)
               (fun i s => if (i <? numVertices)%Z then upd s i _ else Some s)).
    rewrite Ep, En. reflexivity.
  - split; [exact Lp|]. split; [exact Ln|]. split.
    + intros vid Hv. split; [apply Tp|apply Tn]; exact Hv.
    + intros vid Hv. split; [apply Fp|apply Fn]; exact Hv.
Qed.

Lemma X28_node_transform_once_in_place_witness :
  ((1 <= Z.of_nat (length [mkvec3 1 1 1; mkvec3 5 5 5]))%Z
   /\ (1 <= Z.of_nat (length [mkvec3 0 0 1; mkvec3 0 1 0]))%Z)
  /\ exists position' normal',
       launch_nodeMatrixTransform (fun v => v) 1 translation_matrix mat3_identity
         [mkvec3 1 1 1; mkvec3 5 5 5] [mkvec3 0 0 1; mkvec3 0 1 0]
       = Some (position', normal')
       /\ rd position' 1 = Some (mkvec3 5 5 5)
       /\ (x3 <$> rd position' 0) = Some (1 * 1 + 1 * 0 + 1 * 0 + 1 * 1).
Proof.
  assert (H1 : (1 <= Z.of_nat (length [mkvec3 1 1 1; mkvec3 5 5 5]))%Z) by (cbn; lia).
  assert (H2 : (1 <= Z.of_nat (length [mkvec3 0 0 1; mkvec3 0 1 0]))%Z) by (cbn; lia).
  split; [split; assumption|].
  destruct (X28_node_transform_once_in_place (fun v => v) 1 translation_matrix mat3_identity
              [mkvec3 1 1 1; mkvec3 5 5 5] [mkvec3 0 0 1; mkvec3 0 1 0] H1 H2)
    as (position' & normal' & E & _ & _ & Ht & Hf).
  exists position', normal'. split; [exact E|]. split.
  - rewrite (proj1 (Hf 1%Z ltac:(lia))). reflexivity.
  - rewrite (proj1 (Ht 0%Z ltac:(lia))). reflexivity.
Defined.

(** ** The assembly loop over the mesh parts *)

Lemma totalNumPrimitives_cons (p : PrimitiveDevBufPointers.t)
    (parts : list PrimitiveDevBufPointers.t) :
  totalNumPrimitives (p :: parts)
  = (PrimitiveDevBufPointers.numPrimitives p + totalNumPrimitives parts)%Z.
Proof.
  change (p :: parts) with ([] ++ p :: parts). rewrite totalNumPrimitives_app.
  change (totalNumPrimitives []) with 0%Z. lia.
Qed.

Lemma totalNumPrimitives_nonneg (parts : list PrimitiveDevBufPointers.t) :
  Forall whole_triangles parts -> (0 <= totalNumPrimitives parts)%Z.
Proof.
  induction 1 as [|p parts (_ & _ & Hp & _) _ IH]; [cbn; lia|].
  rewrite totalNumPrimitives_cons. lia.
Qed.

Lemma assemble_parts_tiles (parts : list PrimitiveDevBufPointers.t) :
  Forall whole_triangles parts ->
  forall (begin : Z) (prims : list Primitive.t),
    (0 <= begin)%Z ->
    (begin + totalNumPrimitives parts <= Z.of_nat (length prims))%Z ->
    exists prims',
      assemble_parts parts begin prims = Some ((begin + totalNumPrimitives parts)%Z, prims')
      /\ length prims' = length prims
      /\ (forall j, (j < begin \/ begin + totalNumPrimitives parts <= j)%Z ->
                    rd prims' j = rd prims j)
      /\ (forall before p after, parts = before ++ p :: after ->
            forall iid, (0 <= iid < PrimitiveDevBufPointers.numIndices p)%Z ->
              assembled_at (begin + totalNumPrimitives before) p prims' iid).
Proof.
  induction 1 as [|p parts Hp Hparts IH]; intros begin prims Hb Hroom.
  - exists prims. cbn. rewrite Z.add_0_r. split; [reflexivity|]. split; [reflexivity|].
    split; [reflexivity|]. intros [|? ?] ? ? ?; discriminate.
  - pose proof (totalNumPrimitives_nonneg parts Hparts) as Hnn.
    rewrite totalNumPrimitives_cons in *.
    destruct Hp as (Hmode & Hty & Hnp & Hni & Hg).
    destruct (launch_primitiveAssembly_assembles begin p prims Hmode Hb) as
      (prims1 & E1 & [L1 F1] & A1); [rewrite Hty; cbn [PrimitiveType_int]; lia|exact Hg|].
    destruct (IH (begin + PrimitiveDevBufPointers.numPrimitives p)%Z prims1)
      as (prims' & E' & L' & F' & A'); [lia|lia|].
    assert (Hslot : forall iid, (0 <= iid < PrimitiveDevBufPointers.numIndices p)%Z ->
              (begin <= Z.quot iid 3 + begin
               < begin + PrimitiveDevBufPointers.numPrimitives p)%Z).
    { intros iid Hiid. pose proof (Z.quot_rem' iid 3).
      pose proof (Z.rem_bound_pos iid 3 ltac:(lia) ltac:(lia)). lia. }
    exists prims'. cbn [assemble_parts]. rewrite E1. split.
    { rewrite E'. f_equal. f_equal. lia. }
    split; [congruence|]. split.
    + intros j Hj. rewrite F' by lia. apply (F1 j).
      intros iid Hiid. rewrite Hty. cbn [PrimitiveType_int].
      specialize (Hslot iid Hiid). lia.
    + intros before q after Eparts iid Hiid. destruct before as [|p0 before].
      * cbn in Eparts. injection Eparts as <- <-.
        change (totalNumPrimitives []) with 0%Z. rewrite Z.add_0_r.
        destruct (A1 iid Hiid) as (slot & vo & Hs & Hvo & Hc).
        exists slot, vo. split; [|auto].
        rewrite Hty in *. cbn [PrimitiveType_int] in *.
        rewrite F' by (specialize (Hslot iid Hiid); lia). exact Hs.
      * cbn in Eparts. injection Eparts as <- ->.
        rewrite totalNumPrimitives_cons.
        replace (begin + (PrimitiveDevBufPointers.numPrimitives p
                          + totalNumPrimitives before))%Z
          with (begin + PrimitiveDevBufPointers.numPrimitives p
                + totalNumPrimitives before)%Z by lia.
        eapply A'; [reflexivity|exact Hiid].
Qed.

(** X29.  For mesh parts of whole triangles and a [dev_primitives] with room
    for all of them, the assembly loop of [rasterize] completes, ends with
    [curPrimitiveBeginId] advanced by [totalNumPrimitives], and tiles the
    buffer: the triangles of each part lie in the part's own range of
    slots, behind those of the parts before it, no part overwrites another,
    and the slots outside the whole range are left as they were. *)
Theorem X29_assembly_loop_tiles_primitives (parts : list PrimitiveDevBufPointers.t)
    (begin : Z) (prims : list Primitive.t) :
  Forall whole_triangles parts ->
  (0 <= begin)%Z ->
  (begin + totalNumPrimitives parts <= Z.of_nat (length prims))%Z ->
  exists prims',
    assemble_parts parts begin prims = Some ((begin + totalNumPrimitives parts)%Z, prims')
    /\ length prims' = length prims
    /\ (forall j, (j < begin \/ begin + totalNumPrimitives parts <= j)%Z ->
                  rd prims' j = rd prims j)
    /\ (forall before p after, parts = before ++ p :: after ->
          forall iid, (0 <= iid < PrimitiveDevBufPointers.numIndices p)%Z ->
            assembled_at (begin + totalNumPrimitives before) p prims' iid).
Proof. intros Hparts. apply assemble_parts_tiles. exact Hparts. Qed.

Lemma triangle_part_whole : whole_triangles triangle_part.
Proof.
  unfold whole_triangles. split; [reflexivity|]. split; [reflexivity|].
  split; [cbn; lia|]. split; [reflexivity|]. exact triangle_part_gathered.
Defined.

Lemma X29_assembly_loop_tiles_primitives_witness :
  (Forall whole_triangles [triangle_part; triangle_part]
   /\ (0 <= 1)%Z
   /\ (1 + totalNumPrimitives [triangle_part; triangle_part]
       <= Z.of_nat (length [corner_primitive 5; corner_primitive 6; corner_primitive 7;
                            corner_primitive 8]))%Z)
  /\ exists prims',
       assemble_parts [triangle_part; triangle_part] 1
         [corner_primitive 5; corner_primitive 6; corner_primitive 7; corner_primitive 8]
       = Some ((1 + totalNumPrimitives [triangle_part; triangle_part])%Z, prims')
       /\ rd prims' 0 = Some (corner_primitive 5)
       /\ rd prims' 3 = Some (corner_primitive 8)
       /\ assembled_at (1 + totalNumPrimitives [triangle_part]) triangle_part prims' 2.
Proof.
  assert (H1 : Forall whole_triangles [triangle_part; triangle_part])
    by (constructor; [exact triangle_part_whole|
        constructor; [exact triangle_part_whole|constructor]]).
  assert (H2 : (0 <= 1)%Z) by lia.
  assert (H3 : (1 + totalNumPrimitives [triangle_part; triangle_part]
                <= Z.of_nat (length [corner_primitive 5; corner_primitive 6;
                                     corner_primitive 7; corner_primitive 8]))%Z)
    by (cbn; lia).
  split; [tauto|].
  destruct (X29_assembly_loop_tiles_primitives [triangle_part; triangle_part] 1
              [corner_primitive 5; corner_primitive 6; corner_primitive 7; corner_primitive 8]
              H1 H2 H3) as (prims' & E & _ & Hf & Ha).
  exists prims'. split; [exact E|]. split; [|split].
  - rewrite Hf by (cbn; lia). reflexivity.
  - rewrite Hf by (cbn; lia). reflexivity.
  - apply (Ha [triangle_part] triangle_part []); [reflexivity|cbn; lia].
Defined.

(** ** Vertex stage and assembly of a mesh part, together *)

(** X30.  For a mesh part of mode TRIANGLES whose buffers hold
    [numVertices] entries and whose indices are all below [numVertices], the
    two launches of [rasterize] for the part complete, and every corner of
    its primitives is the transformed vertex its index names: component
    [iid % type] of slot [curPrimitiveBeginId + iid / type] holds what the
    vertex stage made of input vertex [dev_indices[iid]], in particular its
    viewport position. *)
Theorem X30_corners_are_transformed_indexed_vertices (normalize : vec3 -> vec3)
    (MVP MV : mat4) (MV_normal : mat3) (width height begin : Z)
    (p : PrimitiveDevBufPointers.t) (prims : list Primitive.t) :
  let n := PrimitiveDevBufPointers.numVertices p in
  let ty := PrimitiveType_int (PrimitiveDevBufPointers.primitiveType p) in
  PrimitiveDevBufPointers.primitiveMode p = MODE_TRIANGLES ->
  (n <= Z.of_nat (length (PrimitiveDevBufPointers.dev_position p)))%Z ->
  (n <= Z.of_nat (length (PrimitiveDevBufPointers.dev_normal p)))%Z ->
  (n <= Z.of_nat (length (PrimitiveDevBufPointers.dev_verticesOut p)))%Z ->
  (PrimitiveDevBufPointers.dev_diffuseTex p = None
   \/ (n <= Z.of_nat (length (PrimitiveDevBufPointers.dev_texcoord0 p)))%Z) ->
  (0 <= begin)%Z ->
  (PrimitiveDevBufPointers.numIndices p <= ty * (Z.of_nat (length prims) - begin))%Z ->
  (forall iid, (0 <= iid < PrimitiveDevBufPointers.numIndices p)%Z ->
     exists idx, rd (PrimitiveDevBufPointers.dev_indices p) iid = Some idx
                 /\ (0 <= idx < n)%Z) ->
  exists out prims',
    vertex_and_assembly normalize MVP MV MV_normal width height begin p prims
    = Some (out, prims')
    /\ forall iid, (0 <= iid < PrimitiveDevBufPointers.numIndices p)%Z ->
         exists idx slot o v,
           rd (PrimitiveDevBufPointers.dev_indices p) iid = Some idx
           /\ rd prims' (Z.quot iid ty + begin) = Some slot
           /\ arr3_get (Primitive.v slot) (Z.rem iid ty) = Some v
           /\ rd (PrimitiveDevBufPointers.dev_verticesOut p) idx = Some o
           /\ vertex_written normalize p MVP MV MV_normal width height idx o v.
Proof.
  intros n ty Hmode Hp Hn Ho Ht Hb Hroom Hidx.
  destruct (launch_vertex_stage_runs normalize p MVP MV MV_normal width height Hp Hn Ho Ht)
    as [out Eout].
  destruct (launch_vertex_stage normalize p MVP MV MV_normal width height out Eout)
    as (Lout & Hall & _).
  assert (Hg : forall iid, (0 <= iid < PrimitiveDevBufPointers.numIndices p)%Z ->
             exists idx o v,
               rd (PrimitiveDevBufPointers.dev_indices p) iid = Some idx
               /\ rd (PrimitiveDevBufPointers.dev_verticesOut p) idx = Some o
               /\ gathered (with_verticesOut p out) iid = Some v
               /\ vertex_written normalize p MVP MV MV_normal width height idx o v).
  { intros iid Hiid. destruct (Hidx iid Hiid) as (idx & Ei & Hr).
    destruct (Hall idx Hr) as (o & v & Eo & Ev & Hw).
    exists idx, o, v. split; [exact Ei|]. split; [exact Eo|]. split; [|exact Hw].
    unfold gathered. cbn [with_verticesOut PrimitiveDevBufPointers.dev_indices
                            PrimitiveDevBufPointers.dev_verticesOut].
    rewrite Ei. exact Ev. }
  destruct (launch_primitiveAssembly_assembles begin (with_verticesOut p out) prims)
    as (prims' & Eprims & _ & Hasm); [exact Hmode|exact Hb|exact Hroom| |].
  { intros iid Hiid. destruct (Hg iid Hiid) as (idx & o & v & _ & _ & Egv & _). eauto. }
  exists out, prims'. split.
  - unfold vertex_and_assembly. rewrite Eout. cbn [mbind option_bind]. rewrite Eprims.
    reflexivity.
  - intros iid Hiid. destruct (Hg iid Hiid) as (idx & o & v & Ei & Eo & Egv & Hw).
    destruct (Hasm iid Hiid) as (slot & vo & Hs & Hvo & Hc).
    cbn [with_verticesOut PrimitiveDevBufPointers.primitiveType] in Hs, Hc.
    rewrite Egv in Hvo. injection Hvo as <-.
    exists idx, slot, o, v. auto.
Qed.

Lemma input_triangle_part_indices (iid : Z) :
  (0 <= iid < PrimitiveDevBufPointers.numIndices input_triangle_part)%Z ->
  exists idx, rd (PrimitiveDevBufPointers.dev_indices input_triangle_part) iid = Some idx
              /\ (0 <= idx < PrimitiveDevBufPointers.numVertices input_triangle_part)%Z.
Proof.
  cbn. intros H. assert (iid = 0 \/ iid = 1 \/ iid = 2)%Z as [->|[->| ->]] by lia;
    eexists; (split; [reflexivity|lia]).
Defined.

Lemma X30_corners_are_transformed_indexed_vertices_witness :
  exists out prims' slot v,
    vertex_and_assembly (fun v => v) mat4_identity mat4_identity mat3_identity 8 8 0
      input_triangle_part [corner_primitive 5] = Some (out, prims')
    /\ rd prims' 0 = Some slot
    /\ arr3_get (Primitive.v slot) 0 = Some v
    /\ VertexOut.pos v = viewport_position mat4_identity (mkvec3 (-1) 1 (1 # 2)) 8 8
    /\ VertexOut.materialId v = 3%Z.
Proof.
  destruct (X30_corners_are_transformed_indexed_vertices (fun v => v) mat4_identity
              mat4_identity mat3_identity 8 8 0 input_triangle_part [corner_primitive 5]
              eq_refl ltac:(cbn; lia) ltac:(cbn; lia) ltac:(cbn; lia) (or_introl eq_refl)
              ltac:(lia) ltac:(cbn; lia) input_triangle_part_indices)
    as (out & prims' & E & Hall).
  destruct (Hall 0%Z ltac:(cbn; lia)) as (idx & slot & o & v & Ei & Hs & Hc & _ & Hw).
  exists out, prims', slot, v. split; [exact E|]. split; [exact Hs|]. split; [exact Hc|].
  cbn in Ei. injection Ei as <-.
  destruct Hw as (position & normal & Epos & _ & Hpos & _ & _ & _ & Hm & _).
  cbn in Epos. injection Epos as <-. split; [exact Hpos|exact Hm].
Defined.
